(** * facebookinsights.graph: selections over a paginated graph API

    A shallow embedding of [src/facebookinsights/graph.py] (Python 2), the
    properties its specification states about it, and further properties
    of the code.

    Conventions of the embedding:
    - an instant ([datetime]) is the integer count of microseconds since the
      epoch, the resolution of [datetime] and [timedelta];
    - a Python [dict] with string keys is a [gmap string _]; [meta] and
      [params] live in a store of dictionaries and the selection objects hold
      references to them, as in Python;
    - a call that may raise returns an [outcome]; stateful code threads the
      [world] (object store, dictionary store, clock, transport log);
    - the collaborators that are not part of [graph.py] ([utils.date],
      [utils.api], the transport) are the fields of a [Collab] record. *)

From stdpp Require Import gmap strings list fin_maps.
From Stdlib Require Import ZArith Ascii.

Local Open Scope string_scope.
Local Open Scope list_scope.

(** ** Exceptions and outcomes *)

Inductive exn :=
  | KeyError (k : string)
  | TypeError
  | ValueError
  | IndexError
  | AttributeError (a : string)
  | NotImplementedError
  | SyntaxError
  | CollaboratorError (msg : string)
  | InvalidReference.

(** [Raise InvalidReference] is not a Python exception: it is the model's
    answer when a location is read that was never allocated.  [Diverge] is
    the answer of a loop over a lazy page sequence that ran out of fuel. *)
Inductive outcome (A : Type) :=
  | Ret (a : A)
  | Raise (e : exn)
  | Diverge.
Arguments Ret {A} a.
Arguments Raise {A} e.
Arguments Diverge {A}.

Definition obind {A B} (f : A → outcome B) (x : outcome A) : outcome B :=
  match x with
  | Ret a => f a
  | Raise e => Raise e
  | Diverge => Diverge
  end.

#[global] Instance outcome_ret : MRet outcome := @Ret.
#[global] Instance outcome_bind : MBind outcome := @obind.

Definition returns {A} (x : outcome A) : bool :=
  match x with Ret _ => true | _ => false end.

Definition raises {A} (x : outcome A) : bool :=
  match x with Raise _ => true | _ => false end.

Fixpoint omapM {A B} (f : A → outcome B) (l : list A) : outcome (list B) :=
  match l with
  | [] => Ret []
  | a :: l' => b ← f a; bs ← omapM f l'; Ret (b :: bs)
  end.

(** ** Values *)

(** Microseconds since the epoch. *)
Definition instant := Z.

#[warnings="-register-all"]
Inductive json :=
  | JNull
  | JBool (b : bool)
  | JNum (z : Z)
  | JStr (s : string)
  | JArr (l : list json)
  | JObj (l : list (string * json)).

(** What [meta] and [params] hold. *)
Inductive value :=
  | VBool (b : bool)
  | VNum (z : Z)
  | VTime (t : instant)
  | VStr (s : string)
  | VStrs (l : list string).

Definition truthy (v : value) : bool :=
  match v with
  | VBool b => b
  | VNum z => negb (z =? 0)%Z
  | VTime _ => true
  | VStr s => negb (String.eqb s "")
  | VStrs l => negb (bool_decide (l = []))
  end.

Definition as_time (v : value) : outcome instant :=
  match v with VTime t => Ret t | _ => Raise TypeError end.

(** A date as a caller passes it: a string or a [datetime]. *)
Inductive date_arg :=
  | DStr (s : string)
  | DTime (t : instant).

Definition date_truthy (d : option date_arg) : bool :=
  match d with
  | None => false
  | Some (DStr s) => negb (String.eqb s "")
  | Some (DTime _) => true
  end.

(** The argument of [daily], [weekly], [monthly], [lifetime]. *)
Inductive metrics_arg :=
  | NoMetrics
  | Bare (metric : string)
  | Listed (metrics : list string).

(** ** Strings, as [urlparse] needs them *)

Module Str.

Fixpoint contains (c : ascii) (s : string) : bool :=
  match s with
  | EmptyString => false
  | String a s' => if Ascii.eqb a c then true else contains c s'
  end.

(** [s.split(c, 1)] when [c] occurs in [s]. *)
Fixpoint split_first (c : ascii) (s : string) : option (string * string) :=
  match s with
  | EmptyString => None
  | String a s' =>
      if Ascii.eqb a c then Some (EmptyString, s')
      else match split_first c s' with
           | Some (l, r) => Some (String a l, r)
           | None => None
           end
  end.

(** [s.split(c)]: never empty. *)
Fixpoint split (c : ascii) (s : string) : list string :=
  match s with
  | EmptyString => [EmptyString]
  | String a s' =>
      if Ascii.eqb a c then EmptyString :: split c s'
      else match split c s' with
           | w :: ws => String a w :: ws
           | [] => [String a EmptyString]
           end
  end.

Fixpoint replace (c d : ascii) (s : string) : string :=
  match s with
  | EmptyString => EmptyString
  | String a s' => String (if Ascii.eqb a c then d else a) (replace c d s')
  end.

Fixpoint forallb (p : ascii → bool) (s : string) : bool :=
  match s with
  | EmptyString => true
  | String a s' => p a && forallb p s'
  end.

Definition is_digit (a : ascii) : bool :=
  let n := nat_of_ascii a in (48 <=? n)%nat && (n <=? 57)%nat.

Definition is_alpha (a : ascii) : bool :=
  let n := nat_of_ascii a in
  ((65 <=? n)%nat && (n <=? 90)%nat) || ((97 <=? n)%nat && (n <=? 122)%nat).

Definition hex_value (a : ascii) : option nat :=
  let n := nat_of_ascii a in
  if is_digit a then Some (n - 48)%nat
  else if (65 <=? n)%nat && (n <=? 70)%nat then Some (n - 55)%nat
  else if (97 <=? n)%nat && (n <=? 102)%nat then Some (n - 87)%nat
  else None.

(** [s[-1]] of a non-empty list. *)
Definition last_of (l : list string) : string := List.last l EmptyString.

End Str.

(** ** The standard library's [urlparse] (CPython 2.7), as far as
    [Picture] uses it: the query component and [parse_qs]. *)

Module Urlparse.

Definition scheme_char (a : ascii) : bool :=
  Str.is_alpha a || Str.is_digit a
  || Ascii.eqb a "+" || Ascii.eqb a "-" || Ascii.eqb a ".".

(** [urlsplit] first takes the scheme off: the text before the first
    colon, when that text is [http], or is made of scheme characters and
    what follows is not a port number. *)
Definition strip_scheme (url : string) : string :=
  match Str.split_first ":" url with
  | Some (pre, rest) =>
      if String.eqb pre "" then url
      else if String.eqb pre "http" then rest
      else if Str.forallb scheme_char pre then
        if String.eqb rest "" || negb (Str.forallb Str.is_digit rest)
        then rest else url
      else url
  | None => url
  end.

(** [_splitnetloc(url, 0)] on the text after the two slashes. *)
Fixpoint splitnetloc (s : string) : string * string :=
  match s with
  | EmptyString => (EmptyString, EmptyString)
  | String a s' =>
      if Ascii.eqb a "/" || Ascii.eqb a "?" || Ascii.eqb a "#"
      then (EmptyString, s)
      else let '(n, r) := splitnetloc s' in (String a n, r)
  end.

Definition bad_brackets (netloc : string) : bool :=
  let l := Str.contains "[" netloc in
  let r := Str.contains "]" netloc in
  (l && negb r) || (r && negb l).

(** [urlparse.urlparse(url).query]; raises on an unbalanced bracket in
    the network location. *)
Definition urlparse_query (url : string) : outcome string :=
  let url1 := strip_scheme url in
  url2 ← match url1 with
         | String "/" (String "/" rest) =>
             let '(netloc, r) := splitnetloc rest in
             if bad_brackets netloc then Raise ValueError else Ret r
         | _ => Ret url1
         end;
  let url3 := match Str.split_first "#" url2 with
              | Some (u, _) => u
              | None => url2
              end in
  Ret match Str.split_first "?" url3 with
      | Some (_, q) => q
      | None => EmptyString
      end.

(** [unquote]: a percent sign followed by two hexadecimal digits is the
    character they encode, any other percent sign stays. *)
Fixpoint unquote (s : string) : string :=
  match s with
  | EmptyString => EmptyString
  | String a s' =>
      if Ascii.eqb a "%" then
        match s' with
        | String h (String l rest) =>
            match Str.hex_value h, Str.hex_value l with
            | Some x, Some y =>
                String (ascii_of_nat (16 * x + y)) (unquote rest)
            | _, _ => String a (unquote s')
            end
        | _ => String a (unquote s')
        end
      else String a (unquote s')
  end.

(** [parse_qsl(qs)] with the default flags: fields are separated by
    ampersands and semicolons; a field without an equals sign or with an
    empty value is dropped. *)
Definition parse_field (nv : string) : option (string * string) :=
  match Str.split_first "=" nv with
  | Some (n, v) =>
      if String.eqb v "" then None
      else Some (unquote (Str.replace "+" " " n),
                 unquote (Str.replace "+" " " v))
  | None => None
  end.

Definition parse_qsl (qs : string) : list (string * string) :=
  omap parse_field
    (concat (map (Str.split ";") (Str.split "&" qs))).

(** [parse_qs]: the values of a name, in order of appearance. *)
Definition parse_qs (qs : string) : gmap string (list string) :=
  foldl (λ d nv, <[nv.1 := default [] (d !! nv.1) ++ [nv.2]]> d)
        ∅ (parse_qsl qs).

End Urlparse.

(** ** Picture *)

Definition handle := list string.

(** [width] and [height] are attributes that [__init__] sets only in the
    proxied form: [None] is the attribute left unset. *)
Record Picture := mkPicture {
  pic_graph : handle;
  pic_raw : string;
  pic_url : string;
  pic_origin : string;
  pic_width : option string;
  pic_height : option string;
  pic_basename : string;
}.

(** [d[k][0]] *)
Definition qs_first (qs : gmap string (list string)) (k : string)
  : outcome string :=
  match qs !! k with
  | None => Raise (KeyError k)
  | Some [] => Raise IndexError
  | Some (v :: _) => Ret v
  end.

Definition Picture_init (post_graph : handle) (raw : string)
  : outcome Picture :=
  query ← Urlparse.urlparse_query raw;
  let qs := Urlparse.parse_qs query in
  '(origin, width, height) ←
    (if bool_decide (is_Some (qs !! "url")) then
       o ← qs_first qs "url";
       w ← qs_first qs "w";
       h ← qs_first qs "h";
       Ret (o, Some w, Some h)
     else Ret (raw, None, None));
  Ret {| pic_graph := post_graph; pic_raw := raw; pic_url := raw;
         pic_origin := origin; pic_width := width; pic_height := height;
         pic_basename := Str.last_of (Str.split "/" origin) |}.

(** [Picture.__repr__] *)
Definition Picture_repr (p : Picture) : outcome string :=
  match pic_width p with
  | None => Raise (AttributeError "width")
  | Some w =>
      match pic_height p with
      | None => Raise (AttributeError "height")
      | Some h =>
          Ret ("<Picture: " +:+ pic_basename p +:+ " (" +:+ w +:+ "x" +:+ h
               +:+ ")>")
      end
  end.

(** ** Payloads of the transport *)

(** One item of the [posts] feed: [id], [type], [created_time] and
    [updated_time] are always there, the rest is optional. *)
Record raw_post := mkRawPost {
  r_id : string;
  r_type : string;
  r_created_time : string;
  r_updated_time : string;
  r_name : option string;
  r_story : option string;
  r_link : option string;
  r_description : option string;
  r_shares : option json;
  r_picture : option string;
}.

(** A page of the feed: [page['data']]. *)
Record posts_page := mkPage { page_data : list raw_post }.

(** [graph.get] answers with one page, or with a lazy sequence of pages
    ([None] once the sequence is exhausted). *)
Inductive posts_response :=
  | OnePage (p : posts_page)
  | LazyPages (g : nat → option posts_page).

(** One entry of [dataset['values']]. *)
Record value_row := mkValueRow {
  vr_value : json;
  vr_end_time : option string;
}.

Record dataset := mkDataset {
  ds_name : string;
  ds_values : list value_row;
}.

(** One result of an insights call: [result['data']]. *)
Record insights_result := mkResult { result_data : list dataset }.

Inductive insights_response :=
  | OneResult (r : insights_result)
  | LazyResults (g : nat → option insights_result).

(** The key of a time bucket: a parsed [end_time], or ['lifetime']. *)
Inductive bucket :=
  | BTime (t : instant)
  | BLifetime.

#[global] Instance bucket_eq_dec : EqDecision bucket.
Proof. solve_decision. Defined.

(** ** Requests, as the transport log records them *)

Inductive request :=
  | GraphGet (h : handle) (resource : string) (params : gmap string value)
  | GraphAll (h : handle) (resource : string) (subrequests : list string)
             (params : gmap string value)
  | NextPage (n : nat).

(** What a collaborator answers: a value, or a failure of its own. *)
Inductive reply (A : Type) :=
  | Reply (a : A)
  | Failure (msg : string).
Arguments Reply {A} a.
Arguments Failure {A} msg.

Definition of_reply {A} (r : reply A) : outcome A :=
  match r with
  | Reply a => Ret a
  | Failure msg => Raise (CollaboratorError msg)
  end.

(** ** Collaborators

    [utils.date], [utils.api], [utils.extract_quotes] and the transport are
    not in [graph.py].  The transport may answer differently from call to
    call: it sees the log of the earlier requests.  [dict_order] is the
    order in which Python 2 iterates over the pivot dictionary, which the
    language leaves open: some rearrangement of the entries. *)
Record Collab := mkCollab {
  COMMON_ERA : instant;
  date_parse : string → reply instant;
  date_parse_utc : date_arg → reply instant;
  date_timestamp : date_arg → reply Z;
  isoformat : instant → string;
  getdata : raw_post → string → json;
  extract_quotes : string → list string;
  graph_get_posts :
    list request → handle → gmap string value → reply posts_response;
  graph_get_insights :
    list request → handle → gmap string value → reply insights_response;
  graph_all_insights :
    list request → handle → list string → gmap string value →
    reply (list insights_result);
  dict_order :
    list (bucket * gmap string json) → list (bucket * gmap string json);
  dict_order_perm : ∀ l, dict_order l ≡ₚ l;
}.

(** ** Edges and posts *)

Inductive edge :=
  | PageEdge (id name : string) (graph : handle)
  | PostEdge (id : string) (graph : handle).

Definition edge_graph (e : edge) : handle :=
  match e with
  | PageEdge _ _ g => g
  | PostEdge _ g => g
  end.

Record Post := mkPost {
  post_account : edge;
  post_raw : raw_post;
  post_graph : handle;
  post_id : string;
  post_type : string;
  created_time : instant;
  updated_time : instant;
  post_name : option string;
  post_story : option string;
  post_link : option string;
  post_description : option string;
  post_shares : option json;
  post_comments : json;
  post_likes : json;
  post_quotes : list string;
  post_picture : option Picture;
}.

(** [graph.partial(scope)]: the handle scoped to a sub-resource. *)
Definition partial (h : handle) (scope : string) : handle := h ++ [scope].

Definition Post_init (C : Collab) (account : edge) (raw : raw_post)
  : outcome Post :=
  let graph := partial (edge_graph account) (r_id raw) in
  ctime ← of_reply (date_parse C (r_created_time raw));
  mtime ← of_reply (date_parse C (r_updated_time raw));
  pic ← match r_picture raw with
        | Some u => p ← Picture_init graph u; Ret (Some p)
        | None => Ret None
        end;
  Ret {| post_account := account; post_raw := raw; post_graph := graph;
         post_id := r_id raw; post_type := r_type raw;
         created_time := ctime; updated_time := mtime;
         post_name := r_name raw; post_story := r_story raw;
         post_link := r_link raw; post_description := r_description raw;
         post_shares := r_shares raw;
         post_comments := getdata C raw "comments";
         post_likes := getdata C raw "likes";
         post_quotes := extract_quotes C (default "" (r_description raw));
         post_picture := pic |}.

(** [utils.url], which is not in [graph.py]. *)
Record Links := mkLinks {
  url_resolve : string → reply string;
  url_base : string → reply string;
}.

(** [Post.resolve_link] *)
Definition Post_resolve_link (L : Links) (post : Post) (clean : bool)
  : outcome (option string) :=
  match post_link post with
  | None => Ret None
  | Some link =>
      if String.eqb link "" then Ret None
      else
        url ← of_reply (url_resolve L link);
        url ← (if clean then of_reply (url_base L url) else Ret url);
        Ret (Some url)
  end.

(** ** Rows *)

(** A field of a row: the bucket in [end_time], a metric value elsewhere. *)
Inductive cell :=
  | CBucket (b : bucket)
  | CJson (j : json).

(** An instance of the [namedtuple] [Row]: the field names of its type and
    its values, in the same order. *)
Record Row := mkRow {
  row_fields : list string;
  row_cells : list cell;
}.

(** What [get] hands back: posts, rows, or bare metric values. *)
Inductive item :=
  | IPost (p : Post)
  | IRow (r : Row)
  | IValue (c : cell).

(** ** The world: objects, dictionaries, clock, transport log *)

Definition loc := positive.

Inductive class :=
  | Selection
  | PostSelection
  | InsightsSelection.

#[global] Instance class_eq_dec : EqDecision class.
Proof. solve_decision. Defined.

(** A selection object: its attributes.  [meta] and [params] are
    references to dictionaries; [results] is the attribute [_results],
    [None] while the object has no such attribute. *)
Record object := mkObject {
  cls : class;
  sel_edge : edge;
  meta : loc;
  params : loc;
  results : option (list item);
}.

Record world := mkWorld {
  w_objs : gmap loc object;
  w_dicts : gmap loc (gmap string value);
  w_now : instant;
  w_calls : list request;
}.

Definition M (A : Type) : Type := world → outcome A * world.

Definition m_ret {A} (a : A) : M A := λ w, (Ret a, w).

Definition m_bind {A B} (f : A → M B) (m : M A) : M B :=
  λ w, match m w with
       | (Ret a, w') => f a w'
       | (Raise e, w') => (Raise e, w')
       | (Diverge, w') => (Diverge, w')
       end.

#[global] Instance M_ret : MRet M := @m_ret.
#[global] Instance M_bind : MBind M := @m_bind.

Definition lift {A} (x : outcome A) : M A := λ w, (x, w).
Definition raise {A} (e : exn) : M A := lift (Raise e).

(** [datetime.now()], [datetime.today()] *)
Definition clock : M instant := λ w, (Ret (w_now w), w).

Definition new_dict (d : gmap string value) : M loc :=
  λ w, let l := fresh (dom (w_dicts w)) in
       (Ret l, mkWorld (w_objs w) (<[l := d]> (w_dicts w))
                       (w_now w) (w_calls w)).

Definition read_dict (l : loc) : M (gmap string value) :=
  λ w, match w_dicts w !! l with
       | Some d => (Ret d, w)
       | None => (Raise InvalidReference, w)
       end.

Definition write_dict (l : loc) (d : gmap string value) : M unit :=
  λ w, (Ret tt, mkWorld (w_objs w) (<[l := d]> (w_dicts w))
                        (w_now w) (w_calls w)).

(** [d[k]] *)
Definition dict_getitem (l : loc) (k : string) : M value :=
  d ← read_dict l;
  match d !! k with
  | Some v => mret v
  | None => raise (KeyError k)
  end.

(** [d[k] = v] *)
Definition dict_setitem (l : loc) (k : string) (v : value) : M unit :=
  d ← read_dict l;
  write_dict l (<[k := v]> d).

(** [k in d] *)
Definition dict_contains (l : loc) (k : string) : M bool :=
  d ← read_dict l;
  mret (bool_decide (is_Some (d !! k))).

Definition new_object (o : object) : M loc :=
  λ w, let l := fresh (dom (w_objs w)) in
       (Ret l, mkWorld (<[l := o]> (w_objs w)) (w_dicts w)
                       (w_now w) (w_calls w)).

Definition read_object (l : loc) : M object :=
  λ w, match w_objs w !! l with
       | Some o => (Ret o, w)
       | None => (Raise InvalidReference, w)
       end.

Definition write_object (l : loc) (o : object) : M unit :=
  λ w, (Ret tt, mkWorld (<[l := o]> (w_objs w)) (w_dicts w)
                        (w_now w) (w_calls w)).

(** A call through the transport: the request is logged, the answer may
    depend on the requests made before. *)
Definition transport {A} (req : request) (answer : list request → reply A)
  : M A :=
  λ w, (of_reply (answer (w_calls w)),
        mkWorld (w_objs w) (w_dicts w) (w_now w) (w_calls w ++ [req])).

(** Attribute access on a selection object. *)
Definition attr_meta (self : loc) : M loc :=
  o ← read_object self; mret (meta o).

Definition attr_params (self : loc) : M loc :=
  o ← read_object self; mret (params o).

Definition set_attr_meta (self : loc) (l : loc) : M unit :=
  o ← read_object self;
  write_object self {| cls := cls o; sel_edge := sel_edge o; meta := l;
                       params := params o; results := results o |}.

Definition set_attr_params (self : loc) (l : loc) : M unit :=
  o ← read_object self;
  write_object self {| cls := cls o; sel_edge := sel_edge o; meta := meta o;
                       params := l; results := results o |}.

Definition set_attr_results (self : loc) (r : list item) : M unit :=
  o ← read_object self;
  write_object self {| cls := cls o; sel_edge := sel_edge o; meta := meta o;
                       params := params o; results := Some r |}.

(** [self.meta[k]], [self.meta[k] = v], [k in self.meta] *)
Definition meta_getitem (self : loc) (k : string) : M value :=
  l ← attr_meta self; dict_getitem l k.
Definition meta_setitem (self : loc) (k : string) (v : value) : M unit :=
  l ← attr_meta self; dict_setitem l k v.
Definition meta_contains (self : loc) (k : string) : M bool :=
  l ← attr_meta self; dict_contains l k.

(** [self.params[k]], [self.params[k] = v], [k in self.params] *)
Definition params_getitem (self : loc) (k : string) : M value :=
  l ← attr_params self; dict_getitem l k.
Definition params_setitem (self : loc) (k : string) (v : value) : M unit :=
  l ← attr_params self; dict_setitem l k v.
Definition params_contains (self : loc) (k : string) : M bool :=
  l ← attr_params self; dict_contains l k.

(** [copy.copy(d)] of a dictionary *)
Definition copy_dict (l : loc) : M loc :=
  d ← read_dict l; new_dict d.

(** The dictionaries behind [self.meta] and [self.params] in a world. *)
Definition meta_of (w : world) (self : loc) : option (gmap string value) :=
  o ← w_objs w !! self; w_dicts w !! meta o.

Definition params_of (w : world) (self : loc) : option (gmap string value) :=
  o ← w_objs w !! self; w_dicts w !! params o.

(** ** Selection *)

Section Selections.

Context (C : Collab).

(** [Selection.__init__] *)
Definition Selection_init (c : class) (e : edge) : M loc :=
  now ← clock;
  m ← new_dict {[ "since" := VTime (COMMON_ERA C); "until" := VTime now ]};
  p ← new_dict {[ "page" := VBool false ]};
  new_object {| cls := c; sel_edge := e; meta := m; params := p;
                results := None |}.

(** [Selection.clone]: a new instance of the class of [self], whose
    [meta] and [params] are then replaced by copies of those of
    [self]. *)
Definition Selection_clone (self : loc) : M loc :=
  o ← read_object self;
  selection ← Selection_init (cls o) (sel_edge o);
  m ← attr_meta self;
  m' ← copy_dict m;
  _ ← set_attr_meta selection m';
  p ← attr_params self;
  p' ← copy_dict p;
  _ ← set_attr_params selection p';
  mret selection.

(** Modelled from the spec: the decorator [utils.functional.immutable],
    which is not in [graph.py].  Section 4.1: builder calls never
    mutate [self]; they operate on a clone and return it. *)
Definition immutable (body : loc → M loc) (self : loc) : M loc :=
  c ← Selection_clone self;
  body c.

Definition range_body (since : date_arg) (until : option date_arg)
    (self : loc) : M loc :=
  now ← clock;
  let until :=
    if date_truthy until then default (DStr "") until
    else DStr (isoformat C now) in
  t ← lift (of_reply (date_parse_utc C since));
  _ ← meta_setitem self "since" (VTime t);
  t ← lift (of_reply (date_parse_utc C until));
  _ ← meta_setitem self "until" (VTime t);
  _ ← params_setitem self "page" (VBool true);
  n ← lift (of_reply (date_timestamp C since));
  _ ← params_setitem self "since" (VNum n);
  n ← lift (of_reply (date_timestamp C until));
  _ ← params_setitem self "until" (VNum n);
  mret self.

(** [Selection.range] *)
Definition Selection_range (self : loc) (since : date_arg)
    (until : option date_arg) : M loc :=
  immutable (range_body since until) self.

(** [Selection.since] *)
Definition Selection_since (self : loc) (date : date_arg) : M loc :=
  immutable (λ self, Selection_range self date None) self.

(** Method lookup: [name] is defined by class [c] or by [Selection]. *)
Definition has_method (c : class) (name : string) : bool :=
  bool_decide (name ∈ ["clone"; "range"; "since"])
  || match c with
     | Selection => false
     | PostSelection => bool_decide (name ∈ ["latest"; "find"; "get"])
     | InsightsSelection =>
         bool_decide (name ∈ ["daily"; "weekly"; "monthly"; "lifetime";
                              "_metrics"; "get"; "serialize"])
     end.

Definition method {A} (name : string) (body : loc → M A) (self : loc)
  : M A :=
  o ← read_object self;
  if has_method (cls o) name then body self
  else raise (AttributeError name).

Definition latest_body (n : Z) (self : loc) : M loc :=
  _ ← params_setitem self "limit" (VNum n);
  mret self.

(** [PostSelection.latest] *)
Definition PostSelection_latest (self : loc) (n : Z) : M loc :=
  method "latest" (immutable (latest_body n)) self.

(** [InsightsSelection._metrics]: an argument that is [None], an empty
    string or an empty list is falsy. *)
Definition InsightsSelection_metrics (self : loc) (ids : metrics_arg)
  : M loc :=
  match ids with
  | NoMetrics => mret self
  | Bare "" => mret self
  | Listed [] => mret self
  | Listed l =>
      _ ← meta_setitem self "single" (VBool false);
      _ ← meta_setitem self "metrics" (VStrs l);
      mret self
  | Bare s =>
      _ ← meta_setitem self "single" (VBool true);
      _ ← meta_setitem self "metrics" (VStrs [s]);
      mret self
  end.

Definition period_body (period : string) (metrics : metrics_arg)
    (self : loc) : M loc :=
  _ ← params_setitem self "period" (VStr period);
  InsightsSelection_metrics self metrics.

(** [InsightsSelection.daily], [weekly], [monthly], [lifetime] *)
Definition InsightsSelection_daily (self : loc) (metrics : metrics_arg)
  : M loc :=
  method "daily" (immutable (period_body "day" metrics)) self.
Definition InsightsSelection_weekly (self : loc) (metrics : metrics_arg)
  : M loc :=
  method "weekly" (immutable (period_body "week" metrics)) self.
Definition InsightsSelection_monthly (self : loc) (metrics : metrics_arg)
  : M loc :=
  method "monthly" (immutable (period_body "days_28" metrics)) self.
Definition InsightsSelection_lifetime (self : loc) (metrics : metrics_arg)
  : M loc :=
  method "lifetime" (immutable (period_body "lifetime" metrics)) self.

(** *** PostSelection.get *)

(** The inner loop either runs to the end of the page or returns from
    [get] with the posts accepted so far. *)
Inductive scan :=
  | Continue (posts : list Post)
  | Stop (posts : list Post).

Fixpoint scan_page (self : loc) (items : list raw_post)
    (posts : list Post) : M scan :=
  match items with
  | [] => mret (Continue posts)
  | raw :: rest =>
      o ← read_object self;
      post ← lift (Post_init C (sel_edge o) raw);
      since ← meta_getitem self "since";
      lo ← lift (as_time since);
      if (lo <=? created_time post)%Z
      then scan_page self rest (posts ++ [post])
      else mret (Stop posts)
  end.

(** The outer loop over a list of pages. *)
Fixpoint scan_list (self : loc) (pages : list posts_page)
    (posts : list Post) : M (list Post) :=
  match pages with
  | [] => mret posts
  | page :: rest =>
      r ← scan_page self (page_data page) posts;
      match r with
      | Continue posts => scan_list self rest posts
      | Stop posts => mret posts
      end
  end.

(** The outer loop over a lazy sequence of pages: page [n] is requested
    when the loop gets to it.  The sequence may never end, hence the
    fuel, one unit per page requested. *)
Fixpoint scan_lazy (fuel : nat) (self : loc) (g : nat → option posts_page)
    (n : nat) (posts : list Post) : M (list Post) :=
  match fuel with
  | O => lift Diverge
  | S fuel =>
      next ← transport (NextPage n) (λ _, Reply (g n));
      match next with
      | None => mret posts
      | Some page =>
          r ← scan_page self (page_data page) posts;
          match r with
          | Continue posts => scan_lazy fuel self g (S n) posts
          | Stop posts => mret posts
          end
      end
  end.

Definition PostSelection_get (fuel : nat) (self : loc) : M (list item) :=
  o ← read_object self;
  p ← (l ← attr_params self; read_dict l);
  pages ← transport (GraphGet (edge_graph (sel_edge o)) "posts" p)
            (λ log, graph_get_posts C log (edge_graph (sel_edge o)) p);
  page ← params_getitem self "page";
  posts ← match truthy page, pages with
          | false, OnePage pg => scan_list self [pg] []
          | true, LazyPages g => scan_lazy fuel self g 0 []
          | _, _ => raise TypeError
          end;
  mret (IPost <$> posts).

(** *** InsightsSelection.get *)

(** [_has_daterange] *)
Definition has_daterange (self : loc) : M bool :=
  a ← params_contains self "since";
  if a : bool then mret true else params_contains self "until".

(** [math.ceil(seconds / 60 / 60 / 24)] of a span given in
    microseconds.  The source divides in floating point; the quotient
    is taken exactly here. *)
Definition ceil_days (span : Z) : Z := (- ((- span) / 86400000000))%Z.

Definition bucket_of (row : value_row) : outcome bucket :=
  match vr_end_time row with
  | Some s =>
      if String.eqb s "" then Ret BLifetime
      else t ← of_reply (date_parse C s); Ret (BTime t)
  | None => Ret BLifetime
  end.

(** [data.setdefault(end_time, {})[metric] = value], on the entries in
    the order they were first inserted. *)
Fixpoint bucket_set (data : list (bucket * gmap string json))
    (b : bucket) (metric : string) (v : json)
  : list (bucket * gmap string json) :=
  match data with
  | [] => [(b, {[ metric := v ]})]
  | (b', d) :: rest =>
      if decide (b' = b) then (b', <[metric := v]> d) :: rest
      else (b', d) :: bucket_set rest b metric v
  end.

Fixpoint pivot_rows (metric : string) (rows : list value_row)
    (data : list (bucket * gmap string json))
  : outcome (list (bucket * gmap string json)) :=
  match rows with
  | [] => Ret data
  | row :: rest =>
      b ← bucket_of row;
      pivot_rows metric rest (bucket_set data b metric (vr_value row))
  end.

Fixpoint pivot (datasets : list dataset) (fields : list string)
    (data : list (bucket * gmap string json))
  : outcome (list string * list (bucket * gmap string json)) :=
  match datasets with
  | [] => Ret (fields, data)
  | ds :: rest =>
      data ← pivot_rows (ds_name ds) (ds_values ds) data;
      pivot rest (fields ++ [ds_name ds]) data
  end.

(** [collections.namedtuple('Row', fields)] (CPython 2.7): every name
    is made of letters, digits and underscores, is no keyword and does
    not start with a digit; no field starts with an underscore or
    comes twice.  The class is then made by executing its source text,
    in which every field is a parameter of [__new__] and a name that is
    assigned to: the compiler refuses a field called [None], which is no
    keyword of Python 2 and so passes the checks before. *)
Definition python_keywords : list string :=
  ["and"; "as"; "assert"; "break"; "class"; "continue"; "def"; "del";
   "elif"; "else"; "except"; "exec"; "finally"; "for"; "from"; "global";
   "if"; "import"; "in"; "is"; "lambda"; "not"; "or"; "pass"; "print";
   "raise"; "return"; "try"; "while"; "with"; "yield"].

Definition check_name (name : string) : outcome unit :=
  if negb (Str.forallb
             (λ a, Str.is_alpha a || Str.is_digit a || Ascii.eqb a "_")
             name)
  then Raise ValueError
  else if bool_decide (name ∈ python_keywords) then Raise ValueError
  else match name with
       | EmptyString => Raise IndexError
       | String a _ => if Str.is_digit a then Raise ValueError else Ret tt
       end.

Fixpoint check_fields (fields seen : list string) : outcome unit :=
  match fields with
  | [] => Ret tt
  | name :: rest =>
      match name with
      | String "_" _ => Raise ValueError
      | _ => if bool_decide (name ∈ seen) then Raise ValueError
             else check_fields rest (name :: seen)
      end
  end.

Definition namedtuple (fields : list string) : outcome (list string) :=
  _ ← omapM check_name ("Row" :: fields);
  _ ← check_fields fields [];
  if bool_decide ("None" ∈ fields) then Raise SyntaxError
  else Ret fields.

(** [Row(end_time=time, **values)]: the call fails when [values] has a
    key [end_time], a key that is no field, or lacks a field. *)
Definition make_row (fields : list string) (time : bucket)
    (values : gmap string json) : outcome Row :=
  if bool_decide (is_Some (values !! "end_time")) then Raise TypeError
  else if negb (forallb (λ k, bool_decide (k ∈ fields))
                        (elements (dom values)))
  then Raise TypeError
  else
    cells ← omapM (λ f, if String.eqb f "end_time" then Ret (CBucket time)
                        else match values !! f with
                             | Some v => Ret (CJson v)
                             | None => Raise TypeError
                             end) fields;
    Ret {| row_fields := fields; row_cells := cells |}.

(** [getattr(row, name)] for the name of a field. *)
Fixpoint lookup_field (fields : list string) (cells : list cell)
    (name : string) : outcome cell :=
  match fields, cells with
  | f :: fields, c :: cells =>
      if String.eqb f name then Ret c else lookup_field fields cells name
  | _, _ => Raise (AttributeError name)
  end.

Definition row_getattr (row : Row) (name : string) : outcome cell :=
  lookup_field (row_fields row) (row_cells row) name.

(** [l[k]] for an integer [k]. *)
Definition list_getitem {A} (l : list A) (k : Z) : outcome A :=
  let n := Z.of_nat (length l) in
  let i := if (k <? 0)%Z then (k + n)%Z else k in
  if (i <? 0)%Z then Raise IndexError
  else match l !! Z.to_nat i with
       | Some a => Ret a
       | None => Raise IndexError
       end.

(** [get], lines 129-133: the span of the query in days. *)
Definition insights_days (self : loc) : M Z :=
  dr ← has_daterange self;
  if dr : bool then
    u ← meta_getitem self "until";
    s ← meta_getitem self "since";
    u ← lift (as_time u);
    s ← lift (as_time s);
    mret (ceil_days (u - s))
  else mret 3%Z.

(** [get], lines 147-155: one batched call with a sub-request per
    metric, or one plain call for all metrics.  [_metrics] only ever
    stores a list under [metrics]. *)
Definition insights_results (self : loc) : M (list insights_response) :=
  m ← meta_contains self "metrics";
  if m : bool then
    ms ← meta_getitem self "metrics";
    metrics ← match ms with
              | VStrs l => mret l
              | _ => raise TypeError
              end;
    o ← read_object self;
    p ← (l ← attr_params self; read_dict l);
    rs ← transport
           (GraphAll (edge_graph (sel_edge o)) "insights" metrics p)
           (λ log, graph_all_insights C log
                     (edge_graph (sel_edge o)) metrics p);
    mret (OneResult <$> rs)
  else
    o ← read_object self;
    p ← (l ← attr_params self; read_dict l);
    r ← transport (GraphGet (edge_graph (sel_edge o)) "insights" p)
          (λ log, graph_get_insights C log (edge_graph (sel_edge o)) p);
    mret [r].

(** [result['data']]: a lazy sequence cannot be subscripted. *)
Definition result_datasets (r : insights_response)
  : outcome (list dataset) :=
  match r with
  | OneResult r => Ret (result_data r)
  | LazyResults _ => Raise TypeError
  end.

(** [get], lines 157-191: flatten, pivot, build the rows, shape the
    answer. *)
Definition insights_rows (self : loc) (results : list insights_response)
  : M (list item) :=
  datasets ← lift (omapM result_datasets results);
  '(fields, data) ← lift (pivot (List.concat datasets) ["end_time"] []);
  fields ← lift (namedtuple fields);
  rows ← lift (omapM (λ tv, make_row fields tv.1 tv.2)
                     (dict_order C data));
  single ← meta_getitem self "single";
  if truthy single then
    ms ← meta_getitem self "metrics";
    metric ← match ms with
              | VStrs l => lift (list_getitem l 0)
              | _ => raise TypeError
              end;
    vs ← lift (omapM (λ row, row_getattr row metric) rows);
    mret (IValue <$> vs)
  else mret (IRow <$> rows).

Definition InsightsSelection_get (self : loc) : M (list item) :=
  days ← insights_days self;
  if (31 * 3 <? days)%Z then raise NotImplementedError
  else
    results ← insights_results self;
    insights_rows self results.

(** *** Materialisation *)

(** [self.get()]: the method of the class of [self]. *)
Definition Selection_get (fuel : nat) (self : loc) : M (list item) :=
  o ← read_object self;
  match cls o with
  | Selection => raise (AttributeError "get")
  | PostSelection => PostSelection_get fuel self
  | InsightsSelection => InsightsSelection_get self
  end.

(** [Selection.__getitem__] *)
Definition Selection_getitem (fuel : nat) (self : loc) (key : Z)
  : M item :=
  l ← Selection_get fuel self;
  lift (list_getitem l key).

(** [Selection.__iter__]: the items the iterator runs over. *)
Definition Selection_iter (fuel : nat) (self : loc) : M (list item) :=
  o ← read_object self;
  _ ← match results o with
      | Some _ => mret tt
      | None => l ← Selection_get fuel self; set_attr_results self l
      end;
  o ← read_object self;
  match results o with
  | Some l => mret l
  | None => raise (AttributeError "_results")
  end.

(** [row._asdict()] *)
Definition asdict (i : item) : outcome (list (string * cell)) :=
  match i with
  | IRow r => Ret (zip (row_fields r) (row_cells r))
  | _ => Raise (AttributeError "_asdict")
  end.

(** [InsightsSelection.serialize] *)
Definition InsightsSelection_serialize (fuel : nat) (self : loc)
  : M (list (list (string * cell))) :=
  method "serialize"
    (λ self, l ← Selection_get fuel self; lift (omapM asdict l)) self.

(** [Page.posts], [Page.insights], [Post.insights] *)
Definition Page_posts (page : edge) : M loc :=
  Selection_init PostSelection page.
Definition Page_insights (page : edge) : M loc :=
  Selection_init InsightsSelection page.
Definition Post_insights (post : Post) : M loc :=
  Selection_init InsightsSelection
    (PostEdge (post_id post) (post_graph post)).

End Selections.

(** * Vocabulary of the specification

    Worlds are compared by what they keep ([frame], [appends]); builder
    calls and fetches are described by what they do to, and read from,
    the two dictionaries of a selection. *)

Section Vocabulary.

Context (C : Collab).

(** Everything that exists in [w] is still there, unchanged, in [w']. *)
Definition frame (w w' : world) : Prop :=
  (∀ l o, w_objs w !! l = Some o → w_objs w' !! l = Some o) ∧
  (∀ l d, w_dicts w !! l = Some d → w_dicts w' !! l = Some d) ∧
  w_now w' = w_now w ∧ w_calls w' = w_calls w.

(** Single updates of a world. *)
Definition put_dict (l : loc) (d : gmap string value) (w : world) : world :=
  mkWorld (w_objs w) (<[l := d]> (w_dicts w)) (w_now w) (w_calls w).

Definition put_object (l : loc) (o : object) (w : world) : world :=
  mkWorld (<[l := o]> (w_objs w)) (w_dicts w) (w_now w) (w_calls w).

Definition log_call (r : request) (w : world) : world :=
  mkWorld (w_objs w) (w_dicts w) (w_now w) (w_calls w ++ [r]).

Definition log_calls (rs : list request) (w : world) : world :=
  mkWorld (w_objs w) (w_dicts w) (w_now w) (w_calls w ++ rs).

(** The world with the two dictionaries of [oc] replaced. *)
Definition put_both (w : world) (oc : object) (m' p' : gmap string value)
  : world :=
  put_dict (params oc) p' (put_dict (meta oc) m' w).

(** *** What a builder does to the two dictionaries of its clone *)

(** [a] when the body [r] ran to its end, else what [r] raised. *)
Definition returning {A} (r : outcome unit) (a : A) : outcome A :=
  match r with
  | Ret _ => Ret a
  | Raise e => Raise e
  | Diverge => Diverge
  end.

(** [until], or today's date as a string when [until] is falsy. *)
Definition until_arg (now : instant) (until : option date_arg) : date_arg :=
  if date_truthy until then default (DStr "") until
  else DStr (isoformat C now).

(** What [range] has done to [meta] and [params] when it returns or
    raises: the entries are set one by one, a collaborator may fail in
    between. *)
Definition range_effect (now : instant) (since : date_arg)
    (until : option date_arg) (m p : gmap string value)
  : outcome unit * gmap string value * gmap string value :=
  match date_parse_utc C since with
  | Failure msg => (Raise (CollaboratorError msg), m, p)
  | Reply t1 =>
      let m := <["since" := VTime t1]> m in
      match date_parse_utc C (until_arg now until) with
      | Failure msg => (Raise (CollaboratorError msg), m, p)
      | Reply t2 =>
          let m := <["until" := VTime t2]> m in
          let p := <["page" := VBool true]> p in
          match date_timestamp C since with
          | Failure msg => (Raise (CollaboratorError msg), m, p)
          | Reply n1 =>
              let p := <["since" := VNum n1]> p in
              match date_timestamp C (until_arg now until) with
              | Failure msg => (Raise (CollaboratorError msg), m, p)
              | Reply n2 => (Ret tt, m, <["until" := VNum n2]> p)
              end
          end
      end
  end.

(** What [_metrics] does to [meta]. *)
Definition metrics_effect (ids : metrics_arg) (m : gmap string value)
  : gmap string value :=
  match ids with
  | NoMetrics => m
  | Bare "" => m
  | Listed [] => m
  | Listed l => <["metrics" := VStrs l]> (<["single" := VBool false]> m)
  | Bare s => <["metrics" := VStrs [s]]> (<["single" := VBool true]> m)
  end.

(** The result of a builder call on [s], whose class and edge are those of
    [o]: nothing that existed has changed, and when the body ran to its
    end the result is a new object with dictionaries of its own. *)
Definition built (w : world) (o : object) (r : outcome loc) (w' : world)
    (e : outcome unit) (m' p' : gmap string value) : Prop :=
  frame w w' ∧
  match e with
  | Ret _ =>
      ∃ c oc, r = Ret c ∧ (c ∉ dom (w_objs w)) ∧ w_objs w' !! c = Some oc ∧
        (meta oc ∉ dom (w_dicts w)) ∧ (params oc ∉ dom (w_dicts w)) ∧
        meta oc ≠ params oc ∧
        w_dicts w' !! meta oc = Some m' ∧ w_dicts w' !! params oc = Some p' ∧
        cls oc = cls o ∧ sel_edge oc = sel_edge o ∧ results oc = None
  | Raise x => r = Raise x
  | Diverge => r = Diverge
  end.

(** *** Builder calls *)

Inductive builder :=
  | Range (since : date_arg) (until : option date_arg)
  | Since (date : date_arg)
  | Latest (n : Z)
  | Daily (metrics : metrics_arg)
  | Weekly (metrics : metrics_arg)
  | Monthly (metrics : metrics_arg)
  | Lifetime (metrics : metrics_arg).

(** The method call that a [builder] stands for. *)
Definition call (b : builder) (self : loc) : M loc :=
  match b with
  | Range since until => Selection_range C self since until
  | Since date => Selection_since C self date
  | Latest n => PostSelection_latest C self n
  | Daily ms => InsightsSelection_daily C self ms
  | Weekly ms => InsightsSelection_weekly C self ms
  | Monthly ms => InsightsSelection_monthly C self ms
  | Lifetime ms => InsightsSelection_lifetime C self ms
  end.

(** The name under which the method is looked up. *)
Definition builder_name (b : builder) : string :=
  match b with
  | Range _ _ => "range"
  | Since _ => "since"
  | Latest _ => "latest"
  | Daily _ => "daily"
  | Weekly _ => "weekly"
  | Monthly _ => "monthly"
  | Lifetime _ => "lifetime"
  end.

(** What the call has done to the dictionaries of the clone. *)
Definition builder_effect (now : instant) (b : builder)
    (m p : gmap string value)
  : outcome unit * gmap string value * gmap string value :=
  match b with
  | Range since until => range_effect now since until m p
  | Since date => range_effect now date None m p
  | Latest n => (Ret tt, m, <["limit" := VNum n]> p)
  | Daily ms => (Ret tt, metrics_effect ms m, <["period" := VStr "day"]> p)
  | Weekly ms => (Ret tt, metrics_effect ms m, <["period" := VStr "week"]> p)
  | Monthly ms =>
      (Ret tt, metrics_effect ms m, <["period" := VStr "days_28"]> p)
  | Lifetime ms =>
      (Ret tt, metrics_effect ms m, <["period" := VStr "lifetime"]> p)
  end.

(** The calls that set a date range. *)
Definition is_range (b : builder) : bool :=
  match b with
  | Range _ _ | Since _ => true
  | _ => false
  end.

(** *** Chains of builder calls *)

Fixpoint chain (bs : list builder) (s : loc) : M loc :=
  match bs with
  | [] => mret s
  | b :: bs => s' ← call b s; chain bs s'
  end.

(** The invariant of [params]: [page] is [flag], and [since] and [until]
    are there exactly when [flag] is true. *)
Definition page_inv (p : gmap string value) (flag : bool) : Prop :=
  p !! "page" = Some (VBool flag) ∧
  (is_Some (p !! "since") ↔ flag = true) ∧
  (is_Some (p !! "until") ↔ flag = true).

(** The inner loop of [PostSelection.get] as a function of the edge and of
    what [self.meta] holds under [since]. *)
Fixpoint scan_items (e : edge) (since : option value)
    (items : list raw_post) (posts : list Post) : outcome scan :=
  match items with
  | [] => Ret (Continue posts)
  | raw :: rest =>
      post ← Post_init C e raw;
      v ← match since with
          | Some v => Ret v
          | None => Raise (KeyError "since")
          end;
      lo ← as_time v;
      if (lo <=? created_time post)%Z
      then scan_items e since rest (posts ++ [post])
      else Ret (Stop posts)
  end.

(** The requests for pages [n], [n+1], ..., [n+k-1] of a lazy sequence. *)
Definition pulls (paged : bool) (n k : nat) : list request :=
  if paged then NextPage <$> seq n k else [].

(** Page [n] of what the transport answered. *)
Definition nth_page (resp : posts_response) (n : nat) : option posts_page :=
  match resp with
  | OnePage pg => [pg] !! n
  | LazyPages g => g n
  end.

(** The answer has the shape that the [page] flag announces. *)
Definition shaped (paged : bool) (resp : posts_response) : bool :=
  match paged, resp with
  | false, OnePage _ => true
  | true, LazyPages _ => true
  | _, _ => false
  end.

(** *** Insights as a function of the two dictionaries *)

(** [_has_daterange], on the dictionary behind [params]. *)
Definition has_range (p : gmap string value) : bool :=
  bool_decide (is_Some (p !! "since")) || bool_decide (is_Some (p !! "until")).

(** [d[k]] *)
Definition getitem (d : gmap string value) (k : string) : outcome value :=
  match d !! k with
  | Some v => Ret v
  | None => Raise (KeyError k)
  end.

(** The span in days that [get] computes. *)
Definition span_days (m p : gmap string value) : outcome Z :=
  if has_range p then
    u ← getitem m "until";
    s ← getitem m "since";
    u ← as_time u;
    s ← as_time s;
    Ret (ceil_days (u - s))
  else Ret 3%Z.

(** The rows of the pivoted datasets, in the order the dictionary yields
    its buckets. *)
Definition table_of (results : list insights_response) : outcome (list Row) :=
  datasets ← omapM result_datasets results;
  fd ← pivot C (concat datasets) ["end_time"] [];
  fields ← namedtuple fd.1;
  omapM (λ tv, make_row fields tv.1 tv.2) (dict_order C fd.2).

(** Rows, or the values of the one metric that was asked for by name. *)
Definition shape (m : gmap string value) (rows : list Row)
  : outcome (list item) :=
  single ← getitem m "single";
  if truthy single then
    ms ← getitem m "metrics";
    metric ← match ms with
              | VStrs l => list_getitem l 0
              | _ => Raise TypeError
              end;
    vs ← omapM (λ row, row_getattr row metric) rows;
    Ret (IValue <$> (vs : list cell))
  else Ret (IRow <$> (rows : list Row)).

(** What [get] answers once the results are there. *)
Definition rows_of (m : gmap string value)
    (results : list insights_response) : outcome (list item) :=
  rows ← table_of results; shape m rows.

(** The request of [get]: batched when [meta] has [metrics], plain
    otherwise. *)
Definition fetch (h : handle) (m p : gmap string value) (w : world)
  : outcome (list insights_response) * world :=
  match m !! "metrics" with
  | Some (VStrs l) =>
      (match graph_all_insights C (w_calls w) h l p with
       | Reply rs => Ret (OneResult <$> rs)
       | Failure msg => Raise (CollaboratorError msg)
       end,
       log_call (GraphAll h "insights" l p) w)
  | Some _ => (Raise TypeError, w)
  | None =>
      (match graph_get_insights C (w_calls w) h p with
       | Reply r => Ret [r]
       | Failure msg => Raise (CollaboratorError msg)
       end,
       log_call (GraphGet h "insights" p) w)
  end.


(** A fetch only appends to the log. *)
Definition appends (w w' : world) : Prop :=
  w_objs w' = w_objs w ∧ w_dicts w' = w_dicts w ∧ w_now w' = w_now w ∧
  ∃ rest, w_calls w' = w_calls w ++ rest.

(** Two runs agree on what a caller can see: the outcome and the log. *)
Definition same_run {A} (x y : outcome A * world) : Prop :=
  x.1 = y.1 ∧ w_calls x.2 = w_calls y.2.

End Vocabulary.

(** * More vocabulary

    Chains of calls as functions of the two dictionaries, what the
    calls store, and the rows of an answer. *)

Section Effects.

Context (C : Collab).

(** What a chain of calls has done to the dictionaries of the selection it
    returns, each call starting from what the call before it left. *)
Fixpoint chain_effect (now : instant) (bs : list builder)
    (m p : gmap string value)
  : outcome unit * gmap string value * gmap string value :=
  match bs with
  | [] => (Ret tt, m, p)
  | b :: bs =>
      match builder_effect C now b m p with
      | (Ret _, m', p') => chain_effect now bs m' p'
      | r => r
      end
  end.

End Effects.

(** What a call stores under [params['limit']], [params['period']],
    [meta['metrics']] and [meta['single']], if anything. *)
Definition set_limit (b : builder) : option value :=
  match b with
  | Latest n => Some (VNum n)
  | _ => None
  end.

Definition set_period (b : builder) : option value :=
  match b with
  | Daily _ => Some (VStr "day")
  | Weekly _ => Some (VStr "week")
  | Monthly _ => Some (VStr "days_28")
  | Lifetime _ => Some (VStr "lifetime")
  | _ => None
  end.

(** The metrics argument of a period call. *)
Definition builder_metrics (b : builder) : metrics_arg :=
  match b with
  | Daily ms | Weekly ms | Monthly ms | Lifetime ms => ms
  | _ => NoMetrics
  end.

(** [_metrics] stores a list, also for one bare name, and nothing for an
    argument that is falsy. *)
Definition set_metrics (b : builder) : option value :=
  match builder_metrics b with
  | NoMetrics => None
  | Bare "" => None
  | Listed [] => None
  | Listed l => Some (VStrs l)
  | Bare s => Some (VStrs [s])
  end.

Definition set_single (b : builder) : option value :=
  match builder_metrics b with
  | NoMetrics => None
  | Bare "" => None
  | Listed [] => None
  | Listed _ => Some (VBool false)
  | Bare _ => Some (VBool true)
  end.

Section Reports.

Context (C : Collab).

(** A value [j] that the row of bucket [b] shows for the metric [name]
    is a value that some dataset of that name holds for that bucket. *)
Definition reported (dss : list dataset) (name : string) (b : bucket)
    (j : json) : Prop :=
  ∃ ds vr, ds ∈ dss ∧ ds_name ds = name ∧ vr ∈ ds_values ds ∧
           vr_value vr = j ∧ bucket_of C vr = Ret b.

(** The row of bucket [b] with the values [js] of the metrics [names]. *)
Definition row_of (names : list string) (b : bucket) (js : list json) : Row :=
  mkRow ("end_time" :: names) (CBucket b :: (CJson <$> js)).

End Reports.

(** Every value held in the pivot comes from [src]. *)
Definition held (src : string → bucket → json → Prop)
    (data : list (bucket * gmap string json)) : Prop :=
  ∀ b d k j, (b, d) ∈ data → d !! k = Some j → src k b j.

(** The entries [l] stored one by one, a later one replacing an earlier
    one of the same key. *)
Definition put_all (d : gmap string json) (l : list (string * json))
  : gmap string json :=
  foldl (λ d nj, <[nj.1 := nj.2]> d) d l.

(** * A concrete setting

    A collaborator record and a few programs on which the theorems below
    are tried. *)

(** Dates are decimal day numbers here. *)
Fixpoint parse_digits (s : string) (acc : Z) : option Z :=
  match s with
  | EmptyString => Some acc
  | String a s' =>
      if Str.is_digit a
      then parse_digits s' (10 * acc + Z.of_nat (nat_of_ascii a - 48))%Z
      else None
  end.

(** Midnight of day [n]. *)
Definition day (n : Z) : instant := (n * 86400000000)%Z.

Definition demo_parse (s : string) : reply instant :=
  match s with
  | EmptyString => Failure "empty date"
  | _ => match parse_digits s 0 with
         | Some d => Reply (day d)
         | None => Failure "not a date"
         end
  end.

Definition demo_parse_arg (d : date_arg) : reply instant :=
  match d with
  | DStr s => demo_parse s
  | DTime t => Reply t
  end.

Definition demo_timestamp (d : date_arg) : reply Z :=
  match demo_parse_arg d with
  | Reply t => Reply (t / 1000000)%Z
  | Failure msg => Failure msg
  end.

Definition demo_order (reversed : bool)
    (l : list (bucket * gmap string json)) : list (bucket * gmap string json) :=
  if reversed then rev l else l.

Definition demo_order_perm (reversed : bool) l : demo_order reversed l ≡ₚ l :=
  match reversed return demo_order reversed l ≡ₚ l with
  | true => Permutation_sym (Permutation_rev l)
  | false => Permutation_refl l
  end.

(** Today is day 100; the transport always gives the same answers. *)
Definition demo (reversed : bool) (posts : reply posts_response)
    (insights : reply insights_response)
    (batch : reply (list insights_result)) : Collab :=
  {| COMMON_ERA := 0%Z;
     date_parse := demo_parse;
     date_parse_utc := demo_parse_arg;
     date_timestamp := demo_timestamp;
     isoformat := λ _, "100";
     getdata := λ _ _, JNull;
     extract_quotes := λ _, [];
     graph_get_posts := λ _ _ _, posts;
     graph_get_insights := λ _ _ _, insights;
     graph_all_insights := λ _ _ _ _, batch;
     dict_order := demo_order reversed;
     dict_order_perm := demo_order_perm reversed |}.

(** Nothing allocated, nothing requested yet. *)
Definition demo_world : world := mkWorld ∅ ∅ (day 100) [].
Definition demo_page : edge := PageEdge "1" "page" ["me"].

Definition demo_item (id created : string) : raw_post :=
  mkRawPost id "status" created created None None None None None None.

(** A feed that never ends: every page holds the same three posts, of
    days 30, 20 and 10. *)
Definition demo_feed : posts_response :=
  LazyPages (λ _, Some (mkPage [demo_item "a" "30"; demo_item "b" "20";
                                demo_item "c" "10"])).

Definition demo_posts : Collab :=
  demo false (Reply demo_feed) (Failure "no insights") (Failure "no batch").

Definition demo_one_page : Collab :=
  demo false
    (Reply (OnePage (mkPage [demo_item "a" "30"; demo_item "b" "20"])))
    (Failure "no insights") (Failure "no batch").

(** Metric [a] has a value on days 1 and 2, metric [b] on day 2 only. *)
Definition ds_a : dataset :=
  mkDataset "a" [mkValueRow (JNum 1) (Some "1"); mkValueRow (JNum 2) (Some "2")].
Definition ds_b : dataset := mkDataset "b" [mkValueRow (JNum 3) (Some "2")].

Definition demo_insights (reversed : bool) : Collab :=
  demo reversed (Failure "no posts")
    (Reply (OneResult (mkResult [ds_a])))
    (Reply [mkResult [ds_a]; mkResult [ds_b]]).

(** The same with a value of [b] on day 1 too. *)
Definition ds_b_full : dataset :=
  mkDataset "b" [mkValueRow (JNum 5) (Some "1"); mkValueRow (JNum 3) (Some "2")].

Definition demo_full : Collab :=
  demo false (Failure "no posts") (Failure "no insights")
    (Reply [mkResult [ds_a]; mkResult [ds_b_full]]).

Definition demo_single : Collab :=
  demo false (Failure "no posts") (Failure "no insights")
    (Reply [mkResult [ds_a]]).

Definition demo_empty : Collab :=
  demo false (Failure "no posts") (Failure "no insights")
    (Reply [mkResult [mkDataset "a" []]]).

(** The selection and the world a program ends with. *)
Definition sel_of (x : outcome loc * world) : loc :=
  match x.1 with Ret s => s | _ => 1%positive end.

Definition obj_of (x : outcome loc * world) : object :=
  default (mkObject Selection demo_page 1%positive 1%positive None)
          (w_objs x.2 !! sel_of x).

Definition meta_in (x : outcome loc * world) : gmap string value :=
  default ∅ (meta_of x.2 (sel_of x)).

Definition params_in (x : outcome loc * world) : gmap string value :=
  default ∅ (params_of x.2 (sel_of x)).


Definition insights_between (C : Collab) (a b : string) (ms : metrics_arg)
  : outcome loc * world :=
  (s ← Page_insights C demo_page;
   s ← Selection_range C s (DStr a) (Some (DStr b));
   InsightsSelection_daily C s ms) demo_world.

Definition insights_plain (C : Collab) : outcome loc * world :=
  Page_insights C demo_page demo_world.

Definition demo_post (C : Collab) (id created : string) : Post :=
  match Post_init C demo_page (demo_item id created) with
  | Ret p => p
  | _ => mkPost demo_page (demo_item id created) [] "" "" 0%Z 0%Z
           None None None None None JNull JNull [] None
  end.

Definition sparse : outcome loc * world :=
  insights_between (demo_insights false) "0" "3" (Listed ["a"; "b"]).

(** A selection built by a chain of calls, one of them [since]. *)
Definition chained : outcome loc * world :=
  (Selection_init demo_posts PostSelection demo_page
   ≫= chain demo_posts [Latest 3; Since (DStr "15")]) demo_world.

Definition fresh_posts : outcome loc * world :=
  Page_posts demo_posts demo_page demo_world.

(** A selection that has been iterated over, so that it holds a cached
    result. *)
Definition iterated : outcome loc * world :=
  (s ← Page_posts demo_one_page demo_page;
   _ ← Selection_iter demo_one_page 0 s;
   mret s) demo_world.

Definition single_metric (C : Collab) : outcome loc * world :=
  (s ← Page_insights C demo_page; InsightsSelection_daily C s (Bare "a"))
    demo_world.




(** Pictures: a plain address and a proxied one. *)
Definition plain_url : string := "https://cdn.example/photos/dog.png".

Definition plain_picture : Picture :=
  {| pic_graph := []; pic_raw := plain_url; pic_url := plain_url;
     pic_origin := plain_url; pic_width := None; pic_height := None;
     pic_basename := "dog.png" |}.

Definition proxied_url : string :=
  "https://cdn.example/safe_image.php?d=AQ&w=130&h=90&url=http%3A%2F%2Fsite.example%2Fimg%2Fcat.jpg&cfs=1".

Definition proxied_picture : Picture :=
  {| pic_graph := []; pic_raw := proxied_url; pic_url := proxied_url;
     pic_origin := "http://site.example/img/cat.jpg";
     pic_width := Some "130"; pic_height := Some "90";
     pic_basename := "cat.jpg" |}.

(** A feed whose second item has a proxied picture without dimensions. *)
Definition demo_bad_item : raw_post :=
  mkRawPost "b" "photo" "20" "20" None None None None None
    (Some "https://cdn.example/safe_image.php?url=http%3A%2F%2Fsite.example%2Fcat.jpg").

Definition demo_bad_picture : Collab :=
  demo false
    (Reply (OnePage (mkPage [demo_item "a" "30"; demo_bad_item;
                             demo_item "c" "10"])))
    (Failure "no insights") (Failure "no batch").

Definition fresh_bad : outcome loc * world :=
  Page_posts demo_bad_picture demo_page demo_world.

Definition fresh_one : outcome loc * world :=
  Page_posts demo_one_page demo_page demo_world.

(** The first iteration over a fresh selection. *)
Definition first_iter : outcome (list item) * world :=
  Selection_iter demo_one_page 0 (sel_of fresh_one) fresh_one.2.

(** A builder call on a selection that holds a cached result. *)
Definition narrowed : outcome loc * world :=
  call demo_one_page (Latest 5) (sel_of iterated) iterated.2.

Definition chained_insights : outcome loc * world :=
  (Selection_init (demo_insights false) InsightsSelection demo_page
   ≫= chain (demo_insights false)
        [Daily (Listed ["a"; "b"]); Weekly NoMetrics]) demo_world.

Definition ranged_latest : outcome loc * world :=
  chain demo_posts [Range (DStr "15") (Some (DStr "50")); Latest 3]
    (sel_of fresh_posts) fresh_posts.2.

Definition ranged_twice : outcome loc * world :=
  chain demo_posts [Since (DStr "20"); Range (DStr "15") (Some (DStr "50"))]
    (sel_of fresh_posts) fresh_posts.2.

Definition full : outcome loc * world :=
  insights_between demo_full "0" "3" (Listed ["a"; "b"]).

(** What [get] answers on it. *)
Definition full_get : outcome (list item) * world :=
  InsightsSelection_get demo_full (sel_of full) full.2.

Definition full_rows : list item :=
  [IRow (mkRow ["end_time"; "a"; "b"]
           [CBucket (BTime (day 1)); CJson (JNum 1); CJson (JNum 5)]);
   IRow (mkRow ["end_time"; "a"; "b"]
           [CBucket (BTime (day 2)); CJson (JNum 2); CJson (JNum 3)])].

(** The transport answers with the dataset of [a] twice. *)
Definition demo_twice : Collab :=
  demo false (Failure "no posts") (Failure "no insights")
    (Reply [mkResult [ds_a]; mkResult [ds_a]]).

Definition twice : outcome loc * world :=
  insights_between demo_twice "0" "3" (Listed ["a"; "a"]).

(** Lifetime values: the rows have no [end_time], or an empty one. *)
Definition demo_lifetime : Collab :=
  demo false (Failure "no posts") (Failure "no insights")
    (Reply [mkResult [mkDataset "a" [mkValueRow (JNum 7) None]];
            mkResult [mkDataset "b" [mkValueRow (JNum 1) (Some "");
                                     mkValueRow (JNum 9) None]]]).

Definition lifetime_ab : outcome loc * world :=
  (s ← Page_insights demo_lifetime demo_page;
   InsightsSelection_lifetime demo_lifetime s (Listed ["a"; "b"])) demo_world.

(** * Proofs *)

(** Tactics: projections of updated worlds, lookups in updated stores,
    binds of outcomes, results of runs, closed facts. *)
Ltac wsimpl :=
  cbn [put_dict put_object put_both log_call log_calls
       w_objs w_dicts w_now w_calls
       cls sel_edge meta params results] in *.

Ltac look :=
  wsimpl;
  repeat first [ rewrite lookup_insert_eq
               | rewrite lookup_insert_ne by (done || congruence) ];
  first [ reflexivity | eassumption ].

Ltac osimpl :=
  cbn [mbind mret outcome_bind outcome_ret obind as_time of_reply fst snd].

Ltac rsimpl :=
  cbn [mret M_ret m_ret lift raise fst snd log_call put_dict put_object
       w_calls w_objs w_dicts w_now].

Ltac facts := vm_compute; reflexivity.

(** ** Pictures *)

Example Picture_proxied :
  Picture_init [] "https://cdn.example/safe_image.php?d=AQ&w=130&h=90&url=http%3A%2F%2Fsite.example%2Fimg%2Fcat.jpg&cfs=1"
  = Ret {| pic_graph := [];
           pic_raw := "https://cdn.example/safe_image.php?d=AQ&w=130&h=90&url=http%3A%2F%2Fsite.example%2Fimg%2Fcat.jpg&cfs=1";
           pic_url := "https://cdn.example/safe_image.php?d=AQ&w=130&h=90&url=http%3A%2F%2Fsite.example%2Fimg%2Fcat.jpg&cfs=1";
           pic_origin := "http://site.example/img/cat.jpg";
           pic_width := Some "130"; pic_height := Some "90";
           pic_basename := "cat.jpg" |}.
Proof. vm_compute. reflexivity. Qed.

Example Picture_plain :
  Picture_init [] "https://cdn.example/photos/dog.png"
  = Ret {| pic_graph := []; pic_raw := "https://cdn.example/photos/dog.png";
           pic_url := "https://cdn.example/photos/dog.png";
           pic_origin := "https://cdn.example/photos/dog.png";
           pic_width := None; pic_height := None;
           pic_basename := "dog.png" |}.
Proof. vm_compute. reflexivity. Qed.

(** ** Running monadic code

    One equation per construct: a bind is run by rewriting with the
    equation of its first action. *)

Section Run.

Context {A B : Type} (f : A → M B) (w : world).

Lemma bind_run (m : M A) :
  (m ≫= f) w = match m w with
               | (Ret a, w') => f a w'
               | (Raise e, w') => (Raise e, w')
               | (Diverge, w') => (Diverge, w')
               end.
Proof. reflexivity. Qed.

Lemma bind_run_eq (m : M A) x w' :
  m w = (x, w') →
  (m ≫= f) w = match x with
               | Ret a => f a w'
               | Raise e => (Raise e, w')
               | Diverge => (Diverge, w')
               end.
Proof. intros H. rewrite bind_run, H. by destruct x. Qed.

Lemma bind_assoc {Z} (m : M Z) (g : Z → M A) :
  ((m ≫= g) ≫= f) w = (m ≫= λ z, g z ≫= f) w.
Proof. unfold mbind, M_bind, m_bind. destruct (m w) as [[a|e|] w1]; reflexivity. Qed.

Lemma mret_bind (a : A) : (mret a ≫= f) w = f a w.
Proof. reflexivity. Qed.

Lemma lift_bind (x : outcome A) :
  (lift x ≫= f) w = match x with
                    | Ret a => f a w
                    | Raise e => (Raise e, w)
                    | Diverge => (Diverge, w)
                    end.
Proof. by destruct x. Qed.

End Run.

(** The primitives and the accessors built from them. *)

Section RunPrim.

Context {B : Type} (w : world).

Lemma clock_bind (f : instant → M B) : (clock ≫= f) w = f (w_now w) w.
Proof. reflexivity. Qed.

Lemma new_dict_bind (f : loc → M B) d :
  (new_dict d ≫= f) w
  = f (fresh (dom (w_dicts w))) (put_dict (fresh (dom (w_dicts w))) d w).
Proof. reflexivity. Qed.

Lemma new_object_bind (f : loc → M B) o :
  (new_object o ≫= f) w
  = f (fresh (dom (w_objs w))) (put_object (fresh (dom (w_objs w))) o w).
Proof. reflexivity. Qed.

Lemma read_object_bind (f : object → M B) s o :
  w_objs w !! s = Some o → (read_object s ≫= f) w = f o w.
Proof. intros H. rewrite bind_run. unfold read_object. by rewrite H. Qed.

Lemma read_dict_bind (f : gmap string value → M B) l d :
  w_dicts w !! l = Some d → (read_dict l ≫= f) w = f d w.
Proof. intros H. rewrite bind_run. unfold read_dict. by rewrite H. Qed.

Lemma write_dict_bind (f : unit → M B) l d :
  (write_dict l d ≫= f) w = f tt (put_dict l d w).
Proof. reflexivity. Qed.

Lemma write_object_bind (f : unit → M B) l o :
  (write_object l o ≫= f) w = f tt (put_object l o w).
Proof. reflexivity. Qed.

Lemma transport_bind {A} (f : A → M B) req (answer : list request → reply A) :
  (transport req answer ≫= f) w
  = match answer (w_calls w) with
    | Reply a => f a (log_call req w)
    | Failure msg => (Raise (CollaboratorError msg), log_call req w)
    end.
Proof. rewrite bind_run. unfold transport. by destruct (answer _). Qed.

Lemma attr_meta_bind (f : loc → M B) s o :
  w_objs w !! s = Some o → (attr_meta s ≫= f) w = f (meta o) w.
Proof.
  intros H. unfold attr_meta. rewrite bind_assoc.
  by rewrite (read_object_bind _ _ _ H).
Qed.

Lemma attr_params_bind (f : loc → M B) s o :
  w_objs w !! s = Some o → (attr_params s ≫= f) w = f (params o) w.
Proof.
  intros H. unfold attr_params. rewrite bind_assoc.
  by rewrite (read_object_bind _ _ _ H).
Qed.

Lemma copy_dict_bind (f : loc → M B) l d :
  w_dicts w !! l = Some d →
  (copy_dict l ≫= f) w
  = f (fresh (dom (w_dicts w))) (put_dict (fresh (dom (w_dicts w))) d w).
Proof.
  intros H. unfold copy_dict. rewrite bind_assoc.
  by rewrite (read_dict_bind _ _ _ H).
Qed.

Lemma meta_getitem_bind (f : value → M B) s o m k :
  w_objs w !! s = Some o → w_dicts w !! meta o = Some m →
  (meta_getitem s k ≫= f) w
  = match m !! k with
    | Some v => f v w
    | None => (Raise (KeyError k), w)
    end.
Proof.
  intros Ho Hm. unfold meta_getitem, dict_getitem.
  rewrite bind_assoc, (attr_meta_bind _ _ _ Ho).
  rewrite bind_assoc, (read_dict_bind _ _ _ Hm).
  by destruct (m !! k).
Qed.

Lemma params_getitem_bind (f : value → M B) s o p k :
  w_objs w !! s = Some o → w_dicts w !! params o = Some p →
  (params_getitem s k ≫= f) w
  = match p !! k with
    | Some v => f v w
    | None => (Raise (KeyError k), w)
    end.
Proof.
  intros Ho Hp. unfold params_getitem, dict_getitem.
  rewrite bind_assoc, (attr_params_bind _ _ _ Ho).
  rewrite bind_assoc, (read_dict_bind _ _ _ Hp).
  by destruct (p !! k).
Qed.

Lemma meta_contains_bind (f : bool → M B) s o m k :
  w_objs w !! s = Some o → w_dicts w !! meta o = Some m →
  (meta_contains s k ≫= f) w = f (bool_decide (is_Some (m !! k))) w.
Proof.
  intros Ho Hm. unfold meta_contains, dict_contains.
  rewrite bind_assoc, (attr_meta_bind _ _ _ Ho).
  by rewrite bind_assoc, (read_dict_bind _ _ _ Hm).
Qed.

Lemma params_contains_bind (f : bool → M B) s o p k :
  w_objs w !! s = Some o → w_dicts w !! params o = Some p →
  (params_contains s k ≫= f) w = f (bool_decide (is_Some (p !! k))) w.
Proof.
  intros Ho Hp. unfold params_contains, dict_contains.
  rewrite bind_assoc, (attr_params_bind _ _ _ Ho).
  by rewrite bind_assoc, (read_dict_bind _ _ _ Hp).
Qed.

Lemma meta_setitem_bind (f : unit → M B) s o m k v :
  w_objs w !! s = Some o → w_dicts w !! meta o = Some m →
  (meta_setitem s k v ≫= f) w = f tt (put_dict (meta o) (<[k := v]> m) w).
Proof.
  intros Ho Hm. unfold meta_setitem, dict_setitem.
  rewrite bind_assoc, (attr_meta_bind _ _ _ Ho).
  by rewrite bind_assoc, (read_dict_bind _ _ _ Hm).
Qed.

Lemma params_setitem_bind (f : unit → M B) s o p k v :
  w_objs w !! s = Some o → w_dicts w !! params o = Some p →
  (params_setitem s k v ≫= f) w
  = f tt (put_dict (params o) (<[k := v]> p) w).
Proof.
  intros Ho Hp. unfold params_setitem, dict_setitem.
  rewrite bind_assoc, (attr_params_bind _ _ _ Ho).
  by rewrite bind_assoc, (read_dict_bind _ _ _ Hp).
Qed.

Lemma set_attr_meta_bind (f : unit → M B) s o l :
  w_objs w !! s = Some o →
  (set_attr_meta s l ≫= f) w
  = f tt (put_object s (mkObject (cls o) (sel_edge o) l (params o)
                                 (results o)) w).
Proof.
  intros Ho. unfold set_attr_meta.
  by rewrite bind_assoc, (read_object_bind _ _ _ Ho).
Qed.

Lemma set_attr_params_bind (f : unit → M B) s o l :
  w_objs w !! s = Some o →
  (set_attr_params s l ≫= f) w
  = f tt (put_object s (mkObject (cls o) (sel_edge o) (meta o) l
                                 (results o)) w).
Proof.
  intros Ho. unfold set_attr_params.
  by rewrite bind_assoc, (read_object_bind _ _ _ Ho).
Qed.

Lemma set_attr_results_bind (f : unit → M B) s o r :
  w_objs w !! s = Some o →
  (set_attr_results s r ≫= f) w
  = f tt (put_object s (mkObject (cls o) (sel_edge o) (meta o) (params o)
                                 (Some r)) w).
Proof.
  intros Ho. unfold set_attr_results.
  by rewrite bind_assoc, (read_object_bind _ _ _ Ho).
Qed.

End RunPrim.

(** ** Frames *)

Lemma frame_refl w : frame w w.
Proof. by repeat split. Qed.

Lemma frame_trans w1 w2 w3 : frame w1 w2 → frame w2 w3 → frame w1 w3.
Proof.
  intros (?&?&?&?) (?&?&?&?). repeat split; eauto; congruence.
Qed.

Lemma frame_dom_objs w w' l :
  frame w w' → l ∉ dom (w_objs w') → l ∉ dom (w_objs w).
Proof.
  intros (Ho&_) Hn [o Hl]%elem_of_dom. apply Hn, elem_of_dom. eauto.
Qed.

Lemma frame_dom_dicts w w' l :
  frame w w' → l ∉ dom (w_dicts w') → l ∉ dom (w_dicts w).
Proof.
  intros (_&Hd&_) Hn [o Hl]%elem_of_dom. apply Hn, elem_of_dom. eauto.
Qed.

(** C9.  What the code does where the claim fails: a picture URL whose
    query has [url] but no [w] makes [Picture.__init__] raise
    [KeyError('w')]. *)
Theorem Picture_init_missing_width g raw q u us :
  Urlparse.urlparse_query raw = Ret q →
  Urlparse.parse_qs q !! "url" = Some (u :: us) →
  Urlparse.parse_qs q !! "w" = None →
  Picture_init g raw = Raise (KeyError "w").
Proof.
  intros Hq Hu Hw. unfold Picture_init. rewrite Hq. osimpl.
  rewrite bool_decide_eq_true_2 by (rewrite Hu; eauto).
  unfold qs_first. by rewrite Hu, Hw.
Qed.

Lemma Picture_init_fallback g raw q :
  Urlparse.urlparse_query raw = Ret q →
  Urlparse.parse_qs q !! "url" = None →
  Picture_init g raw
  = Ret {| pic_graph := g; pic_raw := raw; pic_url := raw;
           pic_origin := raw; pic_width := None; pic_height := None;
           pic_basename := Str.last_of (Str.split "/" raw) |}.
Proof.
  intros Hq Hu. unfold Picture_init. rewrite Hq. osimpl.
  rewrite bool_decide_eq_false_2 by (rewrite Hu; by intros [? ?]).
  done.
Qed.

Lemma Picture_init_proxied g raw q u us w ws h hs :
  Urlparse.urlparse_query raw = Ret q →
  Urlparse.parse_qs q !! "url" = Some (u :: us) →
  Urlparse.parse_qs q !! "w" = Some (w :: ws) →
  Urlparse.parse_qs q !! "h" = Some (h :: hs) →
  Picture_init g raw
  = Ret {| pic_graph := g; pic_raw := raw; pic_url := raw;
           pic_origin := u; pic_width := Some w; pic_height := Some h;
           pic_basename := Str.last_of (Str.split "/" u) |}.
Proof.
  intros Hq Hu Hw Hh. unfold Picture_init. rewrite Hq. osimpl.
  rewrite bool_decide_eq_true_2 by (rewrite Hu; eauto).
  unfold qs_first. by rewrite Hu, Hw, Hh.
Qed.

Section Proofs.

Context (C : Collab).

(** ** Allocation: [__init__] and [clone] *)

Lemma Selection_init_run c e w :
  ∃ s o w',
    Selection_init C c e w = (Ret s, w') ∧ frame w w' ∧
    (s ∉ dom (w_objs w)) ∧ (meta o ∉ dom (w_dicts w)) ∧
    (params o ∉ dom (w_dicts w)) ∧ meta o ≠ params o ∧
    w_objs w' = <[s := o]> (w_objs w) ∧
    w_dicts w' !! meta o
      = Some {[ "since" := VTime (COMMON_ERA C); "until" := VTime (w_now w) ]} ∧
    w_dicts w' !! params o = Some {[ "page" := VBool false ]} ∧
    cls o = c ∧ sel_edge o = e ∧ results o = None.
Proof.
  unfold Selection_init.
  rewrite clock_bind, new_dict_bind.
  set (m0 := {[ "since" := _; "until" := _ ]}).
  pose proof (is_fresh (dom (w_dicts w))) as H1.
  set (l1 := fresh (dom (w_dicts w))) in *.
  rewrite new_dict_bind.
  pose proof (is_fresh (dom (w_dicts (put_dict l1 m0 w)))) as H2.
  set (l2 := fresh (dom (w_dicts (put_dict l1 m0 w)))) in *.
  wsimpl. rewrite dom_insert_L in H2.
  assert (l1 ≠ l2) by set_solver.
  assert (l2 ∉ dom (w_dicts w)) by set_solver.
  eexists _, (mkObject c e l1 l2 None), _. split; [reflexivity|].
  wsimpl. split_and!; try done.
  - repeat split; wsimpl; auto.
    + intros l o Hl. rewrite lookup_insert_ne; [done|].
      intros <-. apply (is_fresh (dom (w_objs w))), elem_of_dom; eauto.
    + intros l d Hl. rewrite !lookup_insert_ne; [done|..].
      * intros <-. apply H1, elem_of_dom; eauto.
      * intros <-. apply H0, elem_of_dom; eauto.
  - apply is_fresh.
  - by rewrite lookup_insert_ne, lookup_insert_eq.
  - by rewrite lookup_insert_eq.
Qed.

Lemma Selection_init_bind {B} (f : loc → M B) c e w :
  ∃ s o w',
    (Selection_init C c e ≫= f) w = f s w' ∧ frame w w' ∧
    (s ∉ dom (w_objs w)) ∧ (meta o ∉ dom (w_dicts w)) ∧
    (params o ∉ dom (w_dicts w)) ∧ meta o ≠ params o ∧
    w_objs w' = <[s := o]> (w_objs w) ∧
    w_dicts w' !! meta o
      = Some {[ "since" := VTime (COMMON_ERA C); "until" := VTime (w_now w) ]} ∧
    w_dicts w' !! params o = Some {[ "page" := VBool false ]} ∧
    cls o = c ∧ sel_edge o = e ∧ results o = None.
Proof.
  destruct (Selection_init_run c e w) as (s&o&w'&Hr&H).
  exists s, o, w'. split; [|exact H]. by rewrite (bind_run_eq _ _ _ _ _ Hr).
Qed.

Lemma Selection_clone_run w s o m p :
  w_objs w !! s = Some o →
  w_dicts w !! meta o = Some m →
  w_dicts w !! params o = Some p →
  ∃ c oc w',
    Selection_clone C s w = (Ret c, w') ∧ frame w w' ∧
    (c ∉ dom (w_objs w)) ∧ (meta oc ∉ dom (w_dicts w)) ∧
    (params oc ∉ dom (w_dicts w)) ∧ meta oc ≠ params oc ∧
    w_objs w' !! c = Some oc ∧
    w_dicts w' !! meta oc = Some m ∧ w_dicts w' !! params oc = Some p ∧
    cls oc = cls o ∧ sel_edge oc = sel_edge o ∧ results oc = None.
Proof.
  intros Ho Hm Hp. unfold Selection_clone.
  rewrite (read_object_bind _ _ _ _ Ho).
  destruct (Selection_init_bind
    (λ selection : loc,
        attr_meta s ≫= λ m0, copy_dict m0 ≫= λ m',
        set_attr_meta selection m' ≫= λ _,
        attr_params s ≫= λ p0, copy_dict p0 ≫= λ p',
        set_attr_params selection p' ≫= λ _, mret selection)
    (cls o) (sel_edge o) w)
    as (c&o1&w1&->&Hf&Hc&Hm1&Hp1&Hne&HO&HDm&HDp&Hcls&Hedge&Hres).
  assert (Hcs : c ≠ s) by (intros ->; apply Hc, elem_of_dom; eauto).
  assert (Ho1 : w_objs w1 !! s = Some o) by (by apply Hf).
  assert (Hm1' : w_dicts w1 !! meta o = Some m) by (by apply Hf).
  assert (Hp1' : w_dicts w1 !! params o = Some p) by (by apply Hf).
  assert (Hc1 : w_objs w1 !! c = Some o1) by (by rewrite HO, lookup_insert_eq).
  rewrite (attr_meta_bind _ _ _ _ Ho1).
  rewrite (copy_dict_bind _ _ _ _ Hm1').
  pose proof (is_fresh (dom (w_dicts w1))) as H3.
  set (l3 := fresh (dom (w_dicts w1))) in *.
  erewrite set_attr_meta_bind by look.
  erewrite attr_params_bind by look.
  assert (l3 ≠ params o)
    by (intros Heq; apply H3; rewrite Heq; apply elem_of_dom; eauto).
  erewrite copy_dict_bind by look.
  match goal with |- context [fresh ?X] =>
    pose proof (is_fresh X) as H4; set (l4 := fresh X) in * end.
  wsimpl. rewrite dom_insert_L in H4.
  erewrite set_attr_params_bind by look.
  wsimpl.
  eexists c, (mkObject (cls o1) (sel_edge o1) l3 l4 (results o1)), _.
  split; [reflexivity|]. wsimpl.
  assert (Hl43 : l4 ≠ l3) by set_solver.
  assert (Hl4 : l4 ∉ dom (w_dicts w1)) by set_solver.
  split_and!; try done; try congruence.
  - repeat split; wsimpl; try (by rewrite <- (proj2 (proj2 Hf))); try apply Hf.
    + intros l o' Hl. rewrite !lookup_insert_ne; [by apply Hf|..];
        intros <-; apply Hc, elem_of_dom; eauto.
    + intros l d Hl. apply Hf in Hl. rewrite !lookup_insert_ne; [done|..].
      * intros <-. apply H3, elem_of_dom; eauto.
      * intros <-. apply Hl4, elem_of_dom; eauto.
  - eapply frame_dom_dicts; eauto.
  - eapply frame_dom_dicts; eauto.
  - by rewrite lookup_insert_eq.
  - by rewrite lookup_insert_ne, lookup_insert_eq.
  - by rewrite lookup_insert_eq.
Qed.

(** ** The bodies of the builders

    Run on a selection whose two dictionaries are distinct, a body
    replaces them by what its effect says and touches nothing else. *)

Lemma put_dict_id w l d : w_dicts w !! l = Some d → put_dict l d w = w.
Proof.
  intros H. destruct w as [O D n cs]. unfold put_dict. wsimpl.
  by rewrite insert_id.
Qed.

Lemma put_dict_twice w l d d' :
  put_dict l d' (put_dict l d w) = put_dict l d' w.
Proof. unfold put_dict. wsimpl. by rewrite insert_insert_eq. Qed.

Lemma put_dict_comm w l l' d d' :
  l ≠ l' →
  put_dict l d (put_dict l' d' w) = put_dict l' d' (put_dict l d w).
Proof. intros H. unfold put_dict. wsimpl. by rewrite insert_insert_ne. Qed.

Section Bodies.

Context (w : world) (c : loc) (oc : object) (m p : gmap string value).
Context (Ho : w_objs w !! c = Some oc).
Context (Hm : w_dicts w !! meta oc = Some m).
Context (Hp : w_dicts w !! params oc = Some p).
Context (Hne : meta oc ≠ params oc).

Lemma put_both_id : put_both w oc m p = w.
Proof.
  unfold put_both. rewrite (put_dict_id w (meta oc)) by done.
  by apply put_dict_id.
Qed.

Lemma range_body_run since until :
  range_body C since until c w
  = let '(r, m', p') := range_effect C (w_now w) since until m p in
    (returning r c, put_both w oc m' p').
Proof.
  unfold range_body, range_effect. rewrite clock_bind.
  fold (until_arg C (w_now w) until).
  rewrite lift_bind.
  destruct (date_parse_utc C since) as [t1|msg]; cbn [of_reply returning];
    [|by rewrite put_both_id].
  erewrite meta_setitem_bind by look.
  rewrite lift_bind.
  destruct (date_parse_utc C (until_arg C _ _)) as [t2|msg];
    cbn [of_reply returning].
  2:{ unfold put_both. f_equal.
      rewrite (put_dict_comm _ (params oc)) by done.
      by rewrite (put_dict_id w (params oc)). }
  erewrite meta_setitem_bind by look.
  erewrite params_setitem_bind by look.
  rewrite lift_bind.
  destruct (date_timestamp C since) as [n1|msg]; cbn [of_reply returning].
  2:{ unfold put_both. by rewrite !put_dict_twice. }
  erewrite params_setitem_bind by look.
  rewrite lift_bind.
  destruct (date_timestamp C (until_arg C _ _)) as [n2|msg];
    cbn [of_reply returning].
  2:{ unfold put_both. by rewrite !put_dict_twice. }
  erewrite params_setitem_bind by look.
  unfold put_both. by rewrite !put_dict_twice.
Qed.

Lemma latest_body_run n :
  latest_body n c w = (Ret c, put_both w oc m (<["limit" := VNum n]> p)).
Proof.
  unfold latest_body. erewrite params_setitem_bind by look.
  unfold put_both. by rewrite (put_dict_id w (meta oc)).
Qed.

Lemma metrics_run ids :
  InsightsSelection_metrics c ids w
  = (Ret c, put_dict (meta oc) (metrics_effect ids m) w).
Proof.
  unfold InsightsSelection_metrics, metrics_effect.
  destruct ids as [|s|l].
  - by rewrite put_dict_id.
  - destruct s as [|a s]; [by rewrite put_dict_id|].
    erewrite meta_setitem_bind by look.
    erewrite meta_setitem_bind by look.
    by rewrite put_dict_twice.
  - destruct l as [|a l]; [by rewrite put_dict_id|].
    erewrite meta_setitem_bind by look.
    erewrite meta_setitem_bind by look.
    by rewrite put_dict_twice.
Qed.

End Bodies.

Lemma period_body_run w c oc m p period ids :
  w_objs w !! c = Some oc →
  w_dicts w !! meta oc = Some m →
  w_dicts w !! params oc = Some p →
  meta oc ≠ params oc →
  period_body period ids c w
  = (Ret c, put_both w oc (metrics_effect ids m)
                     (<["period" := VStr period]> p)).
Proof.
  intros Ho Hm Hp Hne. unfold period_body.
  erewrite params_setitem_bind by look.
  erewrite metrics_run by look.
  unfold put_both. by rewrite put_dict_comm.
Qed.

(** ** Builder calls: clone, then run the body on the clone *)

Lemma frame_put_both w w1 oc m' p' :
  frame w w1 →
  meta oc ∉ dom (w_dicts w) → params oc ∉ dom (w_dicts w) →
  frame w (put_both w1 oc m' p').
Proof.
  intros (Ho&Hd&Hn&Hc) H1 H2. unfold put_both.
  repeat split; wsimpl; auto.
  intros l d Hl. rewrite !lookup_insert_ne; [by apply Hd|..];
    intros <-; [apply H1|apply H2]; apply elem_of_dom; eauto.
Qed.

Lemma immutable_run body e m' p' w s o m p :
  w_objs w !! s = Some o →
  w_dicts w !! meta o = Some m →
  w_dicts w !! params o = Some p →
  (∀ w1 c oc,
     w_objs w1 !! c = Some oc → w_dicts w1 !! meta oc = Some m →
     w_dicts w1 !! params oc = Some p → meta oc ≠ params oc →
     w_now w1 = w_now w →
     body c w1 = (returning e c, put_both w1 oc m' p')) →
  ∃ r w', immutable C body s w = (r, w') ∧ built w o r w' e m' p'.
Proof.
  intros Ho Hm Hp Hbody. unfold immutable.
  destruct (Selection_clone_run w s o m p Ho Hm Hp)
    as (c&oc&w1&Hrun&Hf&Hc&Hmc&Hpc&Hne&Hoc&Hm1&Hp1&Hcls&Hedge&Hres).
  rewrite (bind_run_eq _ _ _ _ _ Hrun).
  rewrite (Hbody w1 c oc) by (done || apply Hf).
  eexists _, _. split; [reflexivity|]. split.
  - by apply frame_put_both.
  - destruct e as [[]|x|]; cbn [returning]; try done.
    exists c, oc. unfold put_both. wsimpl.
    split_and!; try done.
    + by rewrite lookup_insert_ne, lookup_insert_eq.
    + by rewrite lookup_insert_eq.
Qed.

Lemma built_frame w w1 o o1 r w' e m' p' :
  frame w w1 → cls o1 = cls o → sel_edge o1 = sel_edge o →
  built w1 o1 r w' e m' p' → built w o r w' e m' p'.
Proof.
  intros Hf Hcls Hedge [Hf' H]. split; [by eapply frame_trans|].
  destruct e as [[]|x|]; try done.
  destruct H as (c&oc&?&?&?&?&?&?&?&?&?&?&?).
  exists c, oc. split_and!; try done; try congruence.
  - by eapply frame_dom_objs.
  - by eapply frame_dom_dicts.
  - by eapply frame_dom_dicts.
Qed.

Lemma method_run {A} name (body : loc → M A) w s o :
  w_objs w !! s = Some o →
  method name body s w
  = if has_method (cls o) name then body s w
    else (Raise (AttributeError name), w).
Proof.
  intros Ho. unfold method. rewrite (read_object_bind _ _ _ _ Ho).
  by destruct (has_method _ _).
Qed.

Lemma call_run b w s o m p :
  w_objs w !! s = Some o →
  w_dicts w !! meta o = Some m →
  w_dicts w !! params o = Some p →
  ∃ r w', call C b s w = (r, w') ∧
    if has_method (cls o) (builder_name b) then
      let '(e, m', p') := builder_effect C (w_now w) b m p in
      built w o r w' e m' p'
    else r = Raise (AttributeError (builder_name b)) ∧ w' = w.
Proof.
  intros Ho Hm Hp.
  assert (Hperiod : ∀ name period ms,
    ∃ r w', method name (immutable C (period_body period ms)) s w = (r, w') ∧
      if has_method (cls o) name then
        built w o r w' (Ret tt) (metrics_effect ms m)
              (<["period" := VStr period]> p)
      else r = Raise (AttributeError name) ∧ w' = w).
  { intros name period ms. rewrite (method_run _ _ _ _ _ Ho).
    destruct (has_method _ _); [|by eauto].
    eapply immutable_run; eauto.
    intros w1 c oc ? ? ? ? _. by apply period_body_run. }
  destruct b as [since until|date|n|ms|ms|ms|ms];
    cbn [call builder_name builder_effect];
    unfold InsightsSelection_daily, InsightsSelection_weekly,
      InsightsSelection_monthly, InsightsSelection_lifetime,
      PostSelection_latest;
    try apply Hperiod.
  - (* range *)
    replace (has_method (cls o) "range") with true by (by destruct (cls o)).
    unfold Selection_range.
    destruct (range_effect C (w_now w) since until m p) as [[e m'] p'] eqn:He.
    eapply immutable_run; eauto.
    intros w1 c oc ? ? ? ? Hnow.
    erewrite range_body_run by eauto. by rewrite Hnow, He.
  - (* since *)
    replace (has_method (cls o) "since") with true by (by destruct (cls o)).
    unfold Selection_since, immutable at 1.
    destruct (Selection_clone_run w s o m p Ho Hm Hp)
      as (c&oc&w1&Hrun&Hf&Hc&Hmc&Hpc&Hne&Hoc&Hm1&Hp1&Hcls&Hedge&Hres).
    rewrite (bind_run_eq _ _ _ _ _ Hrun).
    destruct (range_effect C (w_now w) date None m p) as [[e m'] p'] eqn:He.
    unfold Selection_range.
    destruct (immutable_run (range_body C date None) e m' p' w1 c oc m p)
      as (r&w'&Hr&Hb); try done.
    { intros w2 c2 oc2 ? ? ? ? Hnow.
      erewrite range_body_run by eauto.
      replace (w_now w2) with (w_now w) by (rewrite Hnow; symmetry; apply Hf).
      by rewrite He. }
    exists r, w'. split; [done|]. by eapply built_frame.
  - (* latest *)
    rewrite (method_run _ _ _ _ _ Ho).
    destruct (has_method _ _); [|by eauto].
    eapply immutable_run; eauto.
    intros w1 c oc ? ? ? ? _. by apply latest_body_run.
Qed.

(** ** The feed *)

Lemma log_calls_app rs rs' w :
  log_calls rs' (log_calls rs w) = log_calls (rs ++ rs') w.
Proof. unfold log_calls. wsimpl. by rewrite app_assoc. Qed.

Lemma log_call_calls r w : log_call r w = log_calls [r] w.
Proof. reflexivity. Qed.

Lemma scan_page_run w s o m items posts :
  w_objs w !! s = Some o →
  w_dicts w !! meta o = Some m →
  scan_page C s items posts w
  = (scan_items C (sel_edge o) (m !! "since") items posts, w).
Proof.
  intros Ho Hm. revert posts.
  induction items as [|raw rest IH]; intros posts; [done|].
  cbn [scan_page scan_items].
  erewrite read_object_bind by look. rewrite lift_bind.
  destruct (Post_init C (sel_edge o) raw) as [post|e|]; try done.
  erewrite meta_getitem_bind by look.
  cbn [mbind outcome_bind obind].
  destruct (m !! "since") as [v|]; [|done].
  rewrite lift_bind. cbn [mbind outcome_bind obind].
  destruct (as_time v) as [lo|e|]; try done.
  cbn [mbind outcome_bind obind].
  destruct (lo <=? created_time post)%Z; [apply IH|done].
Qed.

Lemma scan_items_good e lo items posts acc :
  omapM (Post_init C e) items = Ret posts →
  Forall (λ q, (lo ≤ created_time q)%Z) posts →
  scan_items C e (Some (VTime lo)) items acc = Ret (Continue (acc ++ posts)).
Proof.
  revert posts acc. induction items as [|raw rest IH]; intros posts acc.
  - intros [= <-] _. by rewrite app_nil_r.
  - cbn [omapM scan_items mbind outcome_bind obind].
    destruct (Post_init C e raw) as [post|x|]; try done.
    cbn [obind]. destruct (omapM _ rest) as [ps|x|] eqn:Hps; try done.
    cbn [obind mret outcome_ret]. intros [= <-] [Hpost Hrest]%Forall_cons.
    cbn [as_time mbind outcome_bind obind].
    rewrite (proj2 (Z.leb_le _ _) Hpost).
    rewrite (IH ps (acc ++ [post])) by done.
    by rewrite <- app_assoc.
Qed.


Lemma omapM_app {X Y} (f : X → outcome Y) xs ys zs :
  omapM f (xs ++ ys) = Ret zs →
  ∃ zs1 zs2, omapM f xs = Ret zs1 ∧ omapM f ys = Ret zs2 ∧ zs = zs1 ++ zs2.
Proof.
  revert zs. induction xs as [|x xs IH]; intros zs.
  - intros H. by exists [], zs.
  - cbn [app omapM mbind outcome_bind obind].
    destruct (f x) as [y|e|]; try done. cbn [obind].
    destruct (omapM f (xs ++ ys)) as [zs'|e|] eqn:Hz; try done.
    cbn [obind mret outcome_ret]. intros [= <-].
    destruct (IH zs' eq_refl) as (zs1&zs2&->&->&->).
    by exists (y :: zs1), zs2.
Qed.


Lemma scan_lazy_exhausted g s o m lo pages :
  ∀ n acc fuel w posts,
  w_objs w !! s = Some o →
  w_dicts w !! meta o = Some m →
  m !! "since" = Some (VTime lo) →
  (∀ i pg, pages !! i = Some pg → g (n + i) = Some pg) →
  g (n + length pages) = None →
  omapM (Post_init C (sel_edge o)) (concat (page_data <$> pages))
    = Ret posts →
  Forall (λ q, (lo ≤ created_time q)%Z) posts →
  length pages < fuel →
  scan_lazy C fuel s g n acc w
  = (Ret (acc ++ posts),
     log_calls (NextPage <$> seq n (S (length pages))) w).
Proof.
  induction pages as [|pg pages IH];
    intros n acc fuel w posts Ho Hm Hlo Hg Hend Hposts Hge Hfuel;
    (destruct fuel as [|fuel]; [cbn [length] in Hfuel; lia|]);
    cbn [scan_lazy]; rewrite transport_bind.
  - cbn [length] in Hend. rewrite Nat.add_0_r in Hend.
    cbv beta. rewrite Hend. cbv beta iota.
    injection Hposts as <-. by rewrite app_nil_r.
  - pose proof (Hg 0 pg eq_refl) as Hg0. rewrite Nat.add_0_r in Hg0.
    cbv beta. rewrite Hg0. cbv beta iota.
    cbn [fmap list_fmap concat] in Hposts.
    apply omapM_app in Hposts as (ps1&ps2&Hps1&Hps2&->).
    apply Forall_app in Hge as [Hge1 Hge2].
    erewrite bind_run_eq by (eapply scan_page_run; look).
    rewrite Hlo. erewrite scan_items_good by eauto.
    erewrite (IH (S n)); try done; try look.
    + rewrite log_call_calls, log_calls_app. cbn [length].
      by rewrite <- app_assoc.
    + intros i pg' Hi. replace (S n + i) with (n + S i) by lia.
      by apply Hg.
    + cbn [length] in Hend. by replace (S n + length pages)
        with (n + S (length pages)) by lia.
    + cbn [length] in Hfuel. lia.
Qed.

Lemma PostSelection_get_prefix w s o p flag resp fuel :
  w_objs w !! s = Some o →
  w_dicts w !! params o = Some p →
  p !! "page" = Some flag →
  graph_get_posts C (w_calls w) (edge_graph (sel_edge o)) p = Reply resp →
  PostSelection_get C fuel s w
  = (match truthy flag, resp with
     | false, OnePage pg => scan_list C s [pg] []
     | true, LazyPages g => scan_lazy C fuel s g 0 []
     | _, _ => raise TypeError
     end ≫= λ posts, mret (IPost <$> posts))
      (log_call (GraphGet (edge_graph (sel_edge o)) "posts" p) w).
Proof.
  intros Ho Hp Hflag Hresp. unfold PostSelection_get.
  erewrite read_object_bind by look.
  rewrite bind_assoc. erewrite attr_params_bind by look.
  erewrite read_dict_bind by look.
  rewrite transport_bind, Hresp.
  erewrite params_getitem_bind by look.
  by rewrite Hflag.
Qed.


(** X6.  When no item of the feed is before [meta['since']], [get]
    returns the posts of all the pages, in order.  For a single page the
    log shows the one request for the feed; for a lazy sequence of [n]
    pages it shows [n + 1] requests for a page, the last of which finds
    the sequence exhausted. *)
Lemma PostSelection_get_all w s o m p lo flag resp pages posts fuel :
  w_objs w !! s = Some o →
  w_dicts w !! meta o = Some m →
  w_dicts w !! params o = Some p →
  m !! "since" = Some (VTime lo) →
  p !! "page" = Some flag →
  graph_get_posts C (w_calls w) (edge_graph (sel_edge o)) p = Reply resp →
  shaped (truthy flag) resp = true →
  (∀ i, nth_page resp i = pages !! i) →
  omapM (Post_init C (sel_edge o)) (concat (page_data <$> pages))
    = Ret posts →
  Forall (λ q, (lo ≤ created_time q)%Z) posts →
  length pages < fuel →
  PostSelection_get C fuel s w
  = (Ret (IPost <$> posts),
     log_calls (GraphGet (edge_graph (sel_edge o)) "posts" p
                :: pulls (truthy flag) 0 (S (length pages))) w).
Proof.
  intros Ho Hm Hp Hlo Hflag Hresp Hshape Hpages Hposts Hge Hfuel.
  erewrite PostSelection_get_prefix by eauto.
  destruct (truthy flag), resp as [pg|g]; try done; cbn [pulls].
  - erewrite bind_run_eq.
    2:{ eapply (scan_lazy_exhausted g s o m lo pages); eauto; try look.
        - intros i pg Hi. cbn [nth_page] in Hpages. by rewrite Hpages.
        - cbn [nth_page] in Hpages. rewrite Hpages.
          apply lookup_ge_None_2. cbn. lia. }
    by rewrite log_call_calls, log_calls_app.
  - assert (pages = [pg]) as ->.
    { apply list_eq. intros i. by rewrite <- Hpages. }
    cbn [scan_list fmap list_fmap concat] in *.
    rewrite app_nil_r in Hposts.
    rewrite !bind_assoc.
    erewrite bind_run_eq by (eapply scan_page_run; look).
    rewrite Hlo.
    by erewrite scan_items_good by eauto.
Qed.

(** ** Insights: the three stages of [get] *)

Section Insights.

Context (w : world) (s : loc) (o : object) (m p : gmap string value).
Context (Ho : w_objs w !! s = Some o).
Context (Hm : w_dicts w !! meta o = Some m).
Context (Hp : w_dicts w !! params o = Some p).

Lemma has_daterange_bind {B} (f : bool → M B) :
  (has_daterange s ≫= f) w = f (has_range p) w.
Proof.
  unfold has_daterange, has_range. rewrite bind_assoc.
  erewrite params_contains_bind by look.
  destruct (bool_decide (is_Some (p !! "since"))); [done|].
  by erewrite params_contains_bind by look.
Qed.

Lemma insights_days_run : insights_days s w = (span_days m p, w).
Proof.
  unfold insights_days, span_days, getitem.
  rewrite has_daterange_bind.
  destruct (has_range p); [|done].
  erewrite meta_getitem_bind by look.
  destruct (m !! "until") as [u|]; osimpl; [|done].
  erewrite meta_getitem_bind by look.
  destruct (m !! "since") as [s0|]; osimpl; [|done].
  rewrite lift_bind.
  destruct (as_time u) as [tu|e|]; osimpl; try done.
  rewrite lift_bind.
  by destruct (as_time s0) as [ts|e|].
Qed.

Lemma insights_results_run :
  insights_results C s w = fetch C (edge_graph (sel_edge o)) m p w.
Proof.
  unfold insights_results, fetch.
  erewrite meta_contains_bind by look.
  destruct (m !! "metrics") as [ms|] eqn:Hms.
  - rewrite bool_decide_eq_true_2 by eauto.
    erewrite meta_getitem_bind by look. rewrite Hms.
    destruct ms as [| | | |l]; try done.
    rewrite mret_bind.
    erewrite read_object_bind by look.
    rewrite bind_assoc. erewrite attr_params_bind by look.
    erewrite read_dict_bind by look.
    rewrite transport_bind.
    by destruct (graph_all_insights _ _ _ _ _).
  - rewrite bool_decide_eq_false_2 by (by intros [? ?]).
    erewrite read_object_bind by look.
    rewrite bind_assoc. erewrite attr_params_bind by look.
    erewrite read_dict_bind by look.
    rewrite transport_bind.
    by destruct (graph_get_insights _ _ _ _).
Qed.

Lemma insights_rows_run results :
  insights_rows C s results w = (rows_of C m results, w).
Proof.
  unfold insights_rows, rows_of, table_of, shape, getitem.
  rewrite lift_bind.
  destruct (omapM _ results) as [datasets|e|]; osimpl; try done.
  rewrite lift_bind.
  destruct (pivot C _ _ _) as [[fields data]|e|]; osimpl; try done.
  rewrite lift_bind.
  destruct (namedtuple fields) as [fields'|e|]; osimpl; try done.
  rewrite lift_bind.
  destruct (omapM _ (dict_order C data)) as [rows|e|]; osimpl; try done.
  erewrite meta_getitem_bind by look.
  destruct (m !! "single") as [single|]; osimpl; try done.
  destruct (truthy single); [|done].
  erewrite meta_getitem_bind by look.
  destruct (m !! "metrics") as [ms|]; osimpl; try done.
  destruct ms as [| | | |l]; try done.
  rewrite lift_bind.
  destruct (list_getitem l 0) as [metric|e|]; osimpl; try done.
  rewrite lift_bind.
  by destruct (omapM _ rows) as [vs|e|].
Qed.

End Insights.

Lemma InsightsSelection_get_run w s o m p :
  w_objs w !! s = Some o →
  w_dicts w !! meta o = Some m →
  w_dicts w !! params o = Some p →
  InsightsSelection_get C s w
  = match span_days m p with
    | Ret days =>
        if (31 * 3 <? days)%Z then (Raise NotImplementedError, w)
        else match fetch C (edge_graph (sel_edge o)) m p w with
             | (Ret results, w') => (rows_of C m results, w')
             | (Raise e, w') => (Raise e, w')
             | (Diverge, w') => (Diverge, w')
             end
    | Raise e => (Raise e, w)
    | Diverge => (Diverge, w)
    end.
Proof.
  intros Ho Hm Hp. unfold InsightsSelection_get.
  erewrite bind_run_eq by (by eapply insights_days_run).
  destruct (span_days m p) as [days|e|]; try done.
  destruct (31 * 3 <? days)%Z; [done|].
  rewrite bind_run, (insights_results_run w s o m p Ho Hm Hp).
  destruct (fetch C _ m p w) as [[results|e|] w'] eqn:Hfetch; try done.
  eapply insights_rows_run.
  - assert (w_objs w' = w_objs w) as ->; [|done].
    unfold fetch in Hfetch.
    repeat case_match; by simplify_eq.
  - assert (w_dicts w' = w_dicts w) as ->; [|done].
    unfold fetch in Hfetch.
    repeat case_match; by simplify_eq.
Qed.

(** ** No stage after the range check raises [NotImplementedError] *)















(** ** Without [single] *)

Lemma shape_no_single m rows :
  m !! "single" = None → shape m rows = Raise (KeyError "single").
Proof. unfold shape, getitem. by intros ->. Qed.

Lemma rows_of_no_single m results l :
  m !! "single" = None → rows_of C m results ≠ Ret l.
Proof.
  intros Hs. unfold rows_of.
  destruct (table_of C results) as [rows|e|]; osimpl; try done.
  by rewrite shape_no_single.
Qed.

(** C4.  What the code does where the claim fails: on a selection whose
    [meta] has neither [metrics] nor [single], [InsightsSelection.get]
    never returns; when the span is in range and the one plain request
    is answered and pivots into rows, it raises [KeyError('single')]. *)
Theorem InsightsSelection_get_without_metrics w s o m p :
  w_objs w !! s = Some o →
  w_dicts w !! meta o = Some m →
  w_dicts w !! params o = Some p →
  m !! "metrics" = None →
  m !! "single" = None →
  (∀ l, (InsightsSelection_get C s w).1 ≠ Ret l) ∧
  (∀ days resp rows,
     span_days m p = Ret days → (days ≤ 93)%Z →
     graph_get_insights C (w_calls w) (edge_graph (sel_edge o)) p
       = Reply resp →
     table_of C [resp] = Ret rows →
     InsightsSelection_get C s w
     = (Raise (KeyError "single"),
        log_call (GraphGet (edge_graph (sel_edge o)) "insights" p) w)).
Proof.
  intros Ho Hm Hp Hmetrics Hsingle.
  rewrite (InsightsSelection_get_run w s o m p Ho Hm Hp).
  unfold fetch. rewrite Hmetrics. split.
  - intros l. destruct (span_days m p) as [days|e|]; try done.
    destruct (31 * 3 <? days)%Z; [done|].
    destruct (graph_get_insights _ _ _ _) as [resp|msg]; [|done].
    cbn [fst]. by apply rows_of_no_single.
  - intros days resp rows -> Hdays -> Hrows.
    rewrite (proj2 (Z.ltb_ge _ _)) by (change (31 * 3)%Z with 93%Z; lia).
    unfold rows_of. rewrite Hrows. osimpl. by rewrite shape_no_single.
Qed.

(** ** With [single] set *)

Lemma asdict_values (vs : list cell) :
  omapM asdict (IValue <$> vs)
  = match vs with
    | [] => Ret []
    | _ :: _ => Raise (AttributeError "_asdict")
    end.
Proof. by destruct vs. Qed.

Lemma shape_single m rows v l :
  m !! "single" = Some v → truthy v = true →
  shape m rows = Ret l → ∃ vs : list cell, l = IValue <$> vs.
Proof.
  unfold shape, getitem. intros -> Ht. osimpl. rewrite Ht.
  destruct (m !! "metrics") as [ms|]; osimpl; [|done].
  destruct (match ms with VStrs l0 => list_getitem l0 0 | _ => _ end)
    as [metric|e|]; osimpl; try done.
  destruct (omapM _ rows) as [vs|e|]; osimpl; try done.
  intros [= <-]. by exists vs.
Qed.

Lemma InsightsSelection_get_single w s o m p v l :
  w_objs w !! s = Some o →
  w_dicts w !! meta o = Some m →
  w_dicts w !! params o = Some p →
  m !! "single" = Some v → truthy v = true →
  (InsightsSelection_get C s w).1 = Ret l →
  ∃ vs : list cell, l = IValue <$> vs.
Proof.
  intros Ho Hm Hp Hs Ht.
  rewrite (InsightsSelection_get_run w s o m p Ho Hm Hp).
  destruct (span_days m p) as [days|e|]; try done.
  destruct (31 * 3 <? days)%Z; [done|].
  destruct (fetch C _ m p w) as [[results|e|] w']; try done.
  cbn [fst]. unfold rows_of.
  destruct (table_of C results) as [rows|e|]; osimpl; try done.
  by apply shape_single with v.
Qed.

(** C10, amended.  On a selection built with one bare metric name,
    [serialize] raises what [get] raises, raises [AttributeError] when
    [get] returns at least one value, and returns the empty list when
    [get] returns the empty list. *)
Theorem InsightsSelection_serialize_single w s o m p v fuel :
  w_objs w !! s = Some o →
  w_dicts w !! meta o = Some m →
  w_dicts w !! params o = Some p →
  cls o = InsightsSelection →
  m !! "single" = Some v → truthy v = true →
  InsightsSelection_serialize C fuel s w
  = (match (InsightsSelection_get C s w).1 with
     | Ret [] => Ret []
     | Ret (_ :: _) => Raise (AttributeError "_asdict")
     | Raise e => Raise e
     | Diverge => Diverge
     end,
     (InsightsSelection_get C s w).2).
Proof.
  intros Ho Hm Hp Hcls Hs Ht.
  unfold InsightsSelection_serialize.
  rewrite (method_run _ _ _ _ _ Ho), Hcls.
  change (has_method InsightsSelection "serialize") with true. cbv iota.
  unfold Selection_get. rewrite bind_assoc.
  erewrite read_object_bind by look. rewrite Hcls.
  pose proof (InsightsSelection_get_single w s o m p v) as Hvs.
  rewrite bind_run.
  destruct (InsightsSelection_get C s w) as [[l|e|] w'];
    cbn [fst snd] in *; try done.
  destruct (Hvs l) as [vs ->]; try done.
  unfold lift. rewrite asdict_values. by destruct vs.
Qed.

(** ** A bucket that lacks a metric *)

Lemma omapM_result_datasets rs :
  omapM result_datasets (OneResult <$> rs) = Ret (result_data <$> rs).
Proof.
  induction rs as [|r rs IH]; [done|].
  cbn [fmap list_fmap omapM result_datasets] in *. osimpl.
  by rewrite IH.
Qed.

Lemma bucket_of_spec row :
  bucket_of C row
  = match vr_end_time row with
    | None | Some "" => Ret BLifetime
    | Some e => t ← of_reply (date_parse C e); Ret (BTime t)
    end.
Proof.
  unfold bucket_of. destruct (vr_end_time row) as [[|a e]|]; done.
Qed.

Lemma namedtuple_end_time_a_b :
  namedtuple ["end_time"; "a"; "b"] = Ret ["end_time"; "a"; "b"].
Proof. vm_compute. reflexivity. Qed.

Lemma make_rows_sparse (b1 b2 : bucket) l :
  l ≡ₚ [(b1, {[ "a" := JNum 1 ]});
        (b2, <["b" := JNum 3]> {[ "a" := JNum 2 ]})] →
  omapM (λ tv : bucket * gmap string json,
           make_row ["end_time"; "a"; "b"] tv.1 tv.2) l
  = Raise TypeError.
Proof.
  intros H. symmetry in H. apply Permutation_length_2_inv in H as [->| ->];
    vm_compute; reflexivity.
Qed.

(** C3, amended.  For the metrics [a] and [b], when the datasets fetched
    hold [a = 1] in a first bucket and [a = 2], [b = 3] in a second one,
    the pivot has the fields [end_time, a, b] and the two buckets, keyed
    by the parsed [end_time] or by [lifetime] when a row has no
    [end_time] or an empty one; building the row of the first bucket
    fails, and [get] raises [TypeError] after its one batched request,
    in whatever order the dictionary yields its buckets. *)
Theorem InsightsSelection_get_sparse_bucket
    w s o m p rs k1 k2 b1 b2 days :
  w_objs w !! s = Some o →
  w_dicts w !! meta o = Some m →
  w_dicts w !! params o = Some p →
  span_days m p = Ret days → (days ≤ 93)%Z →
  m !! "metrics" = Some (VStrs ["a"; "b"]) →
  graph_all_insights C (w_calls w) (edge_graph (sel_edge o)) ["a"; "b"] p
    = Reply rs →
  concat (result_data <$> rs)
    = [mkDataset "a" [mkValueRow (JNum 1) k1; mkValueRow (JNum 2) k2];
       mkDataset "b" [mkValueRow (JNum 3) k2]] →
  bucket_of C (mkValueRow (JNum 1) k1) = Ret b1 →
  bucket_of C (mkValueRow (JNum 2) k2) = Ret b2 →
  b1 ≠ b2 →
  pivot C (concat (result_data <$> rs)) ["end_time"] []
    = Ret (["end_time"; "a"; "b"],
           [(b1, {[ "a" := JNum 1 ]});
            (b2, <["b" := JNum 3]> {[ "a" := JNum 2 ]})]) ∧
  InsightsSelection_get C s w
    = (Raise TypeError,
       log_call (GraphAll (edge_graph (sel_edge o)) "insights" ["a"; "b"] p)
                w) ∧
  (∀ row, bucket_of C row
          = match vr_end_time row with
            | None | Some "" => Ret BLifetime
            | Some e => t ← of_reply (date_parse C e); Ret (BTime t)
            end).
Proof.
  intros Ho Hm Hp Hspan Hdays Hmetrics Hreply Hdata Hb1 Hb2 Hne.
  assert (Hpivot :
    pivot C (concat (result_data <$> rs)) ["end_time"] []
    = Ret (["end_time"; "a"; "b"],
           [(b1, {[ "a" := JNum 1 ]});
            (b2, <["b" := JNum 3]> {[ "a" := JNum 2 ]})])).
  { rewrite Hdata. cbn [pivot pivot_rows ds_name ds_values vr_value app].
    rewrite Hb1. osimpl. rewrite Hb2. osimpl.
    change (bucket_of C (mkValueRow (JNum 3) k2))
      with (bucket_of C (mkValueRow (JNum 2) k2)).
    rewrite Hb2. osimpl.
    cbn [bucket_set]. rewrite decide_False by done.
    cbn [bucket_set]. rewrite decide_False by done.
    by rewrite decide_True. }
  split; [exact Hpivot|]. split; [|apply bucket_of_spec].
  rewrite (InsightsSelection_get_run w s o m p Ho Hm Hp), Hspan.
  rewrite (proj2 (Z.ltb_ge _ _)) by (change (31 * 3)%Z with 93%Z; lia).
  unfold fetch. rewrite Hmetrics, Hreply.
  unfold rows_of, table_of.
  rewrite omapM_result_datasets. osimpl. rewrite Hpivot. osimpl.
  rewrite namedtuple_end_time_a_b. osimpl.
  by rewrite (make_rows_sparse b1 b2) by apply dict_order_perm.
Qed.

(** ** A fetch only appends to the log *)

Lemma appends_refl w : appends w w.
Proof. repeat split. exists []. by rewrite app_nil_r. Qed.

Lemma appends_log r w w' : appends (log_call r w) w' → appends w w'.
Proof.
  intros (?&?&?&rest&Hc). repeat split; try done.
  exists (r :: rest). rewrite Hc. wsimpl. by rewrite <- app_assoc.
Qed.

Lemma scan_lazy_appends s o m g fuel :
  ∀ n acc w,
  w_objs w !! s = Some o →
  w_dicts w !! meta o = Some m →
  appends w (scan_lazy C fuel s g n acc w).2.
Proof.
  induction fuel as [|fuel IH]; intros n acc w Ho Hm; [apply appends_refl|].
  cbn [scan_lazy]. rewrite transport_bind. cbv beta iota.
  apply (appends_log (NextPage n)).
  destruct (g n) as [page|]; [|apply appends_refl].
  erewrite bind_run_eq by (eapply scan_page_run; look).
  destruct (scan_items C _ _ _ _) as [[ps|ps]|e|]; try apply appends_refl.
  apply IH; look.
Qed.

Lemma PostSelection_get_appends w s o m p fuel :
  w_objs w !! s = Some o →
  w_dicts w !! meta o = Some m →
  w_dicts w !! params o = Some p →
  appends (log_call (GraphGet (edge_graph (sel_edge o)) "posts" p) w)
          (PostSelection_get C fuel s w).2.
Proof.
  intros Ho Hm Hp. unfold PostSelection_get.
  erewrite read_object_bind by look.
  rewrite bind_assoc. erewrite attr_params_bind by look.
  erewrite read_dict_bind by look.
  rewrite transport_bind.
  destruct (graph_get_posts _ _ _ _) as [resp|msg]; [|apply appends_refl].
  erewrite params_getitem_bind by look.
  destruct (p !! "page") as [flag|]; [|apply appends_refl].
  rewrite bind_run.
  destruct (truthy flag), resp as [pg|g]; try apply appends_refl.
  - pose proof (scan_lazy_appends s o m g fuel 0 []
      (log_call (GraphGet (edge_graph (sel_edge o)) "posts" p) w) Ho Hm) as H.
    by destruct (scan_lazy _ _ _ _ _ _ _) as [[ps|e|] w'].
  - cbn [scan_list].
    erewrite bind_run_eq by (eapply scan_page_run; look).
    destruct (scan_items C _ _ _ _) as [[ps|ps]|e|]; apply appends_refl.
Qed.

(** C8.  What the code does where the claim fails: indexing a
    [PostSelection] sends a new request for the feed every time, whatever
    [_results] holds, and stores nothing on the object. *)
Theorem Selection_getitem_fetches_again w s o m p fuel key :
  w_objs w !! s = Some o →
  w_dicts w !! meta o = Some m →
  w_dicts w !! params o = Some p →
  cls o = PostSelection →
  let w' := (Selection_getitem C fuel s key w).2 in
  w_objs w' = w_objs w ∧ w_dicts w' = w_dicts w ∧
  ∃ rest,
    w_calls w'
    = w_calls w ++ GraphGet (edge_graph (sel_edge o)) "posts" p :: rest.
Proof.
  intros Ho Hm Hp Hcls w'.
  assert (appends
            (log_call (GraphGet (edge_graph (sel_edge o)) "posts" p) w) w')
    as (HO&HD&_&rest&Hc).
  { unfold w', Selection_getitem, Selection_get.
    rewrite !bind_assoc. erewrite read_object_bind by look.
    rewrite Hcls, bind_run.
    pose proof (PostSelection_get_appends w s o m p fuel Ho Hm Hp) as H.
    destruct (PostSelection_get C fuel s w) as [[l|e|] w1]; try done.
  }
  split; [done|]. split; [done|]. exists rest. rewrite Hc. wsimpl.
  by rewrite <- app_assoc.
Qed.

(** Iteration, unlike indexing, keeps and reuses the result. *)

Lemma Selection_iter_cached w s o l fuel :
  w_objs w !! s = Some o →
  results o = Some l →
  Selection_iter C fuel s w = (Ret l, w).
Proof.
  intros Ho Hres. unfold Selection_iter.
  erewrite read_object_bind by look. rewrite Hres, mret_bind.
  erewrite read_object_bind by look. by rewrite Hres.
Qed.

Lemma Selection_iter_first w w' s o l fuel :
  w_objs w !! s = Some o →
  results o = None →
  Selection_get C fuel s w = (Ret l, w') →
  w_objs w' = w_objs w →
  Selection_iter C fuel s w
  = (Ret l, put_object s (mkObject (cls o) (sel_edge o) (meta o) (params o)
                                   (Some l)) w').
Proof.
  intros Ho Hres Hget HO. unfold Selection_iter.
  erewrite read_object_bind by look. rewrite Hres.
  rewrite bind_assoc, (bind_run_eq _ _ _ _ _ Hget).
  erewrite set_attr_results_bind by (rewrite HO; look).
  erewrite read_object_bind by look. done.
Qed.

(** C5.  A builder call on [s] leaves [s], its [meta] and its [params]
    as they were, and everything else that existed.  When it returns, the
    result is an object that did not exist, of the class and edge of [s],
    whose [meta] and [params] are two distinct dictionaries that did not
    exist either and hold what those of [s] held, changed by the call.
    It returns whenever the class has the method and the collaborators
    answer. *)
Theorem builder_call_clones w s o m p b :
  w_objs w !! s = Some o →
  w_dicts w !! meta o = Some m →
  w_dicts w !! params o = Some p →
  let r := (call C b s w).1 in
  let w' := (call C b s w).2 in
  (w_objs w' !! s = Some o ∧ w_dicts w' !! meta o = Some m ∧
   w_dicts w' !! params o = Some p) ∧
  frame w w' ∧
  (∀ s', r = Ret s' →
     (s' ∉ dom (w_objs w)) ∧
     ∃ o' m' p',
       w_objs w' !! s' = Some o' ∧
       cls o' = cls o ∧ sel_edge o' = sel_edge o ∧
       (meta o' ∉ dom (w_dicts w)) ∧ (params o' ∉ dom (w_dicts w)) ∧
       meta o' ≠ params o' ∧
       w_dicts w' !! meta o' = Some m' ∧ w_dicts w' !! params o' = Some p' ∧
       builder_effect C (w_now w) b m p = (Ret tt, m', p')) ∧
  (has_method (cls o) (builder_name b) = true →
   (builder_effect C (w_now w) b m p).1.1 = Ret tt →
   ∃ s', r = Ret s').
Proof.
  intros Ho Hm Hp r w'.
  destruct (call_run b w s o m p Ho Hm Hp) as (r0&w0&Hcall&H).
  unfold r, w'. rewrite Hcall. cbn [fst snd]. clear r w'.
  destruct (has_method (cls o) (builder_name b)).
  - destruct (builder_effect C (w_now w) b m p) as [[e m'] p'].
    destruct H as [Hf H].
    split; [split_and!; by apply Hf|]. split; [done|]. split.
    + intros s' ->. destruct e as [[]|x|]; try done.
      destruct H as (c&oc&[= <-]&?&?&?&?&?&?&?&?&?&?).
      split; [done|]. exists oc, m', p'. by split_and!.
    + intros _. cbn [fst]. intros ->.
      destruct H as (c&oc&->&_). by exists c.
  - destruct H as [-> ->]. split; [done|]. split; [apply frame_refl|].
    split; [done|]. done.
Qed.

(** ** Chains of builder calls *)

Lemma range_effect_page now since until m p m' p' :
  range_effect C now since until m p = (Ret tt, m', p') →
  page_inv p' true.
Proof.
  unfold range_effect. repeat case_match; try done. intros [= <- <-].
  unfold page_inv. rewrite !lookup_insert_ne by done.
  rewrite !lookup_insert_eq. rewrite lookup_insert_ne by done.
  rewrite lookup_insert_eq. split_and!; by eauto.
Qed.

Lemma builder_effect_page now b m p m' p' flag :
  builder_effect C now b m p = (Ret tt, m', p') →
  page_inv p flag → page_inv p' (flag || is_range b).
Proof.
  destruct b; cbn [builder_effect is_range]; rewrite ?orb_true_r, ?orb_false_r;
    try (intros H _; by eapply range_effect_page);
    intros [= <- <-]; unfold page_inv; by rewrite !lookup_insert_ne by done.
Qed.

Lemma chain_page bs :
  ∀ w s o m p flag s' w',
  w_objs w !! s = Some o →
  w_dicts w !! meta o = Some m →
  w_dicts w !! params o = Some p →
  page_inv p flag →
  chain C bs s w = (Ret s', w') →
  ∃ o' m' p',
    w_objs w' !! s' = Some o' ∧ w_dicts w' !! meta o' = Some m' ∧
    w_dicts w' !! params o' = Some p' ∧
    page_inv p' (flag || existsb is_range bs).
Proof.
  induction bs as [|b bs IH]; intros w s o m p flag s' w' Ho Hm Hp Hinv.
  - intros [= <- <-]. exists o, m, p. by rewrite orb_false_r.
  - cbn [chain existsb]. rewrite bind_run.
    destruct (call_run b w s o m p Ho Hm Hp) as (r&w1&Hcall&H).
    rewrite Hcall.
    destruct (has_method (cls o) (builder_name b)); [|by destruct H as [-> _]].
    destruct (builder_effect C (w_now w) b m p) as [[e m1] p1] eqn:He.
    destruct H as [_ H]. destruct e as [[]|x|]; try (by rewrite H).
    destruct H as (c&oc&->&_&Hoc&_&_&_&Hmc&Hpc&_).
    intros Hchain. rewrite orb_assoc.
    eapply IH; eauto. by eapply builder_effect_page.
Qed.

Lemma page_inv_fresh : page_inv {[ "page" := VBool false ]} false.
Proof.
  unfold page_inv. rewrite lookup_singleton_eq.
  rewrite !lookup_singleton_ne by done.
  split_and!; try done; split; try done; by intros [? ?].
Qed.

(** C6.  On the selection a chain of builder calls yields from a fresh
    one, [params['page']] is true exactly when the chain has a call to
    [range] or [since], and that is exactly when [params] has [since],
    and when it has [until]. *)
Theorem page_iff_date_range c e bs w s' w' :
  (Selection_init C c e ≫= chain C bs) w = (Ret s', w') →
  ∃ p',
    params_of w' s' = Some p' ∧
    p' !! "page" = Some (VBool (existsb is_range bs)) ∧
    (is_Some (p' !! "since") ↔ existsb is_range bs = true) ∧
    (is_Some (p' !! "until") ↔ existsb is_range bs = true) ∧
    has_range p' = existsb is_range bs.
Proof.
  destruct (Selection_init_bind (chain C bs) c e w)
    as (s&o&w1&->&Hf&_&_&_&_&HO&Hm&Hp&_).
  intros Hchain.
  edestruct (chain_page bs w1 s o) as (o'&m'&p'&Ho'&Hm'&Hp'&Hinv);
    [by rewrite HO, lookup_insert_eq|exact Hm|exact Hp|apply page_inv_fresh
    |exact Hchain|].
  cbn [orb] in Hinv. destruct Hinv as (Hpage&Hsince&Huntil).
  exists p'. split_and!; try done.
  - unfold params_of. rewrite Ho'. exact Hp'.
  - unfold has_range.
    destruct (existsb is_range bs).
    + rewrite bool_decide_eq_true_2; [done|by apply Hsince].
    + rewrite !bool_decide_eq_false_2; [done|..]; intros H;
        [by apply Huntil in H|by apply Hsince in H].
Qed.

(** ** What a fetch depends on: class, edge, the two dictionaries, the log *)

Section Det.

Context (w1 w2 : world) (s1 s2 : loc) (o1 o2 : object).
Context (m p : gmap string value).
Context (Ho1 : w_objs w1 !! s1 = Some o1).
Context (Ho2 : w_objs w2 !! s2 = Some o2).
Context (Hm1 : w_dicts w1 !! meta o1 = Some m).
Context (Hm2 : w_dicts w2 !! meta o2 = Some m).
Context (Hp1 : w_dicts w1 !! params o1 = Some p).
Context (Hp2 : w_dicts w2 !! params o2 = Some p).
Context (Hcls : cls o1 = cls o2).
Context (Hedge : sel_edge o1 = sel_edge o2).

Lemma scan_lazy_det g fuel :
  ∀ n acc l1 l2,
  w_calls l1 = w_calls l2 →
  w_objs l1 = w_objs w1 → w_dicts l1 = w_dicts w1 →
  w_objs l2 = w_objs w2 → w_dicts l2 = w_dicts w2 →
  same_run (scan_lazy C fuel s1 g n acc l1) (scan_lazy C fuel s2 g n acc l2).
Proof.
  induction fuel as [|fuel IH]; intros n acc l1 l2 Hc HO1 HD1 HO2 HD2;
    [by split|].
  cbn [scan_lazy]. rewrite !transport_bind. cbv beta iota.
  destruct (g n) as [page|].
  2:{ split; [done|]. rsimpl. by rewrite Hc. }
  erewrite !bind_run_eq
    by (eapply scan_page_run; wsimpl; rewrite ?HO1, ?HO2, ?HD1, ?HD2;
        eassumption).
  rewrite Hedge.
  destruct (scan_items C _ _ _ _) as [[ps|ps]|e|];
    try (split; [done|]; rsimpl; by rewrite Hc).
  apply IH; wsimpl; by rewrite ?Hc.
Qed.

Lemma PostSelection_get_det fuel :
  w_calls w1 = w_calls w2 →
  same_run (PostSelection_get C fuel s1 w1) (PostSelection_get C fuel s2 w2).
Proof.
  intros Hc. unfold PostSelection_get.
  erewrite !read_object_bind by look.
  rewrite !bind_assoc. erewrite !attr_params_bind by look.
  erewrite !read_dict_bind by look.
  rewrite !transport_bind, Hc, Hedge.
  destruct (graph_get_posts _ _ _ _) as [resp|msg].
  2:{ split; [done|]. rsimpl. by rewrite Hc. }
  erewrite !params_getitem_bind by look.
  destruct (p !! "page") as [flag|].
  2:{ split; [done|]. rsimpl. by rewrite Hc. }
  rewrite !bind_run.
  destruct (truthy flag), resp as [pg|g];
    try (split; [done|]; rsimpl; by rewrite Hc).
  - pose proof (scan_lazy_det g fuel 0 []
      (log_call (GraphGet (edge_graph (sel_edge o2)) "posts" p) w1)
      (log_call (GraphGet (edge_graph (sel_edge o2)) "posts" p) w2)) as H.
    destruct H as [Hr Hl]; wsimpl; try done; [by rewrite Hc|].
    destruct (scan_lazy C fuel s1 _ _ _ _) as [[a|e|] l1],
             (scan_lazy C fuel s2 _ _ _ _) as [[a'|e'|] l2];
      cbn [fst snd] in *; try done; by simplify_eq.
  - cbn [scan_list].
    erewrite !bind_run_eq by (eapply scan_page_run; look).
    rewrite Hedge.
    destruct (scan_items C _ _ _ _) as [[ps|ps]|e|];
      split; try done; rsimpl; by rewrite Hc.
Qed.

Lemma InsightsSelection_get_det :
  w_calls w1 = w_calls w2 →
  same_run (InsightsSelection_get C s1 w1) (InsightsSelection_get C s2 w2).
Proof.
  intros Hc.
  rewrite (InsightsSelection_get_run w1 s1 o1 m p Ho1 Hm1 Hp1).
  rewrite (InsightsSelection_get_run w2 s2 o2 m p Ho2 Hm2 Hp2).
  destruct (span_days m p) as [days|e|]; try by split.
  destruct (31 * 3 <? days)%Z; [by split|].
  unfold fetch. rewrite Hc, Hedge.
  destruct (m !! "metrics") as [[| | | |l]|]; try by split.
  - destruct (graph_all_insights _ _ _ _ _); split; try done;
      rsimpl; by rewrite Hc.
  - destruct (graph_get_insights _ _ _ _); split; try done;
      rsimpl; by rewrite Hc.
Qed.

Lemma Selection_get_det fuel :
  w_calls w1 = w_calls w2 →
  same_run (Selection_get C fuel s1 w1) (Selection_get C fuel s2 w2).
Proof.
  intros Hc. unfold Selection_get.
  erewrite !read_object_bind by look. rewrite Hcls.
  destruct (cls o2).
  - by split.
  - by apply PostSelection_get_det.
  - by apply InsightsSelection_get_det.
Qed.

End Det.

(** C7.  [since(d)] and [range(d)] raise the same error, or return
    selections of the same class and edge, with equal [meta] and equal
    [params] (those of [range] with [until] read from the clock), on
    which every later [get] has the same outcome and sends the same
    requests. *)
Theorem since_is_range_until_now w s o m p d :
  w_objs w !! s = Some o →
  w_dicts w !! meta o = Some m →
  w_dicts w !! params o = Some p →
  let since := Selection_since C s d w in
  let range := Selection_range C s d None w in
  w_calls since.2 = w_calls range.2 ∧
  match since.1, range.1 with
  | Ret s1, Ret s2 =>
      ∃ o1 o2 m' p',
        w_objs since.2 !! s1 = Some o1 ∧ w_objs range.2 !! s2 = Some o2 ∧
        cls o1 = cls o2 ∧ sel_edge o1 = sel_edge o2 ∧
        results o1 = results o2 ∧
        meta_of since.2 s1 = Some m' ∧ meta_of range.2 s2 = Some m' ∧
        params_of since.2 s1 = Some p' ∧ params_of range.2 s2 = Some p' ∧
        range_effect C (w_now w) d None m p = (Ret tt, m', p') ∧
        ∀ fuel, same_run (Selection_get C fuel s1 since.2)
                         (Selection_get C fuel s2 range.2)
  | Raise e1, Raise e2 => e1 = e2
  | _, _ => False
  end.
Proof.
  intros Ho Hm Hp since range.
  destruct (call_run (Since d) w s o m p Ho Hm Hp) as (r1&w1&Hc1&H1).
  destruct (call_run (Range d None) w s o m p Ho Hm Hp) as (r2&w2&Hc2&H2).
  cbn [call builder_name builder_effect] in *.
  unfold since, range. rewrite Hc1, Hc2. cbn [fst snd]. clear since range.
  replace (has_method (cls o) "since") with true in H1
    by (by destruct (cls o)).
  replace (has_method (cls o) "range") with true in H2
    by (by destruct (cls o)).
  destruct (range_effect C (w_now w) d None m p) as [[e m'] p'] eqn:He.
  destruct H1 as [Hf1 H1], H2 as [Hf2 H2].
  assert (Hcalls : w_calls w1 = w_calls w2).
  { destruct Hf1 as (_&_&_&->), Hf2 as (_&_&_&->). done. }
  split; [done|].
  destruct e as [[]|x|].
  - destruct H1 as (c1&oc1&->&_&Hoc1&_&_&_&Hm1&Hp1&Hcls1&Hedge1&Hres1).
    destruct H2 as (c2&oc2&->&_&Hoc2&_&_&_&Hm2&Hp2&Hcls2&Hedge2&Hres2).
    exists oc1, oc2, m', p'. unfold meta_of, params_of.
    rewrite Hoc1, Hoc2. cbn [mbind option_bind].
    split_and!; try done; try congruence.
    intros fuel. eapply Selection_get_det; eauto; congruence.
  - by rewrite H1, H2.
  - unfold range_effect in He. repeat case_match; done.
Qed.

End Proofs.

(** * The theorems on the concrete setting *)



(** Without a date range the one page is returned whole. *)
Example PostSelection_get_one_page :
  (PostSelection_get demo_one_page 0
     (sel_of (Page_posts demo_one_page demo_page demo_world))
     (Page_posts demo_one_page demo_page demo_world).2).1
  = Ret [IPost (demo_post demo_one_page "a" "30");
         IPost (demo_post demo_one_page "b" "20")].
Proof. vm_compute. reflexivity. Qed.


(** C3, as stated, fails: on these datasets [get] raises [TypeError],
    whichever bucket the dictionary yields first, and returns no rows. *)
Lemma InsightsSelection_get_sparse_bucket_counterexample :
  (InsightsSelection_get (demo_insights false)
     (sel_of (insights_between (demo_insights false) "0" "3"
                (Listed ["a"; "b"])))
     (insights_between (demo_insights false) "0" "3" (Listed ["a"; "b"])).2).1
  = Raise TypeError ∧
  (InsightsSelection_get (demo_insights true)
     (sel_of (insights_between (demo_insights true) "0" "3"
                (Listed ["a"; "b"])))
     (insights_between (demo_insights true) "0" "3" (Listed ["a"; "b"])).2).1
  = Raise TypeError ∧
  ¬ (∃ r1 r2,
       (InsightsSelection_get (demo_insights false)
          (sel_of (insights_between (demo_insights false) "0" "3"
                     (Listed ["a"; "b"])))
          (insights_between (demo_insights false) "0" "3"
             (Listed ["a"; "b"])).2).1
       = Ret [IRow r1; IRow r2]).
Proof.
  split; [vm_compute; reflexivity|]. split; [vm_compute; reflexivity|].
  intros (r1 & r2 & H). revert H. vm_compute. discriminate.
Qed.

(** When every bucket has every metric the rows come out, with the
    fields in the order [end_time, a, b]. *)
Example InsightsSelection_get_full_buckets :
  (InsightsSelection_get demo_full
     (sel_of (insights_between demo_full "0" "3" (Listed ["a"; "b"])))
     (insights_between demo_full "0" "3" (Listed ["a"; "b"])).2).1
  = Ret [IRow (mkRow ["end_time"; "a"; "b"]
                 [CBucket (BTime (day 1)); CJson (JNum 1); CJson (JNum 5)]);
         IRow (mkRow ["end_time"; "a"; "b"]
                 [CBucket (BTime (day 2)); CJson (JNum 2); CJson (JNum 3)])].
Proof. vm_compute. reflexivity. Qed.

(** C3, amended, on the datasets of the counterexample. *)
Lemma InsightsSelection_get_sparse_bucket_witness :
  InsightsSelection_get (demo_insights false) (sel_of sparse) sparse.2
  = (Raise TypeError,
     log_call
       (GraphAll (edge_graph (sel_edge (obj_of sparse))) "insights"
          ["a"; "b"] (params_in sparse))
       sparse.2).
Proof.
  pose proof (InsightsSelection_get_sparse_bucket (demo_insights false)
    sparse.2 (sel_of sparse) (obj_of sparse) (meta_in sparse)
    (params_in sparse) [mkResult [ds_a]; mkResult [ds_b]]
    (Some "1") (Some "2") (BTime (day 1)) (BTime (day 2)) 3
    ltac:(facts) ltac:(facts) ltac:(facts) ltac:(facts)
    ltac:(vm_compute; discriminate) ltac:(facts) ltac:(facts) ltac:(facts)
    ltac:(facts) ltac:(facts) ltac:(vm_compute; discriminate))
    as (_ & Hget & _).
  exact Hget.
Defined.

(** C4 on a fresh insights selection, the transport answering with the
    dataset of metric [a]. *)
Lemma InsightsSelection_get_without_metrics_witness :
  (∀ l, (InsightsSelection_get (demo_insights false)
           (sel_of (insights_plain (demo_insights false)))
           (insights_plain (demo_insights false)).2).1 ≠ Ret l) ∧
  InsightsSelection_get (demo_insights false)
    (sel_of (insights_plain (demo_insights false)))
    (insights_plain (demo_insights false)).2
  = (Raise (KeyError "single"),
     log_call
       (GraphGet
          (edge_graph (sel_edge (obj_of (insights_plain (demo_insights false)))))
          "insights" (params_in (insights_plain (demo_insights false))))
       (insights_plain (demo_insights false)).2).
Proof.
  pose proof (InsightsSelection_get_without_metrics (demo_insights false)
    (insights_plain (demo_insights false)).2
    (sel_of (insights_plain (demo_insights false)))
    (obj_of (insights_plain (demo_insights false)))
    (meta_in (insights_plain (demo_insights false)))
    (params_in (insights_plain (demo_insights false)))
    ltac:(facts) ltac:(facts) ltac:(facts) ltac:(facts) ltac:(facts))
    as [Hnever Hkey].
  split; [exact Hnever|].
  apply (Hkey 3%Z (OneResult (mkResult [ds_a]))
           [mkRow ["end_time"; "a"] [CBucket (BTime (day 1)); CJson (JNum 1)];
            mkRow ["end_time"; "a"] [CBucket (BTime (day 2)); CJson (JNum 2)]]);
    try facts.
  vm_compute. discriminate.
Defined.

(** C5 on [latest(5)] called on a fresh posts selection. *)
Lemma builder_call_clones_witness :
  frame (Page_posts demo_posts demo_page demo_world).2
    (call demo_posts (Latest 5)
       (sel_of (Page_posts demo_posts demo_page demo_world))
       (Page_posts demo_posts demo_page demo_world).2).2 ∧
  ∃ s', (call demo_posts (Latest 5)
           (sel_of (Page_posts demo_posts demo_page demo_world))
           (Page_posts demo_posts demo_page demo_world).2).1 = Ret s'.
Proof.
  pose proof (builder_call_clones demo_posts
    (Page_posts demo_posts demo_page demo_world).2
    (sel_of (Page_posts demo_posts demo_page demo_world))
    (obj_of (Page_posts demo_posts demo_page demo_world))
    (meta_in (Page_posts demo_posts demo_page demo_world))
    (params_in (Page_posts demo_posts demo_page demo_world))
    (Latest 5) ltac:(facts) ltac:(facts) ltac:(facts))
    as (_ & Hframe & _ & Hret).
  split; [exact Hframe|]. apply Hret; vm_compute; reflexivity.
Defined.

(** C6 on the chain [latest(3).since('15')]. *)
Lemma page_iff_date_range_witness :
  ∃ p',
    params_of chained.2 (sel_of chained) = Some p' ∧
    p' !! "page" = Some (VBool true).
Proof.
  pose proof (page_iff_date_range demo_posts PostSelection demo_page
    [Latest 3; Since (DStr "15")] demo_world (sel_of chained) chained.2
    ltac:(facts))
    as (p' & Hp' & Hpage & _).
  exists p'. split; [exact Hp'|exact Hpage].
Defined.

(** C7 on [since('15')] and [range('15')] of a fresh posts selection. *)
Lemma since_is_range_until_now_witness :
  w_calls (Selection_since demo_posts (sel_of fresh_posts) (DStr "15")
             fresh_posts.2).2
  = w_calls (Selection_range demo_posts (sel_of fresh_posts) (DStr "15") None
               fresh_posts.2).2.
Proof.
  pose proof (since_is_range_until_now demo_posts fresh_posts.2
    (sel_of fresh_posts) (obj_of fresh_posts) (meta_in fresh_posts)
    (params_in fresh_posts) (DStr "15")
    ltac:(facts) ltac:(facts) ltac:(facts)) as [Hcalls _].
  exact Hcalls.
Defined.

(** C8 on a selection that holds a cached result: indexing it sends a
    request all the same. *)
Lemma Selection_getitem_fetches_again_witness :
  results (obj_of iterated)
  = Some [IPost (demo_post demo_one_page "a" "30");
          IPost (demo_post demo_one_page "b" "20")] ∧
  ∃ rest,
    w_calls (Selection_getitem demo_one_page 0 (sel_of iterated) 0
               iterated.2).2
    = w_calls iterated.2
      ++ GraphGet (edge_graph (sel_edge (obj_of iterated))) "posts"
           (params_in iterated) :: rest.
Proof.
  split; [vm_compute; reflexivity|].
  pose proof (Selection_getitem_fetches_again demo_one_page
    iterated.2 (sel_of iterated) (obj_of iterated) (meta_in iterated)
    (params_in iterated) 0 0
    ltac:(facts) ltac:(facts) ltac:(facts) ltac:(facts)) as (_ & _ & Hlog).
  exact Hlog.
Defined.

(** Two subscripts send two requests; two iterations send one. *)
Example Selection_getitem_twice :
  w_calls ((s ← Page_posts demo_one_page demo_page;
            _ ← Selection_getitem demo_one_page 0 s 0;
            Selection_getitem demo_one_page 0 s 0) demo_world).2
  = [GraphGet ["me"] "posts" {[ "page" := VBool false ]};
     GraphGet ["me"] "posts" {[ "page" := VBool false ]}] ∧
  w_calls ((s ← Page_posts demo_one_page demo_page;
            _ ← Selection_iter demo_one_page 0 s;
            Selection_iter demo_one_page 0 s) demo_world).2
  = [GraphGet ["me"] "posts" {[ "page" := VBool false ]}].
Proof. split; vm_compute; reflexivity. Qed.

(** C9 on a proxied URL without dimensions. *)
Lemma Picture_init_missing_width_witness :
  Picture_init []
    "https://cdn.example/safe_image.php?url=http%3A%2F%2Fsite.example%2Fcat.jpg"
  = Raise (KeyError "w").
Proof.
  refine (Picture_init_missing_width []
    "https://cdn.example/safe_image.php?url=http%3A%2F%2Fsite.example%2Fcat.jpg"
    "url=http%3A%2F%2Fsite.example%2Fcat.jpg"
    "http://site.example/cat.jpg" [] _ _ _); facts.
Defined.

(** C10, as stated, fails: when [get] returns the empty list,
    [serialize] returns the empty list and raises nothing. *)
Lemma InsightsSelection_serialize_single_counterexample :
  (InsightsSelection_get demo_empty (sel_of (single_metric demo_empty))
     (single_metric demo_empty).2).1 = Ret [] ∧
  (InsightsSelection_serialize demo_empty 0 (sel_of (single_metric demo_empty))
     (single_metric demo_empty).2).1 = Ret [].
Proof. split; vm_compute; reflexivity. Qed.

(** C10, amended, on two values of the metric [a]. *)
Lemma InsightsSelection_serialize_single_witness :
  (InsightsSelection_get demo_single (sel_of (single_metric demo_single))
     (single_metric demo_single).2).1
  = Ret [IValue (CJson (JNum 1)); IValue (CJson (JNum 2))] ∧
  (InsightsSelection_serialize demo_single 0
     (sel_of (single_metric demo_single)) (single_metric demo_single).2).1
  = Raise (AttributeError "_asdict").
Proof.
  split; [vm_compute; reflexivity|].
  rewrite (InsightsSelection_serialize_single demo_single
    (single_metric demo_single).2 (sel_of (single_metric demo_single))
    (obj_of (single_metric demo_single)) (meta_in (single_metric demo_single))
    (params_in (single_metric demo_single)) (VBool true) 0
    ltac:(facts) ltac:(facts) ltac:(facts) ltac:(facts) ltac:(facts)
    ltac:(facts)).
  vm_compute. reflexivity.
Defined.

(** * Further properties of the code *)

Ltac lk :=
  repeat first [ rewrite lookup_insert_eq
               | rewrite lookup_insert_ne by done ].

Ltac map_ext :=
  apply map_eq; intros ?; rewrite ?lookup_insert;
  repeat case_decide; simplify_eq; done.

(** ** Pictures *)

Lemma split_last c s :
  ∃ w ws pre,
    Str.split c s = w :: ws ∧
    Str.contains c (List.last (w :: ws) EmptyString) = false ∧
    s = pre +:+ List.last (w :: ws) EmptyString ∧
    (ws = [] → pre = EmptyString).
Proof.
  induction s as [|a s (w & ws & pre & Hs & Hc & Hpre & Hnil)].
  - by exists EmptyString, [], EmptyString.
  - cbn [Str.split]. rewrite Hs. destruct (Ascii.eqb a c) eqn:Hac.
    + exists EmptyString, (w :: ws), (String a pre).
      change (List.last (EmptyString :: w :: ws) EmptyString)
        with (List.last (w :: ws) EmptyString).
      split_and!; try done.
      change (String a s = String a (pre +:+ List.last (w :: ws) EmptyString)).
      by f_equal.
    + destruct ws as [|x ws].
      * exists (String a w), [], EmptyString.
        cbn [List.last] in *. cbn [Str.contains]. rewrite Hac.
        split_and!; try done. rewrite Hpre, (Hnil eq_refl). done.
      * exists (String a w), (x :: ws), (String a pre).
        change (List.last (String a w :: x :: ws) EmptyString)
          with (List.last (w :: x :: ws) EmptyString).
        split_and!; try done.
        change (String a s
                = String a (pre +:+ List.last (w :: x :: ws) EmptyString)).
        by f_equal.
Qed.

Lemma parse_qs_nonempty q k vs :
  Urlparse.parse_qs q !! k = Some vs → vs ≠ [].
Proof.
  unfold Urlparse.parse_qs.
  generalize (Urlparse.parse_qsl q). intros l.
  assert (∀ d : gmap string (list string),
            (∀ k vs, d !! k = Some vs → vs ≠ []) →
            ∀ k vs,
              foldl (λ d nv, <[nv.1 := default [] (d !! nv.1) ++ [nv.2]]> d)
                    d l !! k = Some vs → vs ≠ []) as H.
  { induction l as [|nv l IH]; intros d Hd; [exact Hd|].
    cbn [foldl]. apply IH. intros k' vs'.
    destruct (decide (nv.1 = k')) as [<-|Hne].
    - rewrite lookup_insert_eq. intros [= <-]. by destruct (default _ _).
    - rewrite lookup_insert_ne by done. apply Hd. }
  apply H. intros k' vs'. by rewrite lookup_empty.
Qed.

Lemma urlparse_query_cases url :
  (∃ q, Urlparse.urlparse_query url = Ret q)
  ∨ Urlparse.urlparse_query url = Raise ValueError.
Proof.
  unfold Urlparse.urlparse_query.
  match goal with
  | |- context [mbind _ ?x] => assert ((∃ u, x = Ret u) ∨ x = Raise ValueError) as [[u ->]| ->]
  end.
  { repeat case_match; eauto. }
  - left. eauto.
  - by right.
Qed.

Lemma qs_first_cases q k :
  match Urlparse.parse_qs q !! k with
  | Some (v :: _) => qs_first (Urlparse.parse_qs q) k = Ret v
  | Some [] => False
  | None => qs_first (Urlparse.parse_qs q) k = Raise (KeyError k)
  end.
Proof.
  unfold qs_first.
  destruct (Urlparse.parse_qs q !! k) as [[|v vs]|] eqn:Hk; try done.
  by apply parse_qs_nonempty in Hk.
Qed.

(** X1.  [Picture.__init__] fails in three ways only: [ValueError] for an
    unbalanced bracket in the network location, [KeyError('w')] and
    [KeyError('h')] for a proxied address that lacks a dimension; never
    [IndexError], never [KeyError('url')].  When it returns, [raw] and
    [url] are the address given and the picture has both dimensions or
    none; with none, [origin] is the address itself. *)
Theorem Picture_init_cases g raw :
  match Picture_init g raw with
  | Ret p =>
      pic_graph p = g ∧ pic_raw p = raw ∧ pic_url p = raw ∧
      ((pic_origin p = raw ∧ pic_width p = None ∧ pic_height p = None)
       ∨ (∃ w h, pic_width p = Some w ∧ pic_height p = Some h))
  | Raise e => e = ValueError ∨ e = KeyError "w" ∨ e = KeyError "h"
  | Diverge => False
  end.
Proof.
  unfold Picture_init.
  destruct (urlparse_query_cases raw) as [[q ->]| ->];
    cbn [mbind outcome_bind obind]; [|by left].
  case_bool_decide as Hurl.
  - pose proof (qs_first_cases q "url") as Hu.
    pose proof (qs_first_cases q "w") as Hw.
    pose proof (qs_first_cases q "h") as Hh.
    destruct Hurl as [us Hus]. rewrite Hus in Hu.
    destruct us as [|u us]; [done|]. rewrite Hu. cbn [obind].
    destruct (Urlparse.parse_qs q !! "w") as [[|w ws]|]; try done;
      rewrite Hw; cbn [obind]; [|by right; left].
    destruct (Urlparse.parse_qs q !! "h") as [[|h hs]|]; try done;
      rewrite Hh; cbn [obind mret outcome_ret]; [|by right; right].
    split_and!; try done. right. by exists w, h.
  - cbn [obind mret outcome_ret]. split_and!; try done. by left.
Qed.

(** X2.  The [basename] of a picture holds no slash, and [origin] ends
    with it. *)
Theorem Picture_init_basename g raw p :
  Picture_init g raw = Ret p →
  Str.contains "/" (pic_basename p) = false ∧
  ∃ dir, pic_origin p = dir +:+ pic_basename p.
Proof.
  unfold Picture_init.
  destruct (Urlparse.urlparse_query raw) as [q|e|]; try done.
  cbn [mbind outcome_bind obind].
  destruct (if bool_decide _ then _ else _) as [[[o w] h]|e|]; try done.
  cbn [obind mret outcome_ret]. intros [= <-]. cbn [pic_basename pic_origin].
  unfold Str.last_of.
  destruct (split_last "/" o) as (x & xs & pre & -> & Hc & Hpre & _).
  split; [done|]. by exists pre.
Qed.

(** X3.  [repr] of a picture built from an address without a [url]
    parameter raises [AttributeError]: [__init__] has not set [width].
    For a proxied address it is [<Picture: basename (wxh)>], with the
    first [w] and the first [h] of the query. *)
Theorem Picture_repr_proxied_only g raw q p :
  Urlparse.urlparse_query raw = Ret q →
  Picture_init g raw = Ret p →
  match Urlparse.parse_qs q !! "url" with
  | None => Picture_repr p = Raise (AttributeError "width")
  | Some _ =>
      ∃ w h,
        qs_first (Urlparse.parse_qs q) "w" = Ret w ∧
        qs_first (Urlparse.parse_qs q) "h" = Ret h ∧
        Picture_repr p
        = Ret ("<Picture: " +:+ pic_basename p +:+ " (" +:+ w +:+ "x" +:+ h
               +:+ ")>")
  end.
Proof.
  intros Hq. unfold Picture_init. rewrite Hq.
  cbn [mbind outcome_bind obind].
  case_bool_decide as Hurl.
  - destruct Hurl as [us ->].
    destruct (qs_first _ "url") as [u|e|]; try done. cbn [obind].
    destruct (qs_first _ "w") as [w|e|]; try done. cbn [obind].
    destruct (qs_first _ "h") as [h|e|]; try done.
    cbn [obind mret outcome_ret]. intros [= <-]. by exists w, h.
  - cbn [obind mret outcome_ret]. intros [= <-].
    destruct (Urlparse.parse_qs q !! "url") eqn:E; [|done].
    by destruct Hurl.
Qed.

Lemma Picture_init_failure g raw :
  match Picture_init g raw with
  | Ret _ => True
  | Raise e => e = ValueError ∨ e = KeyError "w" ∨ e = KeyError "h"
  | Diverge => False
  end.
Proof.
  unfold Picture_init.
  destruct (urlparse_query_cases raw) as [[q ->]| ->];
    cbn [mbind outcome_bind obind]; [|by left].
  case_bool_decide as Hurl; [|done].
  pose proof (qs_first_cases q "url") as Hu.
  pose proof (qs_first_cases q "w") as Hw.
  pose proof (qs_first_cases q "h") as Hh.
  destruct Hurl as [us Hus]. rewrite Hus in Hu.
  destruct us as [|u us]; [done|]. rewrite Hu. cbn [obind].
  destruct (Urlparse.parse_qs q !! "w") as [[|w ws]|]; try done;
    rewrite Hw; cbn [obind]; [|by right; left].
  destruct (Urlparse.parse_qs q !! "h") as [[|h hs]|]; try done;
    rewrite Hh; cbn [obind mret outcome_ret]; [done|by right; right].
Qed.

(** ** Posts *)

(** X4.  [Post.__init__] raises only when a date does not parse (the
    failure of the collaborator) or when the picture cannot be built; a
    missing optional field never makes it fail.  When it returns, the
    handle of the post is that of the account scoped to the id of the
    post, the two times are the parsed dates, and [picture] is [None]
    exactly when the item has no [picture]. *)
Theorem Post_init_cases (C : Collab) account raw :
  match Post_init C account raw with
  | Ret post =>
      post_id post = r_id raw ∧
      post_graph post = edge_graph account ++ [r_id raw] ∧
      date_parse C (r_created_time raw) = Reply (created_time post) ∧
      date_parse C (r_updated_time raw) = Reply (updated_time post) ∧
      match r_picture raw with
      | None => post_picture post = None
      | Some url =>
          ∃ pic, post_picture post = Some pic ∧
                 Picture_init (edge_graph account ++ [r_id raw]) url = Ret pic
      end
  | Raise e =>
      (∃ msg, e = CollaboratorError msg) ∨
      e = ValueError ∨ e = KeyError "w" ∨ e = KeyError "h"
  | Diverge => False
  end.
Proof.
  unfold Post_init, partial. osimpl.
  destruct (date_parse C (r_created_time raw)) as [ctime|msg]; osimpl;
    [|left; by eexists].
  destruct (date_parse C (r_updated_time raw)) as [mtime|msg]; osimpl;
    [|left; by eexists].
  destruct (r_picture raw) as [url|]; osimpl; [|done].
  pose proof (Picture_init_failure (edge_graph account ++ [r_id raw]) url)
    as Hpic.
  destruct (Picture_init _ url) as [pic|e|]; osimpl; [|by right|done].
  split_and!; try done. by exists pic.
Qed.

(** X5.  [resolve_link(clean=True)] is [utils.url.base] applied to what
    [resolve_link()] returns, [None] staying [None]; and [resolve_link]
    returns [None] exactly for a post without a link or with an empty
    one. *)
Theorem Post_resolve_link_clean L post :
  Post_resolve_link L post true
  = (r ← Post_resolve_link L post false;
     match r with
     | None => Ret None
     | Some url => url ← of_reply (url_base L url); Ret (Some url)
     end) ∧
  (∀ clean,
     Post_resolve_link L post clean = Ret None
     ↔ post_link post = None ∨ post_link post = Some "").
Proof.
  unfold Post_resolve_link. split.
  - destruct (post_link post) as [link|]; [|done].
    destruct (String.eqb link ""); [done|].
    destruct (url_resolve L link) as [url|msg]; [|done].
    cbn [of_reply mbind outcome_bind obind mret outcome_ret].
    by destruct (url_base L url).
  - intros clean. destruct (post_link post) as [link|]; [|by split; auto].
    destruct (String.eqb_spec link "") as [->|Hne]; [by split; auto|].
    split; [|by intros [|[= ->]]].
    destruct (url_resolve L link) as [url|msg]; [|done].
    cbn [of_reply mbind outcome_bind obind mret outcome_ret].
    destruct clean; [|done]. by destruct (url_base L url).
Qed.

(** ** Feeds, iteration and the cache *)

Section More.

Context (C : Collab).

Lemma scan_items_raise e lo pre bad rest posts x acc :
  omapM (Post_init C e) pre = Ret posts →
  Forall (λ q, (lo ≤ created_time q)%Z) posts →
  Post_init C e bad = Raise x →
  scan_items C e (Some (VTime lo)) (pre ++ bad :: rest) acc = Raise x.
Proof.
  revert posts acc. induction pre as [|raw pre IH]; intros posts acc.
  - intros _ _ Hbad. cbn [app scan_items mbind outcome_bind obind].
    by rewrite Hbad.
  - cbn [app omapM scan_items mbind outcome_bind obind].
    destruct (Post_init C e raw) as [post|y|]; try done.
    cbn [obind]. destruct (omapM _ pre) as [ps|y|] eqn:Hps; try done.
    cbn [obind mret outcome_ret].
    intros [= <-] [Hpost Hrest]%Forall_cons Hbad.
    cbn [as_time mbind outcome_bind obind].
    rewrite (proj2 (Z.leb_le _ _) Hpost).
    by rewrite (IH ps (acc ++ [post])).
Qed.

Lemma scan_lazy_raise g s o m lo last pre bad rest x pages0 :
  ∀ n acc fuel w posts,
  w_objs w !! s = Some o →
  w_dicts w !! meta o = Some m →
  m !! "since" = Some (VTime lo) →
  (∀ i pg, (pages0 ++ [last]) !! i = Some pg → g (n + i) = Some pg) →
  page_data last = pre ++ bad :: rest →
  omapM (Post_init C (sel_edge o)) (concat (page_data <$> pages0) ++ pre)
    = Ret posts →
  Forall (λ q, (lo ≤ created_time q)%Z) posts →
  Post_init C (sel_edge o) bad = Raise x →
  length pages0 < fuel →
  scan_lazy C fuel s g n acc w
  = (Raise x, log_calls (NextPage <$> seq n (S (length pages0))) w).
Proof.
  induction pages0 as [|pg pages0 IH];
    intros n acc fuel w posts Ho Hm Hlo Hg Hlast Hposts Hge Hbad Hfuel;
    (destruct fuel as [|fuel]; [cbn [length] in Hfuel; lia|]);
    cbn [scan_lazy]; rewrite transport_bind.
  - pose proof (Hg 0 last eq_refl) as Hg0. rewrite Nat.add_0_r in Hg0.
    cbv beta. rewrite Hg0. cbv beta iota.
    erewrite bind_run_eq by (eapply scan_page_run; look).
    rewrite Hlo, Hlast.
    by erewrite scan_items_raise by eauto.
  - pose proof (Hg 0 pg eq_refl) as Hg0. rewrite Nat.add_0_r in Hg0.
    cbv beta. rewrite Hg0. cbv beta iota.
    cbn [fmap list_fmap concat] in Hposts. rewrite <- app_assoc in Hposts.
    apply omapM_app in Hposts as (ps1&ps2&Hps1&Hps2&->).
    apply Forall_app in Hge as [Hge1 Hge2].
    erewrite bind_run_eq by (eapply scan_page_run; look).
    rewrite Hlo. erewrite scan_items_good by eauto.
    erewrite (IH (S n)); try done; try look.
    + by rewrite log_call_calls, log_calls_app.
    + intros i pg' Hi. replace (S n + i) with (n + S i) by lia.
      by apply Hg.
    + cbn [length] in Hfuel. lia.
Qed.

(** X7.  When an item cannot be built into a [Post], and no item before
    it is older than [meta['since']], [get] raises what the construction
    raised: the posts accepted so far are not returned, and no page after
    the one of that item is asked for. *)
Theorem PostSelection_get_item_fails
    w s o m p lo flag resp pages0 last pre bad rest posts x fuel :
  w_objs w !! s = Some o →
  w_dicts w !! meta o = Some m →
  w_dicts w !! params o = Some p →
  m !! "since" = Some (VTime lo) →
  p !! "page" = Some flag →
  graph_get_posts C (w_calls w) (edge_graph (sel_edge o)) p = Reply resp →
  shaped (truthy flag) resp = true →
  (∀ i pg, (pages0 ++ [last]) !! i = Some pg → nth_page resp i = Some pg) →
  page_data last = pre ++ bad :: rest →
  omapM (Post_init C (sel_edge o)) (concat (page_data <$> pages0) ++ pre)
    = Ret posts →
  Forall (λ q, (lo ≤ created_time q)%Z) posts →
  Post_init C (sel_edge o) bad = Raise x →
  length pages0 < fuel →
  PostSelection_get C fuel s w
  = (Raise x,
     log_calls (GraphGet (edge_graph (sel_edge o)) "posts" p
                :: pulls (truthy flag) 0 (S (length pages0))) w).
Proof.
  intros Ho Hm Hp Hlo Hflag Hresp Hshape Hpages Hlast Hposts Hge Hbad Hfuel.
  erewrite PostSelection_get_prefix by eauto.
  destruct (truthy flag), resp as [pg|g]; try done; cbn [pulls].
  - erewrite bind_run_eq
      by (eapply (scan_lazy_raise g s o m lo last pre bad rest x pages0);
          eauto; look).
    by rewrite log_call_calls, log_calls_app.
  - destruct pages0 as [|pg0 pages0].
    2:{ assert (∃ y, ((pg0 :: pages0) ++ [last]) !! 1 = Some y) as [y Hy]
          by (destruct pages0; eexists; reflexivity).
        by specialize (Hpages 1 y Hy). }
    specialize (Hpages 0 last eq_refl). injection Hpages as ->.
    cbn [scan_list].
    rewrite bind_assoc.
    erewrite bind_run_eq by (eapply scan_page_run; look).
    rewrite Hlo, Hlast.
    by erewrite scan_items_raise by eauto.
Qed.

Lemma fetch_appends h m p w : appends w (fetch C h m p w).2.
Proof.
  unfold fetch. repeat case_match; cbn [snd];
    try apply appends_refl; apply (appends_log _ _ _ (appends_refl _)).
Qed.

Lemma InsightsSelection_get_appends w s o m p :
  w_objs w !! s = Some o →
  w_dicts w !! meta o = Some m →
  w_dicts w !! params o = Some p →
  appends w (InsightsSelection_get C s w).2.
Proof.
  intros Ho Hm Hp. erewrite InsightsSelection_get_run by eauto.
  destruct (span_days m p) as [days|e|]; try apply appends_refl.
  destruct (31 * 3 <? days)%Z; [apply appends_refl|].
  pose proof (fetch_appends (edge_graph (sel_edge o)) m p w) as H.
  by destruct (fetch C _ m p w) as [[rs|e|] w'].
Qed.

Lemma Selection_get_appends_run w s o m p fuel :
  w_objs w !! s = Some o →
  w_dicts w !! meta o = Some m →
  w_dicts w !! params o = Some p →
  appends w (Selection_get C fuel s w).2.
Proof.
  intros Ho Hm Hp. unfold Selection_get.
  erewrite read_object_bind by look.
  destruct (cls o).
  - apply appends_refl.
  - eapply appends_log, PostSelection_get_appends; eauto.
  - by eapply InsightsSelection_get_appends.
Qed.

(** X8.  [get], of whatever class and with whatever outcome, changes no
    object and no dictionary and leaves the clock alone: it only appends
    to the log.  The selection, its [meta] and its [params] are after the
    call what they were before; no result is stored. *)
Theorem Selection_get_keeps_store w s o m p fuel :
  w_objs w !! s = Some o →
  w_dicts w !! meta o = Some m →
  w_dicts w !! params o = Some p →
  let w' := (Selection_get C fuel s w).2 in
  appends w w' ∧
  w_objs w' !! s = Some o ∧
  w_dicts w' !! meta o = Some m ∧ w_dicts w' !! params o = Some p.
Proof.
  intros Ho Hm Hp w'.
  pose proof (Selection_get_appends_run w s o m p fuel Ho Hm Hp)
    as (HO & HD & Hn & Hc).
  fold w' in HO, HD, Hn, Hc.
  split; [done|]. by rewrite HO, HD.
Qed.

(** X9.  Once an iteration has returned, every later iteration returns
    the same list and changes nothing, so it sends no request.  The first
    iteration of a selection without [_results] is one [get]; it changes
    no dictionary.  An iteration that fails can only be one on a
    selection without [_results], and leaves it so: the next one fetches
    again. *)
Theorem Selection_iter_memoizes w s o m p fuel :
  w_objs w !! s = Some o →
  w_dicts w !! meta o = Some m →
  w_dicts w !! params o = Some p →
  match Selection_iter C fuel s w with
  | (Ret l, w1) =>
      (∀ fuel', Selection_iter C fuel' s w1 = (Ret l, w1)) ∧
      (results o = None →
       ∃ w0, Selection_get C fuel s w = (Ret l, w0) ∧
             w_calls w1 = w_calls w0 ∧ w_dicts w1 = w_dicts w)
  | (_, w1) => results o = None ∧ w_objs w1 = w_objs w
  end.
Proof.
  intros Ho Hm Hp.
  destruct (results o) as [l|] eqn:Hres.
  - rewrite (Selection_iter_cached C w s o l fuel Ho Hres).
    split; [|done]. intros fuel'. by apply Selection_iter_cached with o.
  - pose proof (Selection_get_appends_run w s o m p fuel Ho Hm Hp)
      as (HO & HD & _ & _).
    destruct (Selection_get C fuel s w) as [[l|e|] w0] eqn:Hget;
      cbn [snd] in HO, HD.
    + rewrite (Selection_iter_first C w w0 s o l fuel Ho Hres Hget HO).
      split.
      * intros fuel'. eapply Selection_iter_cached; [look|done].
      * intros _. exists w0. by rewrite <- HD.
    + unfold Selection_iter. erewrite read_object_bind by look.
      rewrite Hres, bind_assoc, (bind_run_eq _ _ _ _ _ Hget). done.
    + unfold Selection_iter. erewrite read_object_bind by look.
      rewrite Hres, bind_assoc, (bind_run_eq _ _ _ _ _ Hget). done.
Qed.

(** X10.  The selection that a builder call returns has no [_results],
    also when the selection it was called on has: iterating over the new
    one fetches, while the old one keeps serving its list. *)
Theorem builder_call_drops_cache w s o m p b l s' w' :
  w_objs w !! s = Some o →
  w_dicts w !! meta o = Some m →
  w_dicts w !! params o = Some p →
  results o = Some l →
  call C b s w = (Ret s', w') →
  (∃ o', w_objs w' !! s' = Some o' ∧ results o' = None) ∧
  (∀ fuel, Selection_iter C fuel s w' = (Ret l, w')) ∧
  (∀ fuel, (Selection_iter C fuel s' w').1 = (Selection_get C fuel s' w').1).
Proof.
  intros Ho Hm Hp Hres Hcall.
  destruct (call_run C b w s o m p Ho Hm Hp) as (r & w1 & Hrun & Hb).
  rewrite Hcall in Hrun. injection Hrun as <- <-.
  destruct (has_method (cls o) (builder_name b)); [|by destruct Hb].
  destruct (builder_effect C (w_now w) b m p) as [[e m'] p'].
  destruct Hb as [Hframe Hb]. destruct e as [[]|x|]; try done.
  destruct Hb as (c & oc & [= <-] & Hc & Hoc & Hmc & Hpc & Hne & Hm' & Hp'
                  & Hcls & Hedge & Hnone).
  split; [by exists oc|]. split.
  - intros fuel. apply Selection_iter_cached with o; [|done].
    by apply Hframe.
  - intros fuel.
    pose proof (Selection_get_appends_run w' s' oc m' p' fuel Hoc Hm' Hp')
      as (HO & _).
    destruct (Selection_get C fuel s' w') as [[l'|e|] w0] eqn:Hget;
      cbn [snd] in HO.
    + by rewrite (Selection_iter_first C w' w0 s' oc l' fuel Hoc Hnone Hget HO).
    + unfold Selection_iter. erewrite read_object_bind by look.
      rewrite Hnone, bind_assoc, (bind_run_eq _ _ _ _ _ Hget). done.
    + unfold Selection_iter. erewrite read_object_bind by look.
      rewrite Hnone, bind_assoc, (bind_run_eq _ _ _ _ _ Hget). done.
Qed.

End More.

(** ** Chains of calls as functions of the dictionaries *)

Section Chains.

Context (C : Collab).

Lemma chain_run bs :
  ∀ w s o m p s' w',
  w_objs w !! s = Some o →
  w_dicts w !! meta o = Some m →
  w_dicts w !! params o = Some p →
  chain C bs s w = (Ret s', w') →
  ∃ o' m' p',
    w_objs w' !! s' = Some o' ∧ w_dicts w' !! meta o' = Some m' ∧
    w_dicts w' !! params o' = Some p' ∧
    cls o' = cls o ∧ sel_edge o' = sel_edge o ∧ frame w w' ∧
    chain_effect C (w_now w) bs m p = (Ret tt, m', p') ∧
    Forall (λ b, has_method (cls o) (builder_name b) = true) bs.
Proof.
  induction bs as [|b bs IH]; intros w s o m p s' w' Ho Hm Hp.
  - intros [= <- <-]. exists o, m, p.
    split_and!; first [done | apply frame_refl].
  - cbn [chain chain_effect]. rewrite bind_run.
    destruct (call_run C b w s o m p Ho Hm Hp) as (r&w1&Hcall&H).
    rewrite Hcall.
    destruct (has_method (cls o) (builder_name b)) eqn:Hmeth;
      [|by destruct H as [-> _]].
    destruct (builder_effect C (w_now w) b m p) as [[e m1] p1] eqn:He.
    destruct H as [Hf H]. destruct e as [[]|x|]; try (by rewrite H).
    destruct H as (c&oc&->&_&Hoc&_&_&_&Hmc&Hpc&Hcls&Hedge&_).
    intros Hchain.
    destruct (IH w1 c oc m1 p1 s' w' Hoc Hmc Hpc Hchain)
      as (o'&m'&p'&Ho'&Hm'&Hp'&Hcls'&Hedge'&Hf'&Heff&Hall).
    exists o', m', p'. split_and!; try done; try congruence.
    + by eapply frame_trans.
    + destruct Hf as (_&_&Hnow&_). by rewrite <- Hnow.
    + constructor; [done|]. by rewrite <- Hcls.
Qed.

Lemma chain_returns bs :
  ∀ w s o m p m' p',
  w_objs w !! s = Some o →
  w_dicts w !! meta o = Some m →
  w_dicts w !! params o = Some p →
  Forall (λ b, has_method (cls o) (builder_name b) = true) bs →
  chain_effect C (w_now w) bs m p = (Ret tt, m', p') →
  ∃ s' w', chain C bs s w = (Ret s', w').
Proof.
  induction bs as [|b bs IH]; intros w s o m p m' p' Ho Hm Hp Hall.
  - intros _. by exists s, w.
  - apply Forall_cons in Hall as [Hb Hall].
    cbn [chain chain_effect]. rewrite bind_run.
    destruct (call_run C b w s o m p Ho Hm Hp) as (r&w1&Hcall&H).
    rewrite Hcall, Hb in *.
    destruct (builder_effect C (w_now w) b m p) as [[e m1] p1] eqn:He.
    destruct H as [Hf H]. destruct e as [[]|x|]; try done.
    destruct H as (c&oc&->&_&Hoc&_&_&_&Hmc&Hpc&Hcls&Hedge&_).
    intros Heff. eapply (IH w1 c oc m1 p1); eauto.
    + by rewrite Hcls.
    + destruct Hf as (_&_&Hnow&_). by rewrite Hnow.
Qed.

Lemma chain_effect_inv (I : gmap string value → gmap string value → Prop) :
  (∀ now b m p m' p',
     builder_effect C now b m p = (Ret tt, m', p') → I m p → I m' p') →
  ∀ now bs m p m' p',
    chain_effect C now bs m p = (Ret tt, m', p') → I m p → I m' p'.
Proof.
  intros Hstep now bs. induction bs as [|b bs IH]; intros m p m' p'.
  - by intros [= <- <-].
  - cbn [chain_effect].
    destruct (builder_effect C now b m p) as [[e m1] p1] eqn:He.
    destruct e as [[]|x|]; try done. intros Heff Hi.
    eapply IH; [exact Heff|]. by eapply Hstep.
Qed.

Lemma chain_effect_last
    (get : gmap string value → gmap string value → option value)
    (setter : builder → option value) :
  (∀ now b m p m' p',
     builder_effect C now b m p = (Ret tt, m', p') →
     get m' p' = from_option Some (get m p) (setter b)) →
  ∀ now bs m p m' p',
    chain_effect C now bs m p = (Ret tt, m', p') →
    get m' p' = from_option Some (get m p) (last (omap setter bs)).
Proof.
  intros Hstep now bs. induction bs as [|b bs IH]; intros m p m' p'.
  - by intros [= <- <-].
  - cbn [chain_effect omap list_omap].
    destruct (builder_effect C now b m p) as [[e m1] p1] eqn:He.
    destruct e as [[]|x|]; try done. intros Heff.
    rewrite (IH _ _ _ _ Heff), (Hstep _ _ _ _ _ _ He).
    destruct (setter b) as [v|]; [|done].
    rewrite last_cons. by destruct (last (omap setter bs)).
Qed.

Lemma range_effect_ret now since until m p m' p' :
  range_effect C now since until m p = (Ret tt, m', p') →
  ∃ t1 t2 n1 n2,
    ∀ m0 p0,
      range_effect C now since until m0 p0
      = (Ret tt,
         <["until" := VTime t2]> (<["since" := VTime t1]> m0),
         <["until" := VNum n2]>
           (<["since" := VNum n1]> (<["page" := VBool true]> p0))).
Proof.
  unfold range_effect.
  destruct (date_parse_utc C since) as [t1|]; [|done].
  destruct (date_parse_utc C (until_arg C now until)) as [t2|]; [|done].
  destruct (date_timestamp C since) as [n1|]; [|done].
  destruct (date_timestamp C (until_arg C now until)) as [n2|]; [|done].
  intros _. by exists t1, t2, n1, n2.
Qed.

Lemma builder_effect_range now b m p m' p' :
  is_range b = true →
  builder_effect C now b m p = (Ret tt, m', p') →
  ∃ t1 t2 n1 n2,
    ∀ m0 p0,
      builder_effect C now b m0 p0
      = (Ret tt,
         <["until" := VTime t2]> (<["since" := VTime t1]> m0),
         <["until" := VNum n2]>
           (<["since" := VNum n1]> (<["page" := VBool true]> p0))).
Proof.
  destruct b; try done; intros _; cbn [builder_effect];
    apply range_effect_ret.
Qed.

Lemma builder_effect_other now b :
  is_range b = false →
  ∃ fm fp : gmap string value → gmap string value,
    (∀ m0 p0, builder_effect C now b m0 p0 = (Ret tt, fm m0, fp p0)) ∧
    (∀ t1 t2 m0,
       fm (<["until" := VTime t2]> (<["since" := VTime t1]> m0))
       = <["until" := VTime t2]> (<["since" := VTime t1]> (fm m0))) ∧
    (∀ n1 n2 p0,
       fp (<["until" := VNum n2]>
             (<["since" := VNum n1]> (<["page" := VBool true]> p0)))
       = <["until" := VNum n2]>
           (<["since" := VNum n1]> (<["page" := VBool true]> (fp p0)))).
Proof.
  destruct b as [| |n|ms|ms|ms|ms]; try done; intros _.
  - exists id, (insert "limit" (VNum n)). split_and!; try done.
    intros. map_ext.
  - exists (metrics_effect ms), (insert "period" (VStr "day")).
    split_and!; try done; intros; [|map_ext].
    destruct ms as [|[|a s]|[|x l]]; cbn [metrics_effect]; try done; map_ext.
  - exists (metrics_effect ms), (insert "period" (VStr "week")).
    split_and!; try done; intros; [|map_ext].
    destruct ms as [|[|a s]|[|x l]]; cbn [metrics_effect]; try done; map_ext.
  - exists (metrics_effect ms), (insert "period" (VStr "days_28")).
    split_and!; try done; intros; [|map_ext].
    destruct ms as [|[|a s]|[|x l]]; cbn [metrics_effect]; try done; map_ext.
  - exists (metrics_effect ms), (insert "period" (VStr "lifetime")).
    split_and!; try done; intros; [|map_ext].
    destruct ms as [|[|a s]|[|x l]]; cbn [metrics_effect]; try done; map_ext.
Qed.

Lemma chain_effect_commute now r b m p m' p' :
  is_range r = true → is_range b = false →
  chain_effect C now [r; b] m p = (Ret tt, m', p') →
  chain_effect C now [b; r] m p = (Ret tt, m', p').
Proof.
  intros Hr Hb. cbn [chain_effect].
  destruct (builder_effect C now r m p) as [[e m1] p1] eqn:He.
  destruct e as [[]|x|]; try done.
  destruct (builder_effect_range _ _ _ _ _ _ Hr He) as (t1&t2&n1&n2&Hre).
  destruct (builder_effect_other now b Hb) as (fm&fp&Hbe&Hfm&Hfp).
  rewrite Hre in He. injection He as <- <-.
  rewrite !Hbe, Hre. intros [= <- <-]. by rewrite Hfm, Hfp.
Qed.

Lemma chain_effect_override now r1 r2 m p m' p' :
  is_range r1 = true → is_range r2 = true →
  chain_effect C now [r1; r2] m p = (Ret tt, m', p') →
  chain_effect C now [r2] m p = (Ret tt, m', p').
Proof.
  intros Hr1 Hr2. cbn [chain_effect].
  destruct (builder_effect C now r1 m p) as [[e m1] p1] eqn:He1.
  destruct e as [[]|x|]; try done.
  destruct (builder_effect_range _ _ _ _ _ _ Hr1 He1) as (t1&t2&n1&n2&Hre1).
  rewrite Hre1 in He1. injection He1 as <- <-.
  destruct (builder_effect C now r2 _ _) as [[e m2] p2] eqn:He2.
  destruct e as [[]|x|]; try done.
  destruct (builder_effect_range _ _ _ _ _ _ Hr2 He2) as (u1&u2&k1&k2&Hre2).
  rewrite Hre2 in He2. injection He2 as <- <-.
  rewrite Hre2. intros [= <- <-]. f_equal; [f_equal|]; map_ext.
Qed.

(** Two chains from the same selection whose effects agree end in
    selections that cannot be told apart. *)
Lemma chain_same bs1 bs2 w s o m p s1 w1 :
  w_objs w !! s = Some o →
  w_dicts w !! meta o = Some m →
  w_dicts w !! params o = Some p →
  chain C bs1 s w = (Ret s1, w1) →
  chain_effect C (w_now w) bs2 m p = chain_effect C (w_now w) bs1 m p →
  Forall (λ b, has_method (cls o) (builder_name b) = true) bs2 →
  ∃ s2 w2 m' p',
    chain C bs2 s w = (Ret s2, w2) ∧
    meta_of w1 s1 = Some m' ∧ meta_of w2 s2 = Some m' ∧
    params_of w1 s1 = Some p' ∧ params_of w2 s2 = Some p' ∧
    ∀ fuel, same_run (Selection_get C fuel s1 w1)
                     (Selection_get C fuel s2 w2).
Proof.
  intros Ho Hm Hp H1 Heff Hall.
  destruct (chain_run bs1 w s o m p s1 w1 Ho Hm Hp H1)
    as (o1&m1&p1&Ho1&Hm1&Hp1&Hcls1&Hedge1&Hf1&Heff1&_).
  rewrite Heff1 in Heff.
  destruct (chain_returns bs2 w s o m p m1 p1 Ho Hm Hp Hall Heff)
    as (s2&w2&H2).
  destruct (chain_run bs2 w s o m p s2 w2 Ho Hm Hp H2)
    as (o2&m2&p2&Ho2&Hm2&Hp2&Hcls2&Hedge2&Hf2&Heff2&_).
  rewrite Heff in Heff2. injection Heff2 as <- <-.
  exists s2, w2, m1, p1. unfold meta_of, params_of.
  rewrite Ho1, Ho2. cbn [mbind option_bind].
  split_and!; try done.
  intros fuel. eapply Selection_get_det; eauto; try congruence.
  destruct Hf1 as (_&_&_&->). by destruct Hf2 as (_&_&_&->).
Qed.

Lemma builder_effect_keys now b m p m' p' :
  builder_effect C now b m p = (Ret tt, m', p') →
  p' !! "limit" = from_option Some (p !! "limit") (set_limit b) ∧
  p' !! "period" = from_option Some (p !! "period") (set_period b) ∧
  m' !! "metrics" = from_option Some (m !! "metrics") (set_metrics b) ∧
  m' !! "single" = from_option Some (m !! "single") (set_single b) ∧
  ((∃ t, m !! "since" = Some (VTime t)) → ∃ t, m' !! "since" = Some (VTime t)) ∧
  ((∃ t, m !! "until" = Some (VTime t)) → ∃ t, m' !! "until" = Some (VTime t)).
Proof.
  destruct b as [since until|date|n|ms|ms|ms|ms];
    cbn [builder_effect set_limit set_period set_metrics set_single
         builder_metrics from_option].
  1,2: intros H; pose proof H as H'; apply range_effect_ret in H' as (?&?&?&?&H');
       rewrite H' in H; injection H as <- <-;
       lk;
       split_and!; try done; intros _; by eexists.
  all: intros [= <- <-]; lk.
  1: by split_and!.
  all: destruct ms as [|[|a s]|[|x l]]; cbn [metrics_effect from_option];
       lk; by split_and!.
Qed.

(** X11.  On the selection that a chain of builder calls yields from a
    fresh one, [params['limit']], [params['period']], [meta['metrics']]
    and [meta['single']] hold what the last call that sets them has
    stored, and are absent when no call did: a period call with no
    metrics, an empty list or an empty name keeps the metrics chosen
    before.  [meta['since']] and [meta['until']] always hold instants. *)
Theorem chain_last_call_wins c e bs w s' w' :
  (Selection_init C c e ≫= chain C bs) w = (Ret s', w') →
  ∃ m' p',
    meta_of w' s' = Some m' ∧ params_of w' s' = Some p' ∧
    p' !! "limit" = last (omap set_limit bs) ∧
    p' !! "period" = last (omap set_period bs) ∧
    m' !! "metrics" = last (omap set_metrics bs) ∧
    m' !! "single" = last (omap set_single bs) ∧
    ∃ a b, m' !! "since" = Some (VTime a) ∧ m' !! "until" = Some (VTime b).
Proof.
  destruct (Selection_init_bind C (chain C bs) c e w)
    as (s&o&w1&->&Hf&_&_&_&_&HO&Hm&Hp&_).
  intros Hchain.
  edestruct (chain_run bs w1 s o) as (o'&m'&p'&Ho'&Hm'&Hp'&_&_&_&Heff&_);
    [by rewrite HO, lookup_insert_eq|exact Hm|exact Hp|exact Hchain|].
  exists m', p'. unfold meta_of, params_of. rewrite Ho'.
  cbn [mbind option_bind]. split_and!; try done.
  - rewrite (chain_effect_last (λ _ p, p !! "limit") set_limit
               (λ now b m p m' p' H, proj1 (builder_effect_keys _ _ _ _ _ _ H))
               _ _ _ _ _ _ Heff).
    by destruct (last _).
  - rewrite (chain_effect_last (λ _ p, p !! "period") set_period
               (λ now b m p m' p' H,
                  proj1 (proj2 (builder_effect_keys _ _ _ _ _ _ H)))
               _ _ _ _ _ _ Heff).
    by destruct (last _).
  - rewrite (chain_effect_last (λ m _, m !! "metrics") set_metrics
               (λ now b m p m' p' H,
                  proj1 (proj2 (proj2 (builder_effect_keys _ _ _ _ _ _ H))))
               _ _ _ _ _ _ Heff).
    by destruct (last _).
  - rewrite (chain_effect_last (λ m _, m !! "single") set_single
               (λ now b m p m' p' H,
                  proj1 (proj2 (proj2 (proj2
                    (builder_effect_keys _ _ _ _ _ _ H)))))
               _ _ _ _ _ _ Heff).
    by destruct (last _).
  - edestruct (chain_effect_inv
                 (λ m _, (∃ t, m !! "since" = Some (VTime t)) ∧
                         (∃ t, m !! "until" = Some (VTime t))))
      as [[a Ha] [b Hb]]; [|exact Heff| |by exists a, b].
    + intros now b m p m1 p1 H [H1 H2].
      destruct (builder_effect_keys _ _ _ _ _ _ H) as (_&_&_&_&K1&K2).
      auto.
    + split; eexists; [by rewrite lookup_insert_eq|].
      rewrite lookup_insert_ne by done. by rewrite lookup_singleton_eq.
Qed.

(** X12.  [range] with an [until] of its own commutes with [latest] and
    with the period calls: when the two calls in one order return, they
    return in the other order too, the two results have the same [meta]
    and the same [params], and [get] cannot tell them apart. *)
Theorem range_commutes w s o m p since until b s1 w1 :
  w_objs w !! s = Some o →
  w_dicts w !! meta o = Some m →
  w_dicts w !! params o = Some p →
  date_truthy (Some until) = true →
  is_range b = false →
  chain C [Range since (Some until); b] s w = (Ret s1, w1) →
  ∃ s2 w2 m' p',
    chain C [b; Range since (Some until)] s w = (Ret s2, w2) ∧
    meta_of w1 s1 = Some m' ∧ meta_of w2 s2 = Some m' ∧
    params_of w1 s1 = Some p' ∧ params_of w2 s2 = Some p' ∧
    ∀ fuel, same_run (Selection_get C fuel s1 w1)
                     (Selection_get C fuel s2 w2).
Proof.
  intros Ho Hm Hp _ Hb H1.
  destruct (chain_run _ w s o m p s1 w1 Ho Hm Hp H1)
    as (o1&m1&p1&_&_&_&_&_&_&Heff1&Hall).
  apply (chain_same [Range since (Some until); b] _ w s o m p s1 w1
           Ho Hm Hp H1).
  - rewrite Heff1. by apply chain_effect_commute.
  - apply Forall_cons in Hall as [? [? _]%Forall_cons]. by repeat constructor.
Qed.

(** X13.  A [range] with an [until] of its own, called on the result of
    a [range] or [since], replaces that call entirely: the selection has
    the [meta] and [params] of the later call made alone, and [get]
    cannot tell the two apart. *)
Theorem range_overrides w s o m p r since until s1 w1 :
  w_objs w !! s = Some o →
  w_dicts w !! meta o = Some m →
  w_dicts w !! params o = Some p →
  is_range r = true →
  date_truthy (Some until) = true →
  chain C [r; Range since (Some until)] s w = (Ret s1, w1) →
  ∃ s2 w2 m' p',
    chain C [Range since (Some until)] s w = (Ret s2, w2) ∧
    meta_of w1 s1 = Some m' ∧ meta_of w2 s2 = Some m' ∧
    params_of w1 s1 = Some p' ∧ params_of w2 s2 = Some p' ∧
    ∀ fuel, same_run (Selection_get C fuel s1 w1)
                     (Selection_get C fuel s2 w2).
Proof.
  intros Ho Hm Hp Hr _ H1.
  destruct (chain_run _ w s o m p s1 w1 Ho Hm Hp H1)
    as (o1&m1&p1&_&_&_&_&_&_&Heff1&Hall).
  apply (chain_same [r; Range since (Some until)] _ w s o m p s1 w1
           Ho Hm Hp H1).
  - rewrite Heff1. by apply chain_effect_override with r.
  - apply Forall_cons in Hall as [_ Hall]. exact Hall.
Qed.

End Chains.

(** ** The request of [post.insights] *)

Section Wiring.

Context (C : Collab).

Lemma Post_init_ret account raw post :
  Post_init C account raw = Ret post →
  post_id post = r_id raw ∧
  post_graph post = partial (edge_graph account) (r_id raw).
Proof.
  unfold Post_init. osimpl.
  destruct (date_parse C (r_created_time raw)); [|done]. osimpl.
  destruct (date_parse C (r_updated_time raw)); [|done]. osimpl.
  destruct (match r_picture raw with Some _ => _ | None => _ end);
    try done. osimpl.
  by intros [= <-].
Qed.

Lemma period_builder_effect now b per m p :
  set_period b = Some per →
  builder_effect C now b m p
  = (Ret tt, metrics_effect (builder_metrics b) m, <["period" := per]> p) ∧
  has_method InsightsSelection (builder_name b) = true.
Proof. destruct b; try done; by intros [= <-]. Qed.

(** X14.  [post.insights], narrowed by a period call with metrics and
    then fetched, sends exactly one request: a batch on the handle of the
    account scoped to the id of the post, with one sub-request per metric
    and the parameters [page = False] and the period. *)
Theorem Post_insights_request account raw post b per l w :
  Post_init C account raw = Ret post →
  set_period b = Some per →
  set_metrics b = Some (VStrs l) →
  w_calls ((s ← Post_insights C post;
            s ← call C b s;
            InsightsSelection_get C s) w).2
  = w_calls w
    ++ [GraphAll (edge_graph account ++ [r_id raw]) "insights" l
          (<["period" := per]> {[ "page" := VBool false ]})].
Proof.
  intros [Hid Hgraph]%Post_init_ret Hper Hset.
  unfold Post_insights. rewrite Hid, Hgraph. unfold partial.
  destruct (Selection_init_bind C
              (λ s, s ← call C b s; InsightsSelection_get C s)
              InsightsSelection
              (PostEdge (r_id raw) (edge_graph account ++ [r_id raw])) w)
    as (s&o&w1&->&Hf&_&_&_&_&HO&Hm&Hp&Hcls&Hedge&_).
  assert (Ho : w_objs w1 !! s = Some o) by (by rewrite HO, lookup_insert_eq).
  rewrite bind_run.
  destruct (call_run C b w1 s o _ _ Ho Hm Hp) as (r&w2&->&H).
  destruct (period_builder_effect (w_now w1) b per
              {[ "since" := VTime (COMMON_ERA C); "until" := VTime (w_now w) ]}
              {[ "page" := VBool false ]} Hper) as [Heff Hmeth].
  rewrite Hcls, Hmeth, Heff in H. destruct H as [Hf2 H].
  destruct H as (c&oc&->&_&Hoc&_&_&_&Hmc&Hpc&_&Hedgec&_).
  rewrite (InsightsSelection_get_run C w2 c oc _ _ Hoc Hmc Hpc).
  assert (m_metrics :
    metrics_effect (builder_metrics b)
      {[ "since" := VTime (COMMON_ERA C); "until" := VTime (w_now w) ]}
      !! "metrics" = Some (VStrs l)).
  { destruct (builder_effect_keys C _ _ _ _ _ _ Heff) as (_&_&->&_).
    by rewrite Hset. }
  unfold span_days, has_range.
  rewrite !bool_decide_eq_false_2
    by (rewrite lookup_insert_ne, lookup_singleton_ne by done; by intros [? ?]).
  cbn [orb]. change (31 * 3 <? 3)%Z with false. cbv iota.
  unfold fetch. rewrite m_metrics, Hedgec, Hedge. cbn [edge_graph].
  assert (w_calls w2 = w_calls w) as Hcalls.
  { destruct Hf as (_&_&_&Hc1). destruct Hf2 as (_&_&_&Hc2). congruence. }
  destruct (graph_all_insights C _ _ _ _); cbn [snd log_call w_calls];
    by rewrite Hcalls.
Qed.

End Wiring.

(** ** The rows of an answer *)

Section InsightsMore.

Context (C : Collab).

Lemma omapM_Forall2 {A B} (f : A → outcome B) l l' :
  omapM f l = Ret l' → Forall2 (λ a b, f a = Ret b) l l'.
Proof.
  revert l'. induction l as [|a l IH]; intros l'.
  - intros [= <-]. constructor.
  - cbn [omapM]. osimpl. destruct (f a) as [b|e|] eqn:Hb; try done.
    osimpl. destruct (omapM f l) as [bs|e|]; try done. osimpl.
    intros [= <-]. constructor; [done|]. by apply IH.
Qed.

(** *** The pivot *)

Lemma bucket_set_keys data b k v :
  (bucket_set data b k v).*1
  = if bool_decide (b ∈ data.*1) then data.*1 else data.*1 ++ [b].
Proof.
  induction data as [|[b' d] data IH]; [done|].
  cbn [bucket_set]. destruct (decide (b' = b)) as [->|Hne].
  - cbn [fmap list_fmap fst]. rewrite bool_decide_eq_true_2; [done|].
    apply list_elem_of_here.
  - cbn [fmap list_fmap fst] in *. rewrite IH.
    destruct (bool_decide (b ∈ data.*1)) eqn:Hin.
    + apply bool_decide_eq_true_1 in Hin.
      rewrite bool_decide_eq_true_2; [done|]. by apply list_elem_of_further.
    + apply bool_decide_eq_false_1 in Hin.
      rewrite bool_decide_eq_false_2; [done|].
      intros [?|?]%elem_of_cons; congruence.
Qed.

Lemma bucket_set_NoDup data b k v :
  NoDup data.*1 → NoDup (bucket_set data b k v).*1.
Proof.
  intros Hnd. rewrite bucket_set_keys. case_bool_decide as Hin; [done|].
  apply NoDup_app. split_and!; [done| |apply NoDup_singleton].
  intros x Hx ->%list_elem_of_singleton. done.
Qed.

Lemma bucket_set_sub data b k v x :
  x ∈ data.*1 ∨ x = b → x ∈ (bucket_set data b k v).*1.
Proof.
  rewrite bucket_set_keys. case_bool_decide as Hin.
  - by intros [?| ->].
  - rewrite elem_of_app, list_elem_of_singleton. tauto.
Qed.

Lemma bucket_set_held src data b k v :
  held src data → src k b v → held src (bucket_set data b k v).
Proof.
  intros Hd Hs. induction data as [|[b' d] data IH].
  - intros b0 d0 k0 j0 [= -> ->]%list_elem_of_singleton.
    intros [-> ->]%lookup_singleton_Some. done.
  - cbn [bucket_set]. destruct (decide (b' = b)) as [->|Hne].
    + intros b0 d0 k0 j0 [[= -> ->]|Hin]%elem_of_cons.
      * rewrite lookup_insert. case_decide as Hk.
        -- intros [= <-]. by subst.
        -- apply Hd. apply list_elem_of_here.
      * apply Hd. by apply list_elem_of_further.
    + intros b0 d0 k0 j0 [[= -> ->]|Hin]%elem_of_cons.
      * apply Hd. apply list_elem_of_here.
      * apply IH; [|done].
        intros ? ? ? ? ?. apply Hd. by apply list_elem_of_further.
Qed.

Lemma pivot_rows_inv src k rows :
  ∀ data data',
  pivot_rows C k rows data = Ret data' →
  NoDup data.*1 → held src data →
  (∀ vr b, vr ∈ rows → bucket_of C vr = Ret b → src k b (vr_value vr)) →
  NoDup data'.*1 ∧ held src data' ∧
  (∀ x, x ∈ data.*1 → x ∈ data'.*1) ∧
  (∀ vr, vr ∈ rows → ∃ b, bucket_of C vr = Ret b ∧ b ∈ data'.*1).
Proof.
  induction rows as [|vr rows IH]; intros data data'.
  - intros [= <-] Hnd Hh _. split_and!; try done.
    intros vr Hvr. by apply elem_of_nil in Hvr.
  - cbn [pivot_rows]. osimpl.
    destruct (bucket_of C vr) as [b|e|] eqn:Hb; try done. osimpl.
    intros Hp Hnd Hh Hsrc.
    destruct (IH _ _ Hp) as (Hnd' & Hh' & Hsub & Hall).
    + by apply bucket_set_NoDup.
    + apply bucket_set_held; [done|]. apply Hsrc; [apply list_elem_of_here|done].
    + intros vr' b' Hin. apply Hsrc. by apply list_elem_of_further.
    + split_and!; try done.
      * intros x Hx. apply Hsub, bucket_set_sub. by left.
      * intros vr' [->|Hin]%elem_of_cons; [|by apply Hall].
        exists b. split; [done|]. apply Hsub, bucket_set_sub. by right.
Qed.

Lemma pivot_inv src dss :
  ∀ fields data fields' data',
  pivot C dss fields data = Ret (fields', data') →
  NoDup data.*1 → held src data →
  (∀ ds vr b, ds ∈ dss → vr ∈ ds_values ds → bucket_of C vr = Ret b →
              src (ds_name ds) b (vr_value vr)) →
  fields' = fields ++ (ds_name <$> dss) ∧
  NoDup data'.*1 ∧ held src data' ∧
  (∀ x, x ∈ data.*1 → x ∈ data'.*1) ∧
  (∀ ds vr, ds ∈ dss → vr ∈ ds_values ds →
            ∃ b, bucket_of C vr = Ret b ∧ b ∈ data'.*1).
Proof.
  induction dss as [|ds dss IH]; intros fields data fields' data'.
  - intros [= <- <-] Hnd Hh _. rewrite app_nil_r. split_and!; try done.
    intros ds vr Hds. by apply elem_of_nil in Hds.
  - cbn [pivot]. osimpl.
    destruct (pivot_rows C _ _ data) as [data1|e|] eqn:Hrows; try done.
    osimpl. intros Hp Hnd Hh Hsrc.
    destruct (pivot_rows_inv src _ _ _ _ Hrows Hnd Hh)
      as (Hnd1 & Hh1 & Hsub1 & Hall1).
    { intros vr b Hvr. apply Hsrc; [apply list_elem_of_here|done]. }
    destruct (IH _ _ _ _ Hp Hnd1 Hh1) as (-> & Hnd' & Hh' & Hsub' & Hall').
    { intros ds' vr b Hds. apply Hsrc. by apply list_elem_of_further. }
    split_and!; try done.
    + cbn [fmap list_fmap]. by rewrite <- app_assoc.
    + auto.
    + intros ds' vr [->|Hds]%elem_of_cons Hvr; [|by eapply Hall'].
      destruct (Hall1 vr Hvr) as (b & Hb & Hin). exists b. auto.
Qed.

(** *** [namedtuple] *)

Lemma check_fields_NoDup fields seen :
  check_fields fields seen = Ret tt →
  NoDup fields ∧ ∀ x, x ∈ fields → x ∉ seen.
Proof.
  revert seen. induction fields as [|name fields IH]; intros seen.
  - intros _. split; [constructor|]. intros x Hx. by apply elem_of_nil in Hx.
  - cbn [check_fields]. intros H.
    assert ((name ∉ seen) ∧ check_fields fields (name :: seen) = Ret tt)
      as [Hname Hrest].
    { repeat case_match; try done; by case_bool_decide. }
    destruct (IH _ Hrest) as [Hnd Hseen]. split.
    + constructor; [|done]. intros Hin. apply (Hseen _ Hin).
      apply list_elem_of_here.
    + intros x [->|Hx]%elem_of_cons; [done|].
      intros Hin. apply (Hseen _ Hx). by apply list_elem_of_further.
Qed.

Lemma namedtuple_ret fields fields' :
  namedtuple fields = Ret fields' → fields' = fields ∧ NoDup fields.
Proof.
  unfold namedtuple. osimpl.
  destruct (omapM check_name _) as [?|?|]; try done. osimpl.
  destruct (check_fields fields []) as [[]|?|] eqn:Hc; try done. osimpl.
  case_bool_decide; [done|].
  intros [= <-]. split; [done|]. by apply check_fields_NoDup in Hc as [? _].
Qed.

Lemma check_name_cases name :
  name ≠ "" → check_name name = Ret tt ∨ check_name name = Raise ValueError.
Proof.
  intros Hne. unfold check_name. destruct name as [|a name]; [done|].
  repeat case_match; auto.
Qed.

Lemma check_names_cases names :
  Forall (λ n, n ≠ "") names →
  (∃ u, omapM check_name names = Ret u)
  ∨ omapM check_name names = Raise ValueError.
Proof.
  induction 1 as [|name names Hne _ IH]; [left; by eexists|].
  cbn [omapM]. osimpl.
  destruct (check_name_cases name Hne) as [-> | ->]; [|by right]. osimpl.
  destruct IH as [[u ->]| ->]; [left; by eexists|by right].
Qed.

Lemma check_fields_cases fields seen :
  check_fields fields seen = Ret tt
  ∨ check_fields fields seen = Raise ValueError.
Proof.
  revert seen. induction fields as [|name fields IH]; intros seen; [by left|].
  cbn [check_fields]. repeat case_match; auto.
Qed.

Lemma namedtuple_duplicate fields :
  Forall (λ n, n ≠ "") fields → ¬ NoDup fields →
  namedtuple fields = Raise ValueError.
Proof.
  intros Hne Hdup. unfold namedtuple. osimpl.
  destruct (check_names_cases ("Row" :: fields)) as [[u ->]| ->];
    [by constructor| |done].
  osimpl. destruct (check_fields_cases fields []) as [Hc| ->]; [|done].
  by apply check_fields_NoDup in Hc as [? _].
Qed.

(** *** Rows *)

Lemma make_cells_ret t (values : gmap string json) names cells :
  omapM (λ f, if String.eqb f "end_time" then Ret (CBucket t)
              else match values !! f with
                   | Some v => Ret (CJson v)
                   | None => Raise TypeError
                   end) names = Ret cells →
  "end_time" ∉ names →
  ∃ js, cells = CJson <$> js ∧
        Forall2 (λ f j, values !! f = Some j) names js.
Proof.
  revert cells. induction names as [|f names IH]; intros cells.
  - intros [= <-] _. exists []. split; [done|constructor].
  - cbn [omapM]. osimpl. intros H Hnot.
    apply not_elem_of_cons in Hnot as [Hf Hnot].
    destruct (String.eqb_spec f "end_time") as [->|_]; [done|].
    destruct (values !! f) as [v|] eqn:Hv; [|done]. osimpl.
    destruct (omapM _ names) as [cs|e|] eqn:Hcs; try done. osimpl.
    injection H as <-. destruct (IH cs eq_refl Hnot) as (js & -> & HF).
    exists (v :: js). split; [done|]. by constructor.
Qed.

Lemma make_row_ret names t values r :
  make_row ("end_time" :: names) t values = Ret r →
  "end_time" ∉ names →
  ∃ js, r = row_of names t js ∧
        Forall2 (λ f j, values !! f = Some j) names js.
Proof.
  unfold make_row. repeat case_match; try done.
  cbn [omapM]. osimpl. cbn [String.eqb Ascii.eqb Bool.eqb]. osimpl.
  destruct (omapM _ names) as [cs|e|] eqn:Hcs; try done. osimpl.
  intros [= <-] Hnot. destruct (make_cells_ret _ _ _ _ Hcs Hnot) as (js & -> & HF).
  by exists js.
Qed.

Lemma make_rows_ret src names (l : list (bucket * gmap string json)) rows :
  Forall2 (λ tv r, make_row ("end_time" :: names) tv.1 tv.2 = Ret r) l rows →
  "end_time" ∉ names → held src l →
  ∃ brs : list (bucket * list json),
    rows = (λ r, row_of names r.1 r.2) <$> brs ∧ brs.*1 = l.*1 ∧
    Forall (λ r, Forall2 (λ name j, src name r.1 j) names r.2) brs.
Proof.
  intros HF Hnot. induction HF as [|[b d] r l rows Hr _ IH]; intros Hh.
  - by exists [].
  - destruct IH as (brs & -> & Hk & Hs).
    { intros ? ? ? ? ?. apply Hh. by apply list_elem_of_further. }
    destruct (make_row_ret _ _ _ _ Hr Hnot) as (js & -> & Hjs).
    exists ((b, js) :: brs). cbn [fmap list_fmap fst snd].
    split_and!; [done|by f_equal|]. constructor; [|done].
    cbn [fst snd]. eapply Forall2_impl; [exact Hjs|].
    intros f j Hj. eapply Hh; [apply list_elem_of_here|done].
Qed.

Lemma held_perm src l l' : l ≡ₚ l' → held src l' → held src l.
Proof. intros Hp Hh b d k j Hin. apply Hh. by rewrite <- Hp. Qed.

Lemma table_of_rows rs rows :
  table_of C (OneResult <$> rs) = Ret rows →
  let dss := concat (result_data <$> rs) in
  let names := ds_name <$> dss in
  NoDup ("end_time" :: names) ∧
  ∃ brs : list (bucket * list json),
    rows = (λ r, row_of names r.1 r.2) <$> brs ∧
    NoDup brs.*1 ∧
    Forall (λ r, Forall2 (λ name j, reported C dss name r.1 j) names r.2)
           brs ∧
    (∀ ds vr, ds ∈ dss → vr ∈ ds_values ds →
              ∃ b, bucket_of C vr = Ret b ∧ b ∈ brs.*1).
Proof.
  intros H dss names. unfold table_of in H.
  rewrite omapM_result_datasets in H. revert H. osimpl. fold dss.
  destruct (pivot C dss ["end_time"] []) as [[fields data]|e|] eqn:Hp;
    try done. osimpl.
  destruct (pivot_inv (reported C dss) _ _ _ _ _ Hp)
    as (-> & Hnd & Hh & _ & Hall).
  { constructor. }
  { intros ? ? ? ? Hin. by apply elem_of_nil in Hin. }
  { intros ds vr b Hds Hvr Hb. by exists ds, vr. }
  cbn [app]. fold names.
  destruct (namedtuple ("end_time" :: names)) as [fields|e|] eqn:Hnt;
    try done. osimpl.
  apply namedtuple_ret in Hnt as [-> Hnames].
  intros Hrows%omapM_Forall2. split; [done|].
  apply NoDup_cons in Hnames as [Hnot _].
  pose proof (dict_order_perm C data) as Hperm.
  destruct (make_rows_ret (reported C dss) _ _ _ Hrows Hnot)
    as (brs & -> & Hk & Hs).
  { by apply (held_perm _ _ _ Hperm). }
  exists brs. split_and!; try done.
  - rewrite Hk, Hperm. done.
  - intros ds vr Hds Hvr. destruct (Hall ds vr Hds Hvr) as (b & Hb & Hin).
    exists b. split; [done|]. by rewrite Hk, Hperm.
Qed.

Lemma get_batched w s o m p ms rs days :
  w_objs w !! s = Some o →
  w_dicts w !! meta o = Some m →
  w_dicts w !! params o = Some p →
  span_days m p = Ret days → (days ≤ 93)%Z →
  m !! "metrics" = Some (VStrs ms) →
  graph_all_insights C (w_calls w) (edge_graph (sel_edge o)) ms p
    = Reply rs →
  InsightsSelection_get C s w
  = (rows_of C m (OneResult <$> rs),
     log_call (GraphAll (edge_graph (sel_edge o)) "insights" ms p) w).
Proof.
  intros Ho Hm Hp Hspan Hdays Hms Hreply.
  rewrite (InsightsSelection_get_run C w s o m p Ho Hm Hp), Hspan.
  rewrite (proj2 (Z.ltb_ge _ _)) by (change (31 * 3)%Z with 93%Z; lia).
  unfold fetch. by rewrite Hms, Hreply.
Qed.

Lemma get_batched_ret w s o m p ms rs l :
  w_objs w !! s = Some o →
  w_dicts w !! meta o = Some m →
  w_dicts w !! params o = Some p →
  m !! "metrics" = Some (VStrs ms) →
  graph_all_insights C (w_calls w) (edge_graph (sel_edge o)) ms p
    = Reply rs →
  (InsightsSelection_get C s w).1 = Ret l →
  rows_of C m (OneResult <$> rs) = Ret l.
Proof.
  intros Ho Hm Hp Hms Hreply.
  rewrite (InsightsSelection_get_run C w s o m p Ho Hm Hp).
  destruct (span_days m p) as [days|e|]; try done.
  destruct (31 * 3 <? days)%Z; [done|].
  unfold fetch. by rewrite Hms, Hreply.
Qed.

Lemma shape_rows m rows v :
  m !! "single" = Some v → truthy v = false →
  shape m rows = Ret (IRow <$> rows).
Proof. unfold shape, getitem. intros -> Ht. osimpl. by rewrite Ht. Qed.

(** X15.  When the metrics were given as a list and [get] returns: the
    names of the datasets of the answer are distinct and none is
    [end_time]; every row has the fields [end_time] and then those names,
    in the order of the answer, with one value each; no two rows have the
    same [end_time]; a value that a row shows for a metric is one that a
    dataset of that name holds for the bucket of the row; and every
    bucket of the answer has its row. *)
Theorem InsightsSelection_get_rows w s o m p ms rs v l :
  w_objs w !! s = Some o →
  w_dicts w !! meta o = Some m →
  w_dicts w !! params o = Some p →
  m !! "metrics" = Some (VStrs ms) →
  m !! "single" = Some v → truthy v = false →
  graph_all_insights C (w_calls w) (edge_graph (sel_edge o)) ms p
    = Reply rs →
  (InsightsSelection_get C s w).1 = Ret l →
  let dss := concat (result_data <$> rs) in
  let names := ds_name <$> dss in
  NoDup ("end_time" :: names) ∧
  ∃ brs : list (bucket * list json),
    l = (λ r, IRow (row_of names r.1 r.2)) <$> brs ∧
    NoDup brs.*1 ∧
    Forall (λ r, Forall2 (λ name j, reported C dss name r.1 j) names r.2)
           brs ∧
    (∀ ds vr, ds ∈ dss → vr ∈ ds_values ds →
              ∃ b, bucket_of C vr = Ret b ∧ b ∈ brs.*1).
Proof.
  intros Ho Hm Hp Hms Hs Ht Hreply Hget dss names.
  apply (get_batched_ret w s o m p ms rs l Ho Hm Hp Hms Hreply) in Hget.
  unfold rows_of in Hget.
  destruct (table_of C (OneResult <$> rs)) as [rows|e|] eqn:Htab; try done.
  revert Hget. osimpl. rewrite (shape_rows m rows v Hs Ht). intros [= <-].
  destruct (table_of_rows rs rows Htab) as (Hnd & brs & -> & Hk & Hrep & Hall).
  split; [done|]. exists brs. split_and!; try done.
  by rewrite <- list_fmap_compose.
Qed.

(** *** Answers that pivot without a failure *)

Lemma pivot_rows_total k rows data :
  (∀ vr, vr ∈ rows → ∃ b, bucket_of C vr = Ret b) →
  ∃ data', pivot_rows C k rows data = Ret data'.
Proof.
  revert data. induction rows as [|vr rows IH]; intros data Hall.
  - by exists data.
  - cbn [pivot_rows]. osimpl.
    destruct (Hall vr) as [b ->]; [apply list_elem_of_here|]. osimpl.
    apply IH. intros vr' Hin. apply Hall. by apply list_elem_of_further.
Qed.

Lemma pivot_total dss fields data :
  (∀ ds vr, ds ∈ dss → vr ∈ ds_values ds → ∃ b, bucket_of C vr = Ret b) →
  ∃ data', pivot C dss fields data = Ret (fields ++ (ds_name <$> dss), data').
Proof.
  revert fields data. induction dss as [|ds dss IH]; intros fields data Hall.
  - exists data. by rewrite app_nil_r.
  - cbn [pivot]. osimpl.
    destruct (pivot_rows_total (ds_name ds) (ds_values ds) data) as [d1 ->].
    { intros vr. apply Hall, list_elem_of_here. }
    osimpl. destruct (IH (fields ++ [ds_name ds]) d1) as [d2 ->].
    { intros ds' vr Hin. apply Hall. by apply list_elem_of_further. }
    exists d2. cbn [fmap list_fmap]. by rewrite <- app_assoc.
Qed.

Lemma pivot_no_values dss fields data :
  Forall (λ ds, ds_values ds = []) dss →
  pivot C dss fields data = Ret (fields ++ (ds_name <$> dss), data).
Proof.
  intros Hall. revert fields.
  induction Hall as [|ds dss Hds _ IH]; intros fields.
  - by rewrite app_nil_r.
  - cbn [pivot]. rewrite Hds. cbn [pivot_rows]. osimpl.
    rewrite IH. cbn [fmap list_fmap]. by rewrite <- app_assoc.
Qed.

(** X16.  When two datasets of the answer have the same name, or one is
    named [end_time], [get] raises [ValueError], after the request has
    been sent. *)
Theorem InsightsSelection_get_duplicate_metric w s o m p ms rs days :
  w_objs w !! s = Some o →
  w_dicts w !! meta o = Some m →
  w_dicts w !! params o = Some p →
  span_days m p = Ret days → (days ≤ 93)%Z →
  m !! "metrics" = Some (VStrs ms) →
  graph_all_insights C (w_calls w) (edge_graph (sel_edge o)) ms p
    = Reply rs →
  let dss := concat (result_data <$> rs) in
  let names := ds_name <$> dss in
  (∀ ds vr, ds ∈ dss → vr ∈ ds_values ds → ∃ b, bucket_of C vr = Ret b) →
  Forall (λ n, n ≠ "") names →
  ¬ NoDup ("end_time" :: names) →
  InsightsSelection_get C s w
  = (Raise ValueError,
     log_call (GraphAll (edge_graph (sel_edge o)) "insights" ms p) w).
Proof.
  intros Ho Hm Hp Hspan Hdays Hms Hreply dss names Hb Hne Hdup.
  rewrite (get_batched w s o m p ms rs days) by done. f_equal.
  unfold rows_of, table_of. rewrite omapM_result_datasets. osimpl.
  fold dss. destruct (pivot_total dss ["end_time"] [] Hb) as [data ->]. osimpl.
  cbn [app]. fold names. rewrite namedtuple_duplicate; [done| |done].
  by constructor.
Qed.

Lemma list_getitem_head {A} (x : A) l : list_getitem (x :: l) 0 = Ret x.
Proof. done. Qed.

(** X17.  When no dataset of the answer holds a value and [namedtuple]
    accepts the names of the datasets as fields, [get] returns the empty
    list, for one metric asked for by name as for a list. *)
Theorem InsightsSelection_get_no_values w s o m p x ms rs v days fields :
  w_objs w !! s = Some o →
  w_dicts w !! meta o = Some m →
  w_dicts w !! params o = Some p →
  span_days m p = Ret days → (days ≤ 93)%Z →
  m !! "metrics" = Some (VStrs (x :: ms)) →
  m !! "single" = Some v →
  graph_all_insights C (w_calls w) (edge_graph (sel_edge o)) (x :: ms) p
    = Reply rs →
  let dss := concat (result_data <$> rs) in
  Forall (λ ds, ds_values ds = []) dss →
  namedtuple ("end_time" :: (ds_name <$> dss)) = Ret fields →
  InsightsSelection_get C s w
  = (Ret [],
     log_call (GraphAll (edge_graph (sel_edge o)) "insights" (x :: ms) p) w).
Proof.
  intros Ho Hm Hp Hspan Hdays Hms Hs Hreply dss Hempty Hnt.
  rewrite (get_batched w s o m p (x :: ms) rs days) by done. f_equal.
  unfold rows_of, table_of. rewrite omapM_result_datasets. osimpl.
  fold dss. rewrite (pivot_no_values dss _ _ Hempty). osimpl.
  cbn [app]. rewrite Hnt. osimpl.
  pose proof (dict_order_perm C []) as ->%Permutation_nil_r.
  cbn [omapM]. osimpl.
  unfold shape, getitem. rewrite Hs. osimpl.
  destruct (truthy v); [|done]. rewrite Hms. osimpl.
  by rewrite list_getitem_head.
Qed.

(** *** Building a row from a complete bucket *)

Lemma make_cells_total t (values : gmap string json) names js :
  Forall2 (λ f j, values !! f = Some j) names js →
  "end_time" ∉ names →
  omapM (λ f, if String.eqb f "end_time" then Ret (CBucket t)
              else match values !! f with
                   | Some v => Ret (CJson v)
                   | None => Raise TypeError
                   end) names = Ret (CJson <$> js).
Proof.
  induction 1 as [|f j names js Hj _ IH]; [done|].
  intros [Hf Hnot]%not_elem_of_cons. cbn [omapM]. osimpl.
  destruct (String.eqb_spec f "end_time") as [->|_]; [done|].
  rewrite Hj. osimpl. by rewrite IH.
Qed.

Lemma make_row_total names t (values : gmap string json) js :
  "end_time" ∉ names →
  (∀ k, is_Some (values !! k) → k ∈ names) →
  Forall2 (λ f j, values !! f = Some j) names js →
  make_row ("end_time" :: names) t values = Ret (row_of names t js).
Proof.
  intros Hnot Hdom Hjs. unfold make_row.
  rewrite bool_decide_eq_false_2 by (intros H; by apply Hdom in H).
  assert (forallb (λ k, bool_decide (k ∈ "end_time" :: names))
                  (elements (dom values)) = true) as ->.
  { apply forallb_forall. intros k Hk%list_elem_of_In%elem_of_elements.
    apply bool_decide_eq_true_2, list_elem_of_further, Hdom.
    by apply elem_of_dom. }
  cbn [negb omapM]. osimpl. cbn [String.eqb Ascii.eqb Bool.eqb]. osimpl.
  by rewrite (make_cells_total t values names js).
Qed.

Lemma omapM_fmap_ret {A B} (f : A → outcome B) (g : A → B) l :
  (∀ a, a ∈ l → f a = Ret (g a)) → omapM f l = Ret (g <$> l).
Proof.
  induction l as [|a l IH]; intros H; [done|].
  cbn [omapM]. osimpl. rewrite (H a) by apply list_elem_of_here. osimpl.
  rewrite IH; [done|]. intros a' Ha'. apply H. by apply list_elem_of_further.
Qed.

(** *** Lifetime values: one bucket *)

Lemma pivot_rows_lifetime k rows d :
  Forall (λ vr, bucket_of C vr = Ret BLifetime) rows →
  pivot_rows C k rows [(BLifetime, d)]
  = Ret [(BLifetime,
          from_option (λ vr, <[k := vr_value vr]> d) d (last rows))].
Proof.
  intros Hall. revert d. induction Hall as [|vr rows Hvr _ IH]; intros d.
  - done.
  - cbn [pivot_rows]. rewrite Hvr. osimpl. cbn [bucket_set].
    rewrite decide_True by done. rewrite IH, last_cons.
    destruct (last rows) as [y|]; cbn [from_option]; [|done].
    by rewrite insert_insert_eq.
Qed.

Lemma pivot_rows_lifetime_first k vr rows :
  Forall (λ vr, bucket_of C vr = Ret BLifetime) (vr :: rows) →
  pivot_rows C k (vr :: rows) []
  = Ret [(BLifetime,
          from_option (λ vr, <[k := vr_value vr]> ∅) ∅ (last (vr :: rows)))].
Proof.
  intros [Hvr Hall]%Forall_cons.
  cbn [pivot_rows]. rewrite Hvr. osimpl. cbn [bucket_set].
  rewrite (pivot_rows_lifetime k rows _ Hall), last_cons.
  destruct (last rows) as [y|]; cbn [from_option]; [|done].
  by rewrite insert_singleton_eq.
Qed.

Lemma pivot_lifetime dss js :
  Forall2 (λ ds j, vr_value <$> last (ds_values ds) = Some j) dss js →
  Forall (λ ds, Forall (λ vr, bucket_of C vr = Ret BLifetime) (ds_values ds))
         dss →
  ∀ fields d,
    pivot C dss fields [(BLifetime, d)]
    = Ret (fields ++ (ds_name <$> dss),
           [(BLifetime, put_all d (zip (ds_name <$> dss) js))]).
Proof.
  induction 1 as [|ds j dss js Hj _ IH]; intros Hall fields d.
  - by rewrite app_nil_r.
  - apply Forall_cons in Hall as [Hds Hall].
    cbn [pivot]. rewrite (pivot_rows_lifetime _ _ _ Hds). osimpl.
    rewrite (IH Hall). cbn [fmap list_fmap zip zip_with put_all foldl fst snd].
    rewrite <- app_assoc. cbn [app].
    destruct (last (ds_values ds)) as [y|]; [|done].
    injection Hj as <-. done.
Qed.

Lemma pivot_lifetime_first dss js :
  dss ≠ [] →
  Forall2 (λ ds j, vr_value <$> last (ds_values ds) = Some j) dss js →
  Forall (λ ds, Forall (λ vr, bucket_of C vr = Ret BLifetime) (ds_values ds))
         dss →
  ∀ fields,
    pivot C dss fields []
    = Ret (fields ++ (ds_name <$> dss),
           [(BLifetime, put_all ∅ (zip (ds_name <$> dss) js))]).
Proof.
  intros Hne HF Hall fields.
  destruct HF as [|ds j dss js Hj HF]; [done|].
  apply Forall_cons in Hall as [Hds Hall].
  cbn [pivot]. destruct (ds_values ds) as [|vr rows] eqn:Hrows; [done|].
  rewrite (pivot_rows_lifetime_first _ _ _ Hds). osimpl.
  rewrite (pivot_lifetime _ _ HF Hall).
  cbn [fmap list_fmap zip zip_with put_all foldl fst snd].
  rewrite <- app_assoc. cbn [app].
  destruct (last (vr :: rows)) as [y|]; [|done].
  injection Hj as <-. done.
Qed.

Lemma put_all_cons d n j names js :
  put_all d (zip (n :: names) (j :: js)) = put_all (<[n:=j]> d) (zip names js).
Proof. done. Qed.

Lemma put_all_other d names js k :
  k ∉ names → put_all d (zip names js) !! k = d !! k.
Proof.
  revert d js. induction names as [|n names IH]; intros d js Hk; [done|].
  apply not_elem_of_cons in Hk as [Hne Hk].
  destruct js as [|j js]; [done|].
  rewrite put_all_cons, IH by done. by rewrite lookup_insert_ne.
Qed.

Lemma put_all_lookup d names js :
  NoDup names → length names = length js →
  Forall2 (λ n j, put_all d (zip names js) !! n = Some j) names js.
Proof.
  intros Hnd. revert d js.
  induction Hnd as [|n names Hn Hnd IH]; intros d [|j js] Hlen; try done.
  rewrite put_all_cons. constructor.
  - rewrite put_all_other by done. by rewrite lookup_insert_eq.
  - apply IH. by injection Hlen.
Qed.

(** X18.  When no row of the answer has an [end_time] (or only empty
    ones), every dataset holds a value and [namedtuple] accepts the names
    of the datasets as fields, [get] returns exactly one row: its
    [end_time] is ['lifetime'] and, for each metric, it shows the last
    value of the dataset. *)
Theorem InsightsSelection_get_lifetime w s o m p ms rs v days fields js :
  w_objs w !! s = Some o →
  w_dicts w !! meta o = Some m →
  w_dicts w !! params o = Some p →
  span_days m p = Ret days → (days ≤ 93)%Z →
  m !! "metrics" = Some (VStrs ms) →
  m !! "single" = Some v → truthy v = false →
  graph_all_insights C (w_calls w) (edge_graph (sel_edge o)) ms p
    = Reply rs →
  let dss := concat (result_data <$> rs) in
  let names := ds_name <$> dss in
  dss ≠ [] →
  Forall (λ ds, Forall (λ vr, bucket_of C vr = Ret BLifetime) (ds_values ds))
         dss →
  Forall2 (λ ds j, vr_value <$> last (ds_values ds) = Some j) dss js →
  namedtuple ("end_time" :: names) = Ret fields →
  InsightsSelection_get C s w
  = (Ret [IRow (row_of names BLifetime js)],
     log_call (GraphAll (edge_graph (sel_edge o)) "insights" ms p) w).
Proof.
  intros Ho Hm Hp Hspan Hdays Hms Hs Ht Hreply dss names Hne Hlife Hjs Hnt.
  rewrite (get_batched w s o m p ms rs days) by done. f_equal.
  unfold rows_of, table_of. rewrite omapM_result_datasets. osimpl.
  fold dss. rewrite (pivot_lifetime_first dss js Hne Hjs Hlife). osimpl.
  cbn [app]. fold names. rewrite Hnt. osimpl.
  apply namedtuple_ret in Hnt as [-> [Hnot Hnd]%NoDup_cons].
  pose proof (dict_order_perm C
    [(BLifetime, put_all ∅ (zip names js))]) as ->%Permutation_singleton_r.
  cbn [omapM fst snd]. osimpl.
  rewrite (make_row_total names BLifetime _ js); try done.
  - osimpl. by rewrite (shape_rows m _ v Hs Ht).
  - intros k [j Hk]. destruct (decide (k ∈ names)) as [|Hout]; [done|].
    by rewrite put_all_other in Hk.
  - apply put_all_lookup; [done|].
    unfold names. rewrite length_fmap. by eapply Forall2_length.
Qed.

(** *** One metric asked for by name *)

Lemma bucket_set_fresh data b k v :
  b ∉ data.*1 → bucket_set data b k v = data ++ [(b, {[ k := v ]})].
Proof.
  induction data as [|[b' d] data IH]; [done|].
  cbn [fmap list_fmap fst]. intros [Hne Hb]%not_elem_of_cons.
  cbn [bucket_set]. rewrite decide_False by done. by rewrite IH.
Qed.

Lemma pivot_rows_distinct k vrs :
  ∀ bs data,
  omapM (bucket_of C) vrs = Ret bs → NoDup bs →
  (∀ b, b ∈ bs → b ∉ data.*1) →
  pivot_rows C k vrs data
  = Ret (data ++ ((λ vr, (default BLifetime
                            (match bucket_of C vr with
                             | Ret b => Some b | _ => None end),
                          {[ k := vr_value vr ]})) <$> vrs)).
Proof.
  induction vrs as [|vr vrs IH]; intros bs data.
  - intros _ _ _. by rewrite app_nil_r.
  - cbn [omapM pivot_rows]. osimpl.
    destruct (bucket_of C vr) as [b|e|] eqn:Hb; try done. osimpl.
    destruct (omapM _ vrs) as [bs'|e|] eqn:Hbs; try done. osimpl.
    intros [= <-] [Hnew Hnd]%NoDup_cons Hfresh.
    rewrite bucket_set_fresh by (apply Hfresh, list_elem_of_here).
    rewrite (IH bs') ; try done.
    + rewrite <- app_assoc. cbn [fmap list_fmap app]. by rewrite Hb.
    + intros b' Hin. rewrite fmap_app. cbn [fmap list_fmap fst].
      rewrite not_elem_of_app, list_elem_of_singleton. split.
      * apply Hfresh. by apply list_elem_of_further.
      * by intros ->.
Qed.

(** X19.  For one metric asked for by name, when the answer is one
    dataset of that name whose rows have distinct end times and
    [namedtuple] accepts the name as a field, [get] returns the bare
    values of those rows, in the order in which the dictionary yields
    the buckets: some rearrangement of the values. *)
Theorem InsightsSelection_get_single_values
    w s o m p a rs vrs bs v days fields :
  w_objs w !! s = Some o →
  w_dicts w !! meta o = Some m →
  w_dicts w !! params o = Some p →
  span_days m p = Ret days → (days ≤ 93)%Z →
  m !! "metrics" = Some (VStrs [a]) →
  m !! "single" = Some v → truthy v = true →
  graph_all_insights C (w_calls w) (edge_graph (sel_edge o)) [a] p
    = Reply rs →
  concat (result_data <$> rs) = [mkDataset a vrs] →
  omapM (bucket_of C) vrs = Ret bs → NoDup bs →
  namedtuple ["end_time"; a] = Ret fields →
  ∃ l,
    InsightsSelection_get C s w
    = (Ret l,
       log_call (GraphAll (edge_graph (sel_edge o)) "insights" [a] p) w) ∧
    l ≡ₚ (λ vr, IValue (CJson (vr_value vr))) <$> vrs.
Proof.
  intros Ho Hm Hp Hspan Hdays Hms Hs Ht Hreply Hdss Hbs Hnd Hnt.
  rewrite (get_batched w s o m p [a] rs days) by done.
  unfold rows_of, table_of. rewrite omapM_result_datasets. osimpl.
  rewrite Hdss. cbn [pivot ds_name ds_values]. osimpl.
  rewrite (pivot_rows_distinct a vrs bs []) ; try done.
  2:{ intros b _ Hb. by apply elem_of_nil in Hb. }
  osimpl. cbn [app]. rewrite Hnt. osimpl.
  apply namedtuple_ret in Hnt as [-> [Hnot _]%NoDup_cons].
  set (data := (λ vr, _) <$> vrs).
  pose proof (dict_order_perm C data) as Hperm.
  set (val := λ e : bucket * gmap string json, default JNull (e.2 !! a)).
  assert (Hform : ∀ e, e ∈ dict_order C data → e.2 = {[ a := val e ]}).
  { intros e. rewrite Hperm. unfold data.
    intros (vr & -> & _)%list_elem_of_fmap. unfold val. cbn [snd].
    by rewrite lookup_singleton_eq. }
  rewrite (omapM_fmap_ret _ (λ e, row_of [a] e.1 [val e])).
  2:{ intros e He. apply make_row_total; [done| |].
      - intros k. rewrite (Hform e He). intros [j Hj].
        apply lookup_singleton_Some in Hj as [<- _]. apply list_elem_of_here.
      - constructor; [|constructor]. rewrite (Hform e He).
        by rewrite lookup_singleton_eq. }
  osimpl. unfold shape, getitem. rewrite Hs. osimpl. rewrite Ht, Hms. osimpl.
  rewrite list_getitem_head. osimpl.
  rewrite (omapM_fmap_ret _ (λ r, default (CBucket BLifetime)
                                     (row_cells r !! 1))).
  2:{ intros r (e & -> & _)%list_elem_of_fmap.
      unfold row_getattr, row_of. cbn [row_fields row_cells lookup_field].
      destruct (String.eqb_spec "end_time" a) as [<-|_].
      - exfalso. apply Hnot, list_elem_of_here.
      - cbn [fmap list_fmap]. by rewrite String.eqb_refl. }
  osimpl. eexists. split; [reflexivity|].
  rewrite <- !list_fmap_compose, Hperm. unfold data.
  rewrite <- list_fmap_compose.
  erewrite list_fmap_ext; [reflexivity|].
  intros i vr _. unfold val, row_of. cbn [compose fst snd row_cells].
  by rewrite lookup_singleton_eq.
Qed.

(** *** [serialize] on rows *)

Lemma asdict_rows (rows : list Row) :
  omapM asdict (IRow <$> rows)
  = Ret ((λ r, zip (row_fields r) (row_cells r)) <$> rows).
Proof.
  induction rows as [|r rows IH]; [done|].
  cbn [fmap list_fmap omapM asdict] in *. osimpl. by rewrite IH.
Qed.

Lemma get_rows_ret w s o m p v l :
  w_objs w !! s = Some o →
  w_dicts w !! meta o = Some m →
  w_dicts w !! params o = Some p →
  m !! "single" = Some v → truthy v = false →
  (InsightsSelection_get C s w).1 = Ret l →
  ∃ rows : list Row, l = IRow <$> rows.
Proof.
  intros Ho Hm Hp Hs Ht.
  rewrite (InsightsSelection_get_run C w s o m p Ho Hm Hp).
  destruct (span_days m p) as [days|e|]; try done.
  destruct (31 * 3 <? days)%Z; [done|].
  destruct (fetch C _ m p w) as [[results|e|] w']; try done.
  cbn [fst]. unfold rows_of.
  destruct (table_of C results) as [rows|e|]; osimpl; try done.
  rewrite (shape_rows m rows v Hs Ht). intros [= <-]. by exists rows.
Qed.

(** X20.  When the metrics were given as a list, [serialize] returns
    one dictionary for each row of [get], pairing the fields with the
    values, and leaves the world as [get] does; it raises what [get]
    raises. *)
Theorem InsightsSelection_serialize_rows w s o m p v fuel :
  w_objs w !! s = Some o →
  w_dicts w !! meta o = Some m →
  w_dicts w !! params o = Some p →
  cls o = InsightsSelection →
  m !! "single" = Some v → truthy v = false →
  match InsightsSelection_get C s w with
  | (Ret l, w') =>
      ∃ rows : list Row,
        l = IRow <$> rows ∧
        InsightsSelection_serialize C fuel s w
        = (Ret ((λ r, zip (row_fields r) (row_cells r)) <$> rows), w')
  | (Raise e, w') => InsightsSelection_serialize C fuel s w = (Raise e, w')
  | (Diverge, w') => InsightsSelection_serialize C fuel s w = (Diverge, w')
  end.
Proof.
  intros Ho Hm Hp Hcls Hs Ht.
  unfold InsightsSelection_serialize.
  rewrite (method_run _ _ _ _ _ Ho), Hcls.
  change (has_method InsightsSelection "serialize") with true. cbv iota.
  unfold Selection_get. rewrite bind_assoc.
  erewrite read_object_bind by look. rewrite Hcls.
  pose proof (get_rows_ret w s o m p v) as Hrows.
  rewrite bind_run.
  destruct (InsightsSelection_get C s w) as [[l|e|] w'];
    cbn [fst snd] in *; try done.
  destruct (Hrows l) as [rows ->]; try done.
  exists rows. split; [done|]. unfold lift. by rewrite asdict_rows.
Qed.

End InsightsMore.

(** ** On the concrete setting *)

(** X2 on the plain address. *)
Lemma Picture_init_basename_witness :
  Str.contains "/" "dog.png" = false ∧
  ∃ dir, plain_url = dir +:+ "dog.png".
Proof.
  exact (Picture_init_basename [] plain_url plain_picture ltac:(facts)).
Defined.

(** X3 on the plain address and on the proxied one. *)
Lemma Picture_repr_proxied_only_witness :
  Picture_repr plain_picture = Raise (AttributeError "width") ∧
  Picture_repr proxied_picture = Ret "<Picture: cat.jpg (130x90)>".
Proof.
  split.
  - pose proof (Picture_repr_proxied_only [] plain_url "" plain_picture
                  ltac:(facts) ltac:(facts)) as H.
    exact H.
  - pose proof (Picture_repr_proxied_only [] proxied_url
                  "d=AQ&w=130&h=90&url=http%3A%2F%2Fsite.example%2Fimg%2Fcat.jpg&cfs=1"
                  proxied_picture ltac:(facts) ltac:(facts)) as H.
    revert H. vm_compute. intros (w & h & [= <-] & [= <-] & H). exact H.
Defined.

(** X14 on the post [a] of the page, with [daily(['a', 'b'])]. *)
Lemma Post_insights_request_witness :
  w_calls ((s ← Post_insights (demo_insights false)
                   (demo_post (demo_insights false) "a" "30");
            s ← call (demo_insights false) (Daily (Listed ["a"; "b"])) s;
            InsightsSelection_get (demo_insights false) s) demo_world).2
  = [GraphAll ["me"; "a"] "insights" ["a"; "b"]
       (<["period" := VStr "day"]> {[ "page" := VBool false ]})].
Proof.
  exact (Post_insights_request (demo_insights false) demo_page
           (demo_item "a" "30") (demo_post (demo_insights false) "a" "30")
           (Daily (Listed ["a"; "b"])) (VStr "day") ["a"; "b"] demo_world
           ltac:(facts) eq_refl eq_refl).
Defined.

(** X6 on a fresh selection and a feed of one page. *)
Lemma PostSelection_get_all_witness :
  PostSelection_get demo_one_page 2 (sel_of fresh_one) fresh_one.2
  = (Ret [IPost (demo_post demo_one_page "a" "30");
          IPost (demo_post demo_one_page "b" "20")],
     log_calls [GraphGet ["me"] "posts" (params_in fresh_one)] fresh_one.2).
Proof.
  refine (PostSelection_get_all demo_one_page _ _
    (obj_of fresh_one) (meta_in fresh_one) (params_in fresh_one)
    0%Z (VBool false)
    (OnePage (mkPage [demo_item "a" "30"; demo_item "b" "20"]))
    [mkPage [demo_item "a" "30"; demo_item "b" "20"]]
    [demo_post demo_one_page "a" "30"; demo_post demo_one_page "b" "20"]
    2 _ _ _ _ _ _ _ _ _ _ _); try facts.
  repeat constructor; vm_compute; discriminate.
Defined.

(** X7 on a feed whose second item has a proxied picture without
    dimensions. *)
Lemma PostSelection_get_item_fails_witness :
  PostSelection_get demo_bad_picture 1 (sel_of fresh_bad) fresh_bad.2
  = (Raise (KeyError "w"),
     log_calls [GraphGet ["me"] "posts" (params_in fresh_bad)] fresh_bad.2).
Proof.
  refine (PostSelection_get_item_fails demo_bad_picture _ _
    (obj_of fresh_bad) (meta_in fresh_bad) (params_in fresh_bad)
    0%Z (VBool false)
    (OnePage (mkPage [demo_item "a" "30"; demo_bad_item; demo_item "c" "10"]))
    [] (mkPage [demo_item "a" "30"; demo_bad_item; demo_item "c" "10"])
    [demo_item "a" "30"] demo_bad_item [demo_item "c" "10"]
    [demo_post demo_bad_picture "a" "30"] (KeyError "w") 1
    _ _ _ _ _ _ _ _ _ _ _ _ _); try facts.
  - intros [|i] pg; [|done]. by intros [= <-].
  - repeat constructor; vm_compute; discriminate.
Defined.

(** X8 on a fresh selection of posts. *)
Lemma Selection_get_keeps_store_witness :
  appends fresh_one.2
    (Selection_get demo_one_page 1 (sel_of fresh_one) fresh_one.2).2.
Proof.
  pose proof (Selection_get_keeps_store demo_one_page fresh_one.2
    (sel_of fresh_one) (obj_of fresh_one) (meta_in fresh_one)
    (params_in fresh_one) 1 ltac:(facts) ltac:(facts) ltac:(facts))
    as [H _].
  exact H.
Defined.

(** X9: after a first iteration, a second one returns the two posts and
    leaves the world as it is; the log holds the one request. *)
Lemma Selection_iter_memoizes_witness :
  Selection_iter demo_one_page 0 (sel_of fresh_one) first_iter.2
  = (Ret [IPost (demo_post demo_one_page "a" "30");
          IPost (demo_post demo_one_page "b" "20")],
     first_iter.2) ∧
  w_calls first_iter.2
  = [GraphGet ["me"] "posts" {[ "page" := VBool false ]}].
Proof.
  split; [|facts].
  pose proof (Selection_iter_memoizes demo_one_page fresh_one.2
    (sel_of fresh_one) (obj_of fresh_one) (meta_in fresh_one)
    (params_in fresh_one) 0 ltac:(facts) ltac:(facts) ltac:(facts)) as H.
  assert (Selection_iter demo_one_page 0 (sel_of fresh_one) fresh_one.2
          = (Ret [IPost (demo_post demo_one_page "a" "30");
                  IPost (demo_post demo_one_page "b" "20")],
             first_iter.2)) as E by facts.
  rewrite E in H. exact (proj1 H 0).
Defined.

(** X10 on [latest(5)] called on a selection that holds its result. *)
Lemma builder_call_drops_cache_witness :
  results (obj_of iterated)
  = Some [IPost (demo_post demo_one_page "a" "30");
          IPost (demo_post demo_one_page "b" "20")] ∧
  ∃ o', w_objs narrowed.2 !! sel_of narrowed = Some o' ∧ results o' = None.
Proof.
  split; [facts|].
  pose proof (builder_call_drops_cache demo_one_page iterated.2
    (sel_of iterated) (obj_of iterated) (meta_in iterated)
    (params_in iterated) (Latest 5)
    [IPost (demo_post demo_one_page "a" "30");
     IPost (demo_post demo_one_page "b" "20")]
    (sel_of narrowed) narrowed.2
    ltac:(facts) ltac:(facts) ltac:(facts) ltac:(facts) ltac:(facts))
    as [H _].
  exact H.
Defined.

(** X11 on [daily(['a', 'b']).weekly()]: the period is that of the
    second call, the metrics are those of the first. *)
Lemma chain_last_call_wins_witness :
  ∃ m' p',
    meta_of chained_insights.2 (sel_of chained_insights) = Some m' ∧
    params_of chained_insights.2 (sel_of chained_insights) = Some p' ∧
    p' !! "limit" = None ∧
    p' !! "period" = Some (VStr "week") ∧
    m' !! "metrics" = Some (VStrs ["a"; "b"]) ∧
    m' !! "single" = Some (VBool false) ∧
    ∃ a b, m' !! "since" = Some (VTime a) ∧ m' !! "until" = Some (VTime b).
Proof.
  exact (chain_last_call_wins (demo_insights false) InsightsSelection
           demo_page [Daily (Listed ["a"; "b"]); Weekly NoMetrics]
           demo_world (sel_of chained_insights) chained_insights.2
           ltac:(facts)).
Defined.

(** X12 on [range('15', '50')] and [latest(3)]. *)
Lemma range_commutes_witness :
  ∃ s2 w2 m' p',
    chain demo_posts [Latest 3; Range (DStr "15") (Some (DStr "50"))]
      (sel_of fresh_posts) fresh_posts.2 = (Ret s2, w2) ∧
    meta_of ranged_latest.2 (sel_of ranged_latest) = Some m' ∧
    meta_of w2 s2 = Some m' ∧
    params_of ranged_latest.2 (sel_of ranged_latest) = Some p' ∧
    params_of w2 s2 = Some p' ∧
    ∀ fuel,
      same_run
        (Selection_get demo_posts fuel (sel_of ranged_latest) ranged_latest.2)
        (Selection_get demo_posts fuel s2 w2).
Proof.
  exact (range_commutes demo_posts fresh_posts.2 (sel_of fresh_posts)
           (obj_of fresh_posts) (meta_in fresh_posts) (params_in fresh_posts)
           (DStr "15") (DStr "50") (Latest 3)
           (sel_of ranged_latest) ranged_latest.2
           ltac:(facts) ltac:(facts) ltac:(facts) eq_refl eq_refl
           ltac:(facts)).
Defined.

(** X13 on [since('20').range('15', '50')]. *)
Lemma range_overrides_witness :
  ∃ s2 w2 m' p',
    chain demo_posts [Range (DStr "15") (Some (DStr "50"))]
      (sel_of fresh_posts) fresh_posts.2 = (Ret s2, w2) ∧
    meta_of ranged_twice.2 (sel_of ranged_twice) = Some m' ∧
    meta_of w2 s2 = Some m' ∧
    params_of ranged_twice.2 (sel_of ranged_twice) = Some p' ∧
    params_of w2 s2 = Some p' ∧
    ∀ fuel,
      same_run
        (Selection_get demo_posts fuel (sel_of ranged_twice) ranged_twice.2)
        (Selection_get demo_posts fuel s2 w2).
Proof.
  exact (range_overrides demo_posts fresh_posts.2 (sel_of fresh_posts)
           (obj_of fresh_posts) (meta_in fresh_posts) (params_in fresh_posts)
           (Since (DStr "20")) (DStr "15") (DStr "50")
           (sel_of ranged_twice) ranged_twice.2
           ltac:(facts) ltac:(facts) ltac:(facts) eq_refl eq_refl
           ltac:(facts)).
Defined.

(** X15 on the answer in which every bucket has every metric. *)
Lemma InsightsSelection_get_rows_witness :
  NoDup ["end_time"; "a"; "b"] ∧
  ∃ brs : list (bucket * list json),
    full_rows = (λ r, IRow (row_of ["a"; "b"] r.1 r.2)) <$> brs ∧
    NoDup brs.*1 ∧
    Forall (λ r, Forall2 (λ name j,
                            reported demo_full [ds_a; ds_b_full] name r.1 j)
                         ["a"; "b"] r.2) brs ∧
    (∀ ds vr, ds ∈ [ds_a; ds_b_full] → vr ∈ ds_values ds →
              ∃ b, bucket_of demo_full vr = Ret b ∧ b ∈ brs.*1).
Proof.
  exact (InsightsSelection_get_rows demo_full full.2 (sel_of full)
           (obj_of full) (meta_in full) (params_in full) ["a"; "b"]
           [mkResult [ds_a]; mkResult [ds_b_full]] (VBool false) full_rows
           ltac:(facts) ltac:(facts) ltac:(facts) ltac:(facts) ltac:(facts)
           eq_refl ltac:(facts) ltac:(facts)).
Defined.

(** X16 on [daily(['a', 'a'])], the dataset of [a] coming twice. *)
Lemma InsightsSelection_get_duplicate_metric_witness :
  InsightsSelection_get demo_twice (sel_of twice) twice.2
  = (Raise ValueError,
     log_call (GraphAll ["me"] "insights" ["a"; "a"] (params_in twice))
       twice.2).
Proof.
  refine (InsightsSelection_get_duplicate_metric demo_twice twice.2
            (sel_of twice) (obj_of twice) (meta_in twice) (params_in twice)
            ["a"; "a"] [mkResult [ds_a]; mkResult [ds_a]] 3
            ltac:(facts) ltac:(facts) ltac:(facts) ltac:(facts) _
            ltac:(facts) ltac:(facts) _ _ _).
  - lia.
  - intros ds vr Hds Hvr.
    assert (ds = ds_a) as ->.
    { repeat (apply elem_of_cons in Hds as [->|Hds]; [done|]).
      by apply elem_of_nil in Hds. }
    repeat (apply elem_of_cons in Hvr as [->|Hvr];
            [eexists; vm_compute; reflexivity|]).
    by apply elem_of_nil in Hvr.
  - by repeat constructor.
  - intros [_ [H _]%NoDup_cons]%NoDup_cons. apply H, list_elem_of_here.
Defined.

(** A dataset called [None] passes the checks of the names and is
    refused when the class is made; one called [print] is a keyword. *)
Example namedtuple_None :
  namedtuple ["end_time"; "None"] = Raise SyntaxError ∧
  namedtuple ["end_time"; "print"] = Raise ValueError.
Proof. split; vm_compute; reflexivity. Qed.

(** X17 on [daily('a')] and a dataset without values. *)
Lemma InsightsSelection_get_no_values_witness :
  InsightsSelection_get demo_empty (sel_of (single_metric demo_empty))
    (single_metric demo_empty).2
  = (Ret [],
     log_call (GraphAll ["me"] "insights" ["a"]
                 (params_in (single_metric demo_empty)))
       (single_metric demo_empty).2).
Proof.
  refine (InsightsSelection_get_no_values demo_empty
            (single_metric demo_empty).2 (sel_of (single_metric demo_empty))
            (obj_of (single_metric demo_empty))
            (meta_in (single_metric demo_empty))
            (params_in (single_metric demo_empty))
            "a" [] [mkResult [mkDataset "a" []]] (VBool true) 3
            ["end_time"; "a"]
            ltac:(facts) ltac:(facts) ltac:(facts) ltac:(facts) _
            ltac:(facts) ltac:(facts) ltac:(facts) _ ltac:(facts)).
  - lia.
  - by repeat constructor.
Defined.

(** X18 on [lifetime(['a', 'b'])]: [b] has two values, the last one is
    shown. *)
Lemma InsightsSelection_get_lifetime_witness :
  InsightsSelection_get demo_lifetime (sel_of lifetime_ab) lifetime_ab.2
  = (Ret [IRow (row_of ["a"; "b"] BLifetime [JNum 7; JNum 9])],
     log_call (GraphAll ["me"] "insights" ["a"; "b"] (params_in lifetime_ab))
       lifetime_ab.2).
Proof.
  refine (InsightsSelection_get_lifetime demo_lifetime lifetime_ab.2
            (sel_of lifetime_ab) (obj_of lifetime_ab) (meta_in lifetime_ab)
            (params_in lifetime_ab) ["a"; "b"]
            [mkResult [mkDataset "a" [mkValueRow (JNum 7) None]];
             mkResult [mkDataset "b" [mkValueRow (JNum 1) (Some "");
                                      mkValueRow (JNum 9) None]]]
            (VBool false) 3 ["end_time"; "a"; "b"] [JNum 7; JNum 9]
            ltac:(facts) ltac:(facts) ltac:(facts) ltac:(facts) _
            ltac:(facts) ltac:(facts) eq_refl ltac:(facts) _ _ _
            ltac:(facts)).
  - lia.
  - done.
  - by repeat constructor.
  - by repeat constructor.
Defined.

(** X19 on [daily('a')] and the two values of [a]. *)
Lemma InsightsSelection_get_single_values_witness :
  ∃ l,
    InsightsSelection_get demo_single (sel_of (single_metric demo_single))
      (single_metric demo_single).2
    = (Ret l,
       log_call (GraphAll ["me"] "insights" ["a"]
                   (params_in (single_metric demo_single)))
         (single_metric demo_single).2) ∧
    l ≡ₚ [IValue (CJson (JNum 1)); IValue (CJson (JNum 2))].
Proof.
  refine (InsightsSelection_get_single_values demo_single
            (single_metric demo_single).2 (sel_of (single_metric demo_single))
            (obj_of (single_metric demo_single))
            (meta_in (single_metric demo_single))
            (params_in (single_metric demo_single))
            "a" [mkResult [ds_a]] (ds_values ds_a)
            [BTime (day 1); BTime (day 2)] (VBool true) 3 ["end_time"; "a"]
            ltac:(facts) ltac:(facts) ltac:(facts) ltac:(facts) _
            ltac:(facts) ltac:(facts) eq_refl ltac:(facts) eq_refl
            ltac:(facts) _ ltac:(facts)).
  - lia.
  - apply NoDup_cons. split; [|apply NoDup_singleton].
    intros [=]%list_elem_of_singleton.
Defined.

(** X20 on the answer in which every bucket has every metric. *)
Lemma InsightsSelection_serialize_rows_witness :
  ∃ rows : list Row,
    full_rows = IRow <$> rows ∧
    InsightsSelection_serialize demo_full 0 (sel_of full) full.2
    = (Ret ((λ r, zip (row_fields r) (row_cells r)) <$> rows), full_get.2).
Proof.
  pose proof (InsightsSelection_serialize_rows demo_full full.2 (sel_of full)
    (obj_of full) (meta_in full) (params_in full) (VBool false) 0
    ltac:(facts) ltac:(facts) ltac:(facts) ltac:(facts) ltac:(facts) eq_refl)
    as H.
  assert (InsightsSelection_get demo_full (sel_of full) full.2
          = (Ret full_rows, full_get.2)) as E by facts.
  rewrite E in H. exact H.
Defined.
